(** * Bomberman multi-agent Q-learning: a shallow embedding of [main.py]

    The simulation of [src/main.py] (grid, bombs, agents, the tick loop and
    the tabular Q-learning agents) is transcribed into executable Rocq
    definitions, and the properties the specification states about it are
    proved about these definitions.

    Conventions of the embedding:
    - Python [float] and NumPy [float64] values are Rocq's primitive binary64
      floats, so every arithmetic step rounds as it does in the program;
    - Python [int]s are [Z]; list indices coming from [range] are [nat];
    - an exception is a value [Raise e] of the type [result];
    - the methods of [BombermanGame] run in a state monad over the record
      [BombermanGame], which also carries the two random generators and the
      files the program reads and writes;
    - [print] calls and the drawing code ([on_draw]) do not touch the state
      and are left out. *)

From Stdlib Require Import ZArith Lia Floats.
From stdpp Require Import base option list gmap strings pretty.

Local Open Scope Z_scope.

(** ** Module-level constants *)

Definition SCREEN_WIDTH : Z := 800.
Definition SCREEN_HEIGHT : Z := 600.
Definition CELL_SIZE : Z := 40.
Definition ROWS : Z := SCREEN_HEIGHT `div` CELL_SIZE.
Definition COLS : Z := SCREEN_WIDTH `div` CELL_SIZE.

(** Cell types: [EMPTY = 0], [DESTRUCTIBLE = 1], [INDESTRUCTIBLE = 2]. *)
Inductive Cell : Type := EMPTY | DESTRUCTIBLE | INDESTRUCTIBLE.

#[global] Instance Cell_eq_dec : EqDecision Cell.
Proof. solve_decision. Defined.

(** [ACTIONS = ["UP", "DOWN", "LEFT", "RIGHT", "PLACE_BOMB"]]; the program
    only uses its length and the positions 0..4 of its entries. *)
Definition ACTION_UP : Z := 0.
Definition ACTION_DOWN : Z := 1.
Definition ACTION_LEFT : Z := 2.
Definition ACTION_RIGHT : Z := 3.
Definition ACTION_PLACE_BOMB : Z := 4.
Definition ACTIONS : list Z :=
  [ACTION_UP; ACTION_DOWN; ACTION_LEFT; ACTION_RIGHT; ACTION_PLACE_BOMB].

(** ** Exceptions and results *)

Inductive exn : Type :=
| IndexError
| ValueError
| FileNotFoundError
| OverflowError.

Inductive result (A : Type) : Type :=
| Ok (a : A)
| Raise (e : exn).
Arguments Ok {A} a.
Arguments Raise {A} e.

Definition bindR {A B : Type} (r : result A) (k : A → result B) : result B :=
  match r with
  | Ok a => k a
  | Raise e => Raise e
  end.

Notation "'let*' x ':=' e 'in' k" := (bindR e (λ x, k))
  (at level 10, x pattern, e at level 100, k at level 200).

(** ** Python sequences *)

(** [l[i]] for a Python list or a NumPy axis: a negative index counts from
    the end, anything outside [-len, len) raises [IndexError]. *)
Definition py_norm (len i : Z) : option nat :=
  let j := if i <? 0 then i + len else i in
  if (0 <=? j) && (j <? len) then Some (Z.to_nat j) else None.

Definition py_index {A : Type} (l : list A) (i : Z) : result A :=
  match py_norm (Z.of_nat (length l)) i with
  | Some j => match l !! j with Some x => Ok x | None => Raise IndexError end
  | None => Raise IndexError
  end.

(** [l[i] = x]. *)
Definition py_setitem {A : Type} (l : list A) (i : Z) (x : A) : result (list A) :=
  match py_norm (Z.of_nat (length l)) i with
  | Some j => Ok (<[j := x]> l)
  | None => Raise IndexError
  end.

(** [l[i]] and [l[i] = x] for an index produced by [range] or [enumerate]. *)
Definition list_get {A : Type} (l : list A) (i : nat) : result A :=
  match l !! i with
  | Some x => Ok x
  | None => Raise IndexError
  end.

Definition list_set {A : Type} (l : list A) (i : nat) (x : A) : result (list A) :=
  if decide (i < length l)%nat then Ok (<[i := x]> l) else Raise IndexError.

(** ** Floating point *)

(** The literals of the program, as the binary64 values Python reads them
    to.  0.5 and 3 are exact; 0.1, 0.2, 0.7 and 0.9 are the nearest
    doubles. *)
Definition f_0_1 : float := 0x1.999999999999ap-4%float.
Definition f_0_2 : float := 0x1.999999999999ap-3%float.
Definition f_0_5 : float := 0.5%float.
Definition f_0_7 : float := 0x1.6666666666666p-1%float.
Definition f_0_9 : float := 0x1.ccccccccccccdp-1%float.

(** Conversion of a Python [int] met in a float expression: the double
    nearest to the integer, ties to even, for an integer of any size.  An
    integer too large for a finite double makes the conversion raise
    [OverflowError]. *)
Definition float_of_Z (z : Z) : float :=
  SF2Prim (binary_normalize prec emax z 0 false).

Definition float_of_int (z : Z) : result float :=
  if PrimFloat.is_infinity (float_of_Z z) then Raise OverflowError
  else Ok (float_of_Z z).

(** [np.max] of a one-dimensional array: NaN propagates. *)
Definition np_maximum (a b : float) : float :=
  if PrimFloat.is_nan a then a
  else if PrimFloat.is_nan b then b
  else if PrimFloat.ltb a b then b else a.

Definition np_max (row : list float) : result float :=
  match row with
  | [] => Raise ValueError
  | x :: xs => Ok (fold_left np_maximum xs x)
  end.

(** [np.argmax]: index of the first maximum, a NaN counting as maximal. *)
Fixpoint argmax_from (best : float) (besti i : Z) (xs : list float) : Z :=
  match xs with
  | [] => besti
  | x :: xs' =>
      if negb (PrimFloat.is_nan best) && (PrimFloat.is_nan x || PrimFloat.ltb best x)
      then argmax_from x i (i + 1) xs'
      else argmax_from best besti (i + 1) xs'
  end.

Definition np_argmax (row : list float) : result Z :=
  match row with
  | [] => Raise ValueError
  | x :: xs => Ok (argmax_from x 0 1 xs)
  end.

(** ** Random generators

    A generator is the sequence of its future outputs and a cursor into it.
    [draws] gives the value a call of [random()] returns at that point of
    the sequence, [ints] the raw integer a call of [randint] reduces. *)
Record Rng : Type := mkRng {
  draws : nat → float;
  ints : nat → Z;
  cursor : nat
}.

Definition rng_random (g : Rng) : float * Rng :=
  (draws g (cursor g), mkRng (draws g) (ints g) (S (cursor g))).

(** [randint(high)]: uniform in [[0, high)]; [ValueError] when [high <= 0]. *)
Definition rng_randint (g : Rng) (high : Z) : result (Z * Rng) :=
  if high <=? 0 then Raise ValueError
  else Ok (ints g (cursor g) `mod` high, mkRng (draws g) (ints g) (S (cursor g))).

(** ** Files holding Q-tables *)

Abbreviation QTable := (list (list float)).

(** What a file name may hold: an array written by [np.save], or bytes that
    [np.load] cannot read.  A name that is not in the map does not exist. *)
Inductive NpyFile : Type :=
| NpyArray (t : QTable)
| NotNpy.

(** [np.load]: [FileNotFoundError] for a missing file; a file that is not an
    array makes [np.load] raise another exception ([ValueError] here). *)
Definition np_load (files : gmap string NpyFile) (filename : string) : result QTable :=
  match files !! filename with
  | None => Raise FileNotFoundError
  | Some (NpyArray t) => Ok t
  | Some NotNpy => Raise ValueError
  end.

(** ** [class QLearningAgent] *)

Record QLearningAgent : Type := mkAgent {
  state_size : Z;
  action_size : Z;
  q_table : QTable;
  alpha : float;
  gamma : float;
  epsilon : float;
  agent_id : nat
}.

Definition set_q_table (t : QTable) (a : QLearningAgent) : QLearningAgent :=
  mkAgent (state_size a) (action_size a) t (alpha a) (gamma a) (epsilon a) (agent_id a).

(** [np.zeros((state_size, action_size))]. *)
Definition np_zeros (rows cols : Z) : QTable :=
  replicate (Z.to_nat rows) (replicate (Z.to_nat cols) 0%float).

(** [__init__] with the default [alpha=0.1, gamma=0.9, epsilon=0.1]. *)
Definition QLearningAgent_init (state_size action_size : Z) (agent_id : nat)
  : QLearningAgent :=
  mkAgent state_size action_size (np_zeros state_size action_size)
          f_0_1 f_0_9 f_0_1 agent_id.

Definition choose_action (a : QLearningAgent) (state : Z) (g : Rng)
  : result (Z * Rng) :=
  let '(x, g) := rng_random g in
  if PrimFloat.ltb x (epsilon a) then rng_randint g (action_size a)
  else
    let* row := py_index (q_table a) state in
    let* best := np_argmax row in
    Ok (best, g).

(** [update]: the entry [q_table[state, action]], the target of [+=], is
    read before the right-hand side is evaluated; there the reward, an
    [int], is converted when it is added to a float. *)
Definition update (a : QLearningAgent) (state action reward next_state : Z)
  : result QLearningAgent :=
  let* next_row := py_index (q_table a) next_state in
  let* best_next_action := np_max next_row in
  let* row := py_index (q_table a) state in
  let* q := py_index row action in
  let* r := float_of_int reward in
  let q' :=
    PrimFloat.add q
      (PrimFloat.mul (alpha a)
         (PrimFloat.sub
            (PrimFloat.add r (PrimFloat.mul (gamma a) best_next_action))
            q)) in
  let* row' := py_setitem row action q' in
  let* t' := py_setitem (q_table a) state row' in
  Ok (set_q_table t' a).

(** [str.endswith]. *)
Definition endswith (s suffix : string) : bool :=
  let n := String.length s in
  let m := String.length suffix in
  (m <=? n)%nat && String.eqb (String.substring (n - m) m s) suffix.

(** The file [np.save] writes: [.npy] is appended to a name that does not
    end with it. *)
Definition npy_name (filename : string) : string :=
  if endswith filename ".npy" then filename else filename +:+ ".npy".

(** [np.save(filename, self.q_table)]: the file now holds the table. *)
Definition save_q_table (a : QLearningAgent) (filename : string)
    (files : gmap string NpyFile) : gmap string NpyFile :=
  <[npy_name filename := NpyArray (q_table a)]> files.

(** [load_q_table]: only [FileNotFoundError] is caught. *)
Definition load_q_table (a : QLearningAgent) (filename : string)
    (files : gmap string NpyFile) : result QLearningAgent :=
  match np_load files filename with
  | Ok t => Ok (set_q_table t a)
  | Raise FileNotFoundError => Ok a
  | Raise e => Raise e
  end.

(** ** [class BombermanGame]: the state *)

(** A bomb is the dict [{"row": _, "col": _, "timer": _, "owner": _}]. *)
Record Bomb : Type := mkBomb {
  bomb_row : Z;
  bomb_col : Z;
  bomb_timer : float;
  bomb_owner : nat
}.

Definition set_bomb_timer (t : float) (b : Bomb) : Bomb :=
  mkBomb (bomb_row b) (bomb_col b) t (bomb_owner b).

(** [==] on two bomb dicts: the four values compared with [==]. *)
Definition bomb_eq (a b : Bomb) : bool :=
  (bomb_row a =? bomb_row b) && (bomb_col a =? bomb_col b)
  && PrimFloat.eqb (bomb_timer a) (bomb_timer b)
  && (bomb_owner a =? bomb_owner b)%nat.

(** The attributes of the game object, followed by what its methods reach
    outside it: the generator of the [random] module, the generator of
    [np.random], the files of the working directory, and the list of
    [np.save] calls made so far (latest last). *)
Record BombermanGame : Type := mkGame {
  num_agents : nat;
  grid : list (list Cell);
  agent_positions : list (Z * Z);
  bombs : list Bomb;
  scores : list Z;
  lives : list Z;
  game_over : list bool;
  current_episode : Z;
  max_episodes : Z;
  time_accumulator : float;
  update_interval : float;
  agents : list QLearningAgent;
  random_state : Rng;
  np_random_state : Rng;
  files : gmap string NpyFile;
  save_calls : list (string * QTable)
}.

Definition set_grid (x : list (list Cell)) (s : BombermanGame) : BombermanGame :=
  mkGame (num_agents s) x (agent_positions s) (bombs s) (scores s) (lives s)
    (game_over s) (current_episode s) (max_episodes s) (time_accumulator s)
    (update_interval s) (agents s) (random_state s) (np_random_state s)
    (files s) (save_calls s).

Definition set_agent_positions (x : list (Z * Z)) (s : BombermanGame) : BombermanGame :=
  mkGame (num_agents s) (grid s) x (bombs s) (scores s) (lives s)
    (game_over s) (current_episode s) (max_episodes s) (time_accumulator s)
    (update_interval s) (agents s) (random_state s) (np_random_state s)
    (files s) (save_calls s).

Definition set_bombs (x : list Bomb) (s : BombermanGame) : BombermanGame :=
  mkGame (num_agents s) (grid s) (agent_positions s) x (scores s) (lives s)
    (game_over s) (current_episode s) (max_episodes s) (time_accumulator s)
    (update_interval s) (agents s) (random_state s) (np_random_state s)
    (files s) (save_calls s).

Definition set_scores (x : list Z) (s : BombermanGame) : BombermanGame :=
  mkGame (num_agents s) (grid s) (agent_positions s) (bombs s) x (lives s)
    (game_over s) (current_episode s) (max_episodes s) (time_accumulator s)
    (update_interval s) (agents s) (random_state s) (np_random_state s)
    (files s) (save_calls s).

Definition set_lives (x : list Z) (s : BombermanGame) : BombermanGame :=
  mkGame (num_agents s) (grid s) (agent_positions s) (bombs s) (scores s) x
    (game_over s) (current_episode s) (max_episodes s) (time_accumulator s)
    (update_interval s) (agents s) (random_state s) (np_random_state s)
    (files s) (save_calls s).

Definition set_game_over (x : list bool) (s : BombermanGame) : BombermanGame :=
  mkGame (num_agents s) (grid s) (agent_positions s) (bombs s) (scores s) (lives s)
    x (current_episode s) (max_episodes s) (time_accumulator s)
    (update_interval s) (agents s) (random_state s) (np_random_state s)
    (files s) (save_calls s).

Definition set_current_episode (x : Z) (s : BombermanGame) : BombermanGame :=
  mkGame (num_agents s) (grid s) (agent_positions s) (bombs s) (scores s) (lives s)
    (game_over s) x (max_episodes s) (time_accumulator s)
    (update_interval s) (agents s) (random_state s) (np_random_state s)
    (files s) (save_calls s).

Definition set_time_accumulator (x : float) (s : BombermanGame) : BombermanGame :=
  mkGame (num_agents s) (grid s) (agent_positions s) (bombs s) (scores s) (lives s)
    (game_over s) (current_episode s) (max_episodes s) x
    (update_interval s) (agents s) (random_state s) (np_random_state s)
    (files s) (save_calls s).

Definition set_agents (x : list QLearningAgent) (s : BombermanGame) : BombermanGame :=
  mkGame (num_agents s) (grid s) (agent_positions s) (bombs s) (scores s) (lives s)
    (game_over s) (current_episode s) (max_episodes s) (time_accumulator s)
    (update_interval s) x (random_state s) (np_random_state s)
    (files s) (save_calls s).

Definition set_random_state (x : Rng) (s : BombermanGame) : BombermanGame :=
  mkGame (num_agents s) (grid s) (agent_positions s) (bombs s) (scores s) (lives s)
    (game_over s) (current_episode s) (max_episodes s) (time_accumulator s)
    (update_interval s) (agents s) x (np_random_state s)
    (files s) (save_calls s).

Definition set_np_random_state (x : Rng) (s : BombermanGame) : BombermanGame :=
  mkGame (num_agents s) (grid s) (agent_positions s) (bombs s) (scores s) (lives s)
    (game_over s) (current_episode s) (max_episodes s) (time_accumulator s)
    (update_interval s) (agents s) (random_state s) x
    (files s) (save_calls s).

Definition set_files (x : gmap string NpyFile) (l : list (string * QTable))
    (s : BombermanGame) : BombermanGame :=
  mkGame (num_agents s) (grid s) (agent_positions s) (bombs s) (scores s) (lives s)
    (game_over s) (current_episode s) (max_episodes s) (time_accumulator s)
    (update_interval s) (agents s) (random_state s) (np_random_state s)
    x l.

(** ** The monad of the methods: state and exceptions *)

Definition M (A : Type) : Type := BombermanGame → result (A * BombermanGame).

Definition ret {A : Type} (a : A) : M A := λ s, Ok (a, s).

Definition bind {A B : Type} (m : M A) (k : A → M B) : M B :=
  λ s, match m s with
       | Ok (a, s') => k a s'
       | Raise e => Raise e
       end.

Definition get : M BombermanGame := λ s, Ok (s, s).
Definition modify (f : BombermanGame → BombermanGame) : M unit := λ s, Ok (tt, f s).

(** A computation that does not touch the state. *)
Definition lift {A : Type} (r : result A) : M A :=
  λ s, match r with
       | Ok a => Ok (a, s)
       | Raise e => Raise e
       end.

Notation "x <- e ;; k" := (bind e (λ x, k))
  (at level 100, e at next level, k at level 200, right associativity).
Notation "e ;;; k" := (bind e (λ _, k))
  (at level 100, k at level 200, right associativity).

Definition random_random : M float :=
  λ s, let '(x, g) := rng_random (random_state s) in Ok (x, set_random_state g s).

(** ** [setup] *)

(** The body of the inner loop: one cell of a row. *)
Definition gen_cell : M Cell :=
  x <- random_random ;;
  if PrimFloat.ltb x f_0_2 then
    y <- random_random ;;
    ret (if PrimFloat.ltb y f_0_7 then DESTRUCTIBLE else INDESTRUCTIBLE)
  else ret EMPTY.

(** [for col in range(COLS)], with the cells still to produce counted down. *)
Fixpoint gen_row (n : nat) (row_data : list Cell) : M (list Cell) :=
  match n with
  | O => ret row_data
  | S n' => c <- gen_cell ;; gen_row n' (row_data ++ [c])
  end.

(** [for row in range(ROWS)]. *)
Fixpoint gen_rows (n : nat) : M unit :=
  match n with
  | O => ret tt
  | S n' =>
      row_data <- gen_row (Z.to_nat COLS) [] ;;
      modify (λ s, set_grid (grid s ++ [row_data]) s) ;;;
      gen_rows n'
  end.

(** [[(1, 1 + i * 3) for i in range(n)]]. *)
Definition spawn_positions (n : nat) : list (Z * Z) :=
  (λ i : nat, (1, 1 + Z.of_nat i * 3)) <$> seq 0 n.

Definition setup : M unit :=
  modify (set_grid []) ;;;
  gen_rows (Z.to_nat ROWS) ;;;
  modify (λ s, set_agent_positions (spawn_positions (num_agents s)) s) ;;;
  modify (λ s, set_scores (replicate (num_agents s) 0) s) ;;;
  modify (λ s, set_lives (replicate (num_agents s) 3) s) ;;;
  modify (set_bombs []) ;;;
  modify (λ s, set_game_over (replicate (num_agents s) false) s).

(** ** [get_state] *)

Definition get_state (agent_index : nat) : M Z :=
  s <- get ;;
  p <- lift (list_get (agent_positions s) agent_index) ;;
  ret (p.1 * COLS + p.2).

(** ** [perform_action] *)

(** [self.grid[r][c]]. *)
Definition grid_at (r c : Z) : M Cell :=
  s <- get ;;
  lift (let* line := py_index (grid s) r in py_index line c).

(** [guard and self.grid[r][c] == EMPTY], evaluated left to right: the grid
    is read only when [guard] holds. *)
Definition free_cell (guard : bool) (r c : Z) : M bool :=
  if guard then cell <- grid_at r c ;; ret (bool_decide (cell = EMPTY))
  else ret false.

(** [self.agent_positions[agent_index] = p; return 5]. *)
Definition move_to (agent_index : nat) (p : Z * Z) : M Z :=
  s <- get ;;
  l <- lift (list_set (agent_positions s) agent_index p) ;;
  modify (set_agent_positions l) ;;;
  ret 5.

Definition perform_action (agent_index : nat) (action : Z) : M Z :=
  s <- get ;;
  dead <- lift (list_get (game_over s) agent_index) ;;
  if (dead : bool) then ret (-100)
  else
    p <- lift (list_get (agent_positions s) agent_index) ;;
    let row := p.1 in
    let col := p.2 in
    up <- free_cell ((action =? 0) && (row >? 0)) (row - 1) col ;;
    if (up : bool) then move_to agent_index (row - 1, col)
    else
      down <- free_cell ((action =? 1) && (row <? ROWS - 1)) (row + 1) col ;;
      if (down : bool) then move_to agent_index (row + 1, col)
      else
        left <- free_cell ((action =? 2) && (col >? 0)) row (col - 1) ;;
        if (left : bool) then move_to agent_index (row, col - 1)
        else
          right <- free_cell ((action =? 3) && (col <? COLS - 1)) row (col + 1) ;;
          if (right : bool) then move_to agent_index (row, col + 1)
          else if action =? 4 then
            modify (λ s, set_bombs (bombs s ++ [mkBomb row col 3 agent_index]) s) ;;;
            ret 0
          else ret (-1).

(** ** [explode_bomb] *)

(** [self.grid[r][c] = v]. *)
Definition grid_put (r c : Z) (v : Cell) : M unit :=
  s <- get ;;
  g <- lift (let* line := py_index (grid s) r in
             let* line' := py_setitem line c v in
             py_setitem (grid s) r line') ;;
  modify (set_grid g).

(** [for i in range(1, 3)] for one direction [(dr, dc)]: the distances still
    to visit are [ds]; a [break] returns at once. *)
Fixpoint scan_direction (row col dr dc : Z) (ds : list Z)
    (affected_positions : list (Z * Z)) : M (list (Z * Z)) :=
  match ds with
  | [] => ret affected_positions
  | i :: ds' =>
      let r := row + dr * i in
      let c := col + dc * i in
      if (0 <=? r) && (r <? ROWS) && (0 <=? c) && (c <? COLS) then
        cell <- grid_at r c ;;
        if bool_decide (cell = INDESTRUCTIBLE) then ret affected_positions
        else
          let affected_positions := affected_positions ++ [(r, c)] in
          if bool_decide (cell = DESTRUCTIBLE) then
            grid_put r c EMPTY ;;;
            ret affected_positions
          else scan_direction row col dr dc ds' affected_positions
      else scan_direction row col dr dc ds' affected_positions
  end.

Definition DIRECTIONS : list (Z * Z) := [(0, 1); (0, -1); (1, 0); (-1, 0)].

(** [for dr, dc in [(0, 1), (0, -1), (1, 0), (-1, 0)]]. *)
Fixpoint scan_directions (row col : Z) (dirs : list (Z * Z))
    (affected_positions : list (Z * Z)) : M (list (Z * Z)) :=
  match dirs with
  | [] => ret affected_positions
  | d :: dirs' =>
      a <- scan_direction row col d.1 d.2 [1; 2] affected_positions ;;
      scan_directions row col dirs' a
  end.

(** The body of [for i, (arow, acol) in enumerate(self.agent_positions)]. *)
Definition damage_agent (affected_positions : list (Z * Z)) (i : nat)
    (p : Z * Z) : M unit :=
  s <- get ;;
  if bool_decide (p ∈ affected_positions) then
    dead <- lift (list_get (game_over s) i) ;;
    if (dead : bool) then ret tt
    else
      l <- lift (list_get (lives s) i) ;;
      ls <- lift (list_set (lives s) i (l - 1)) ;;
      modify (set_lives ls) ;;;
      if l - 1 <=? 0 then
        s <- get ;;
        go <- lift (list_set (game_over s) i true) ;;
        modify (set_game_over go)
      else ret tt
  else ret tt.

Fixpoint damage_agents (affected_positions : list (Z * Z)) (i : nat)
    (ps : list (Z * Z)) : M unit :=
  match ps with
  | [] => ret tt
  | p :: ps' =>
      damage_agent affected_positions i p ;;;
      damage_agents affected_positions (S i) ps'
  end.

(** The first loop of [explode_bomb]: the affected positions. *)
Definition blast (bomb : Bomb) : M (list (Z * Z)) :=
  let row := bomb_row bomb in
  let col := bomb_col bomb in
  scan_directions row col DIRECTIONS [(row, col)].

Definition explode_bomb (bomb : Bomb) : M unit :=
  affected_positions <- blast bomb ;;
  s <- get ;;
  damage_agents affected_positions 0 (agent_positions s).

(** ** [on_update] *)

(** [l.remove(x)]: drops the first entry matching [x] (the object itself,
    or an entry that compares equal); [ValueError] when there is none. *)
Fixpoint remove_first {A : Type} (matches : A → bool) (l : list A)
  : result (list A) :=
  match l with
  | [] => Raise ValueError
  | x :: l' =>
      if matches x then Ok l'
      else let* r := remove_first matches l' in Ok (x :: r)
  end.

(** The bomb dicts are shared between the copy [self.bombs[:]] the loop
    walks and the list [self.bombs] it removes from.  Each dict is named by
    its position [k] in the copy; [live] is [self.bombs], as named dicts. *)
Definition same_object (k : nat) (e : nat * Bomb) : bool := (e.1 =? k)%nat.

Fixpoint bombs_loop (snapshot live : list (nat * Bomb)) : M unit :=
  match snapshot with
  | [] => ret tt
  | kb :: rest =>
      s <- get ;;
      let k := kb.1 in
      let bomb :=
        set_bomb_timer (PrimFloat.sub (bomb_timer kb.2) (update_interval s)) kb.2 in
      let live := (λ e, if same_object k e then (k, bomb) else e) <$> live in
      modify (set_bombs (snd <$> live)) ;;;
      if PrimFloat.leb (bomb_timer bomb) 0 then
        explode_bomb bomb ;;;
        live <- lift (remove_first (λ e, same_object k e || bomb_eq e.2 bomb) live) ;;
        modify (set_bombs (snd <$> live)) ;;;
        bombs_loop rest live
      else bombs_loop rest live
  end.

(** [for bomb in self.bombs[:]: ...]. *)
Definition tick_bombs : M unit :=
  s <- get ;;
  let objects := zip (seq 0 (length (bombs s))) (bombs s) in
  bombs_loop objects objects.

(** The body of [for i in range(self.num_agents)]. *)
Definition agent_turn (i : nat) : M unit :=
  s <- get ;;
  dead <- lift (list_get (game_over s) i) ;;
  if (dead : bool) then ret tt
  else
    current_state <- get_state i ;;
    agent <- lift (list_get (agents s) i) ;;
    choice <- lift (choose_action agent current_state (np_random_state s)) ;;
    modify (set_np_random_state choice.2) ;;;
    let action := choice.1 in
    reward <- perform_action i action ;;
    next_state <- get_state i ;;
    s <- get ;;
    agent <- lift (list_get (agents s) i) ;;
    agent' <- lift (update agent current_state action reward next_state) ;;
    modify (λ s, set_agents (<[i := agent']> (agents s)) s).

Fixpoint agents_loop (ids : list nat) : M unit :=
  match ids with
  | [] => ret tt
  | i :: ids' => agent_turn i ;;; agents_loop ids'
  end.

(** [f"agent_{i+1}_qtable.npy"]. *)
Definition qtable_filename (i : nat) : string :=
  "agent_" +:+ pretty (S i) +:+ "_qtable.npy".

(** [for i, agent in enumerate(self.agents): agent.save_q_table(...)]. *)
Fixpoint save_all (i : nat) (ags : list QLearningAgent) : M unit :=
  match ags with
  | [] => ret tt
  | agent :: ags' =>
      let filename := qtable_filename i in
      modify (λ s, set_files (save_q_table agent filename (files s))
                     (save_calls s ++ [(filename, q_table agent)]) s) ;;;
      save_all (S i) ags'
  end.

(** [if all(self.game_over): ...]. *)
Definition end_episode : M unit :=
  s <- get ;;
  if forallb id (game_over s) then
    modify (λ s, set_current_episode (current_episode s + 1) s) ;;;
    save_all 0 (agents s) ;;;
    setup
  else ret tt.

(** One simulation step: the part of [on_update] below the time gate. *)
Definition tick : M unit :=
  tick_bombs ;;;
  s <- get ;;
  agents_loop (seq 0 (num_agents s)) ;;;
  end_episode.

Definition on_update (delta_time : float) : M unit :=
  modify (λ s, set_time_accumulator
                 (PrimFloat.add (time_accumulator s) delta_time) s) ;;;
  s <- get ;;
  if PrimFloat.ltb (time_accumulator s) (update_interval s) then ret tt
  else
    modify (set_time_accumulator 0) ;;;
    tick.

(** ** [BombermanGame.__init__] *)

(** [for i, agent in enumerate(self.agents): agent.load_q_table(...)]. *)
Fixpoint load_all (i : nat) (ags : list QLearningAgent)
    (fs : gmap string NpyFile) : result (list QLearningAgent) :=
  match ags with
  | [] => Ok []
  | agent :: ags' =>
      let* agent' := load_q_table agent (qtable_filename i) fs in
      let* rest := load_all (S i) ags' fs in
      Ok (agent' :: rest)
  end.

(** The constructor, given the outside world it starts in. *)
Definition BombermanGame_init (num_agents : nat) (max_episodes : Z)
    (random_state np_random_state : Rng) (fs : gmap string NpyFile)
  : result BombermanGame :=
  let fresh :=
    (λ i, QLearningAgent_init (ROWS * COLS) (Z.of_nat (length ACTIONS)) i)
      <$> seq 0 num_agents in
  let* loaded := load_all 0 fresh fs in
  Ok (mkGame num_agents [] [] [] (replicate num_agents 0)
        (replicate num_agents 3) (replicate num_agents false) 0 max_episodes
        0 f_0_5 loaded random_state np_random_state fs []).

(** * Vocabulary of the properties

    The predicates and functions the statements below are written with:
    well-formed states, the readings of the grid, the specification's own
    wording of the blast and of the countdown, and the concrete games the
    statements are instantiated on. *)

(** A generator whose every draw is [x], resp. [n]. *)
Definition rng_const (x : float) (n : Z) : Rng := mkRng (λ _, x) (λ _, n) 0.

(** A game of [n] agents on an all-empty grid (every draw is 0.5), no file
    on disk, after [__init__] and [setup]. *)
Definition empty_world (n : nat) : result BombermanGame :=
  let* g := BombermanGame_init n 1000 (rng_const 0.5 0) (rng_const 0.5 0) ∅ in
  let* r := setup g in
  Ok r.2.

Definition positions_of (r : result BombermanGame) : list (Z * Z) :=
  match r with Ok g => agent_positions g | Raise _ => [] end.

(** A position inside the grid. *)
Definition in_bounds (p : Z * Z) : Prop :=
  0 ≤ p.1 < ROWS ∧ 0 ≤ p.2 < COLS.

#[global] Instance in_bounds_dec p : Decision (in_bounds p).
Proof. unfold in_bounds. apply _. Defined.

(** The grid has [ROWS] rows of [COLS] cells, as [setup] builds it. *)
Definition grid_wf (g : list (list Cell)) : Prop :=
  Z.of_nat (length g) = ROWS ∧ Forall (λ line, Z.of_nat (length line) = COLS) g.

(** The cell at a position: [None] outside the grid. *)
Definition cell_at (g : list (list Cell)) (p : Z * Z) : option Cell :=
  if decide (in_bounds p) then
    match g !! Z.to_nat p.1 with
    | Some line => line !! Z.to_nat p.2
    | None => None
    end
  else None.

(** The cell a movement action leads to. *)
Definition destination (action : Z) (p : Z * Z) : Z * Z :=
  if action =? 0 then (p.1 - 1, p.2)
  else if action =? 1 then (p.1 + 1, p.2)
  else if action =? 2 then (p.1, p.2 - 1)
  else if action =? 3 then (p.1, p.2 + 1)
  else p.

(** The entry [Q[i, j]] of a table, [None] outside its shape. *)
Definition q_entry (t : QTable) (i j : nat) : option float :=
  match t !! i with
  | Some row => row !! j
  | None => None
  end.

(** The right-hand side of the rule as the specification writes it,
    [Q[s,a] + α · (r + γ · m − Q[s,a])], in binary64 arithmetic. *)
Definition bellman_spec (α γ q r m : float) : float :=
  (q + α * (r + γ * m - q))%float.

(** The grid with the cell at [p] replaced. *)
Definition grid_set (g : list (list Cell)) (p : Z * Z) (v : Cell)
  : list (list Cell) :=
  match g !! Z.to_nat p.1 with
  | Some line => <[Z.to_nat p.1 := <[Z.to_nat p.2 := v]> line]> g
  | None => g
  end.

(** The grid with every cell of [ps] turned to Empty. *)
Definition destroy_all (ps : list (Z * Z)) (g : list (list Cell))
  : list (list Cell) :=
  foldl (λ g p, grid_set g p EMPTY) g ps.

(** The cell at distance [i] from [(row, col)] in direction [d], and the
    cells at the distances [ds]. *)
Definition cell_ahead (row col : Z) (d : Z * Z) (i : Z) : Z * Z :=
  (row + d.1 * i, col + d.2 * i).

Definition ray (row col : Z) (d : Z * Z) (ds : list Z) : list (Z * Z) :=
  cell_ahead row col d <$> ds.

(** The walk along one direction as the specification words it: an
    Indestructible cell stops the walk and is not added; any other cell is
    added; a Destructible cell is destroyed and stops the walk; an Empty
    cell lets the walk continue.  A position outside the grid holds no cell
    and is passed over.  The result is the list of cells added and the list
    of cells destroyed. *)
Fixpoint walk_spec (g : list (list Cell)) (cells : list (Z * Z))
  : list (Z * Z) * list (Z * Z) :=
  match cells with
  | [] => ([], [])
  | p :: rest =>
      match cell_at g p with
      | None => walk_spec g rest
      | Some INDESTRUCTIBLE => ([], [])
      | Some DESTRUCTIBLE => ([p], [p])
      | Some EMPTY => (p :: (walk_spec g rest).1, (walk_spec g rest).2)
      end
  end.

(** The four walks in the order of the program, each on the grid the
    previous ones left. *)
Fixpoint blast_spec (g : list (list Cell)) (row col : Z) (dirs : list (Z * Z))
    (acc : list (Z * Z)) : list (Z * Z) * list (list Cell) :=
  match dirs with
  | [] => (acc, g)
  | d :: dirs' =>
      let w := walk_spec g (ray row col d [1; 2]) in
      blast_spec (destroy_all w.2 g) row col dirs' (acc ++ w.1)
  end.

(** The walks of the directions [dirs], all on the same grid. *)
Definition walks (g : list (list Cell)) (row col : Z) (dirs : list (Z * Z))
  : list (list (Z * Z) * list (Z * Z)) :=
  (λ d, walk_spec g (ray row col d [1; 2])) <$> dirs.

(** Every agent has a life counter and a flag. *)
Definition vitals_wf (s : BombermanGame) : Prop :=
  length (lives s) = length (agent_positions s)
  ∧ length (game_over s) = length (agent_positions s).

(** An agent is hit when it stands on an affected position and is not
    already eliminated. *)
Definition hit (affected : list (Z * Z)) (p : Z * Z) (dead : bool) : bool :=
  bool_decide (p ∈ affected) && negb dead.

Definition lives_after (h : bool) (l : Z) : Z := if h then l - 1 else l.

Definition game_over_after (h : bool) (l : Z) (dead : bool) : bool :=
  if h && (l - 1 <=? 0) then true else dead.

(** One tick of the fuse, and the test the program makes on it. *)
Definition burn (dt : float) (b : Bomb) : Bomb :=
  set_bomb_timer (PrimFloat.sub (bomb_timer b) dt) b.

Definition exploding (b : Bomb) : bool := PrimFloat.leb (bomb_timer b) 0.

(** The states in which an explosion cannot fail. *)
Definition state_wf (s : BombermanGame) : Prop :=
  grid_wf (grid s) ∧ vitals_wf s.

(** What one tick makes of the list of bombs. *)
Definition bombs_after_tick (dt : float) (l : list Bomb) : list Bomb :=
  filter (λ b, exploding b = false) (burn dt <$> l).

(** [n] ticks of the countdown in a row. *)
Fixpoint countdown (n : nat) : M unit :=
  match n with
  | O => ret tt
  | S n' => tick_bombs ;;; countdown n'
  end.

Fixpoint bombs_after_ticks (n : nat) (dt : float) (l : list Bomb) : list Bomb :=
  match n with
  | O => l
  | S n' => bombs_after_ticks n' dt (bombs_after_tick dt l)
  end.


(** The files and the list of [np.save] calls after the tables of [ags],
    numbered from [i], have been saved. *)
Fixpoint saved_files (i : nat) (ags : list QLearningAgent)
    (fs : gmap string NpyFile) : gmap string NpyFile :=
  match ags with
  | [] => fs
  | a :: ags' => saved_files (S i) ags' (<[qtable_filename i := NpyArray (q_table a)]> fs)
  end.

Fixpoint save_log (i : nat) (ags : list QLearningAgent) : list (string * QTable) :=
  match ags with
  | [] => []
  | a :: ags' => (qtable_filename i, q_table a) :: save_log (S i) ags'
  end.

(** The states a game of [n] agents reaches from [setup] by actions of the
    agents and explosions of bombs. *)
Inductive reachable (n : nat) : BombermanGame → Prop :=
| reach_setup (s s' : BombermanGame) :
    num_agents s = n → setup s = Ok (tt, s') → reachable n s'
| reach_action (i : nat) (action r : Z) (s s' : BombermanGame) :
    reachable n s → perform_action i action s = Ok (r, s') → reachable n s'
| reach_explosion (bomb : Bomb) (s s' : BombermanGame) :
    reachable n s → explode_bomb bomb s = Ok (tt, s') → reachable n s'.

(** A generator of the [random] module whose draws put an obstacle on the
    cell (1, 1), the 22nd cell [setup] fills, and leave every other cell
    empty: draw 21 is below 0.2, and draw 22, [kind], decides between
    Destructible (below 0.7) and Indestructible. *)
Definition rng_obstacle (kind : float) : Rng :=
  mkRng (λ n, if (n =? 21)%nat then f_0_1
              else if (n =? 22)%nat then kind else 0.5%float)
        (λ _, 0) 0.

(** The game of one agent after [__init__] and [setup] with that generator. *)
Definition obstacle_start (kind : float) : result BombermanGame :=
  let* g := BombermanGame_init 1 1000 (rng_obstacle kind) (rng_const 0.5 0) ∅ in
  let* r := setup g in
  Ok r.2.

Definition EMPTY_GRID : list (list Cell) := replicate 15 (replicate 20 EMPTY).

(** A game in the middle of an episode: grid [g], agents at [ps] with lives
    [ls] (flagged eliminated when they have none left), bombs [bs], fresh
    zero tables, no file on disk, every draw of both generators 0.5. *)
Definition scenario (g : list (list Cell)) (ps : list (Z * Z)) (bs : list Bomb)
    (ls : list Z) : BombermanGame :=
  mkGame (length ps) g ps bs (replicate (length ps) 0) ls
    ((λ l, bool_decide (l ≤ 0)) <$> ls) 0 1000 0 f_0_5
    ((λ i, QLearningAgent_init (ROWS * COLS) 5 i) <$> seq 0 (length ps))
    (rng_const 0.5 0) (rng_const 0.5 0) ∅ [].

(** An Indestructible cell right of (2, 2) and a Destructible one below. *)
Definition WALLED_GRID : list (list Cell) :=
  grid_set (grid_set EMPTY_GRID (2, 3) INDESTRUCTIBLE) (3, 2) DESTRUCTIBLE.





(** ** Vocabulary of the further properties *)

(** The generator [k] draws later. *)
Definition rng_advance (k : nat) (g : Rng) : Rng :=
  mkRng (draws g) (ints g) (k + cursor g).

(** Lives and flags agree: no agent has less than 0 or more than 3 lives,
    and an agent is flagged exactly when it has none. *)
Definition vitals_consistent (s : BombermanGame) : Prop :=
  ∀ i l dead,
    lives s !! i = Some l → game_over s !! i = Some dead →
    0 ≤ l ≤ 3 ∧ dead = bool_decide (l ≤ 0).

(** A table of [ROWS * COLS] rows of 5 entries, owned by an agent with 5
    actions. *)
Definition table_wf (t : QTable) : Prop :=
  Z.of_nat (length t) = ROWS * COLS ∧ Forall (λ row, length row = 5%nat) t.

Definition agent_wf (a : QLearningAgent) : Prop :=
  action_size a = 5 ∧ table_wf (q_table a).

(** The states of a running game of at most 7 agents: a full grid, every
    list with one entry per agent, agents inside the grid, consistent lives
    and flags, scores at 0, tables of the right shape. *)
Record game_inv (s : BombermanGame) : Prop := mkInv {
  inv_agents_bound : (num_agents s ≤ 7)%nat;
  inv_grid : grid_wf (grid s);
  inv_positions : length (agent_positions s) = num_agents s;
  inv_in_bounds : Forall in_bounds (agent_positions s);
  inv_lives : length (lives s) = num_agents s;
  inv_game_over : length (game_over s) = num_agents s;
  inv_vitals : vitals_consistent s;
  inv_scores : scores s = replicate (num_agents s) 0;
  inv_agents : length (agents s) = num_agents s;
  inv_tables : Forall agent_wf (agents s)
}.

(** What no step of the simulation changes. *)
Definition same_config (s s' : BombermanGame) : Prop :=
  num_agents s' = num_agents s
  ∧ max_episodes s' = max_episodes s
  ∧ update_interval s' = update_interval s
  ∧ time_accumulator s' = time_accumulator s.

(** The calls of [on_update] the window makes, one per frame, each with the
    time elapsed since the previous one. *)
Fixpoint run_frames (frames : list float) : M unit :=
  match frames with
  | [] => ret tt
  | delta_time :: frames' => on_update delta_time ;;; run_frames frames'
  end.

(** The number of cells of a grid that are not Empty. *)
Definition count_obstacles (g : list (list Cell)) : nat :=
  length (filter (λ c, c ≠ EMPTY) (concat g)).

(** The game with another value of [max_episodes], and the outcome of a
    method with that value put in its final state. *)
Definition set_max_episodes (x : Z) (s : BombermanGame) : BombermanGame :=
  mkGame (num_agents s) (grid s) (agent_positions s) (bombs s) (scores s) (lives s)
    (game_over s) (current_episode s) x (time_accumulator s)
    (update_interval s) (agents s) (random_state s) (np_random_state s)
    (files s) (save_calls s).

Definition with_max_episodes {A : Type} (x : Z) (r : result (A * BombermanGame))
  : result (A * BombermanGame) :=
  match r with
  | Ok (a, s') => Ok (a, set_max_episodes x s')
  | Raise e => Raise e
  end.

(** A method that never looks at [max_episodes]. *)
Definition ignores_max_episodes {A : Type} (m : M A) : Prop :=
  ∀ (x : Z) (s : BombermanGame),
    m (set_max_episodes x s) = with_max_episodes x (m s).

(** A grid that has only lost destructible blocks: every cell is as it was,
    or was Destructible and is Empty. *)
Definition erodes (g g' : list (list Cell)) : Prop :=
  ∀ p : Z * Z,
    cell_at g' p = cell_at g p
    ∨ (cell_at g p = Some DESTRUCTIBLE ∧ cell_at g' p = Some EMPTY).

(** The episode counter has not gone back, and while it stands the grid
    only erodes. *)
Definition episode_le (s s' : BombermanGame) : Prop :=
  current_episode s ≤ current_episode s'
  ∧ (current_episode s' = current_episode s → erodes (grid s) (grid s')).

(** * Properties *)

(** ** First checks of the embedding on concrete runs *)

Example update_fixture :
  update (mkAgent 2 2 [[0; 0]; [0; 0]]%float f_0_1 f_0_9 f_0_1 0) 0 1 5 1
  = Ok (mkAgent 2 2 [[0; 0.5]; [0; 0]]%float f_0_1 f_0_9 f_0_1 0).
Proof. reflexivity. Qed.

Example setup_positions_3 :
  positions_of (empty_world 3) = [(1, 1); (1, 4); (1, 7)].
Proof. vm_compute. reflexivity. Qed.

Example filename_1 : qtable_filename 0 = "agent_1_qtable.npy".
Proof. vm_compute. reflexivity. Qed.

(** ** Indexing lemmas *)

Lemma py_norm_in_range (len i : Z) :
  0 ≤ i < len → py_norm len i = Some (Z.to_nat i).
Proof.
  intros Hi. unfold py_norm.
  destruct (Z.ltb_spec i 0); [lia|].
  destruct (Z.leb_spec 0 i); [|lia].
  destruct (Z.ltb_spec i len); [reflexivity|lia].
Qed.

Lemma py_index_in_range {A : Type} (l : list A) (i : Z) (x : A) :
  0 ≤ i → l !! Z.to_nat i = Some x → py_index l i = Ok x.
Proof.
  intros Hi Hl. unfold py_index.
  rewrite py_norm_in_range.
  - by rewrite Hl.
  - apply lookup_lt_Some in Hl. lia.
Qed.

Lemma py_setitem_in_range {A : Type} (l : list A) (i : Z) (x : A) :
  0 ≤ i < Z.of_nat (length l) → py_setitem l i x = Ok (<[Z.to_nat i := x]> l).
Proof. intros Hi. unfold py_setitem. by rewrite py_norm_in_range. Qed.

Lemma list_set_in_range {A : Type} (l : list A) (i : nat) (x y : A) :
  l !! i = Some y → list_set l i x = Ok (<[i := x]> l).
Proof.
  intros Hl. unfold list_set. apply lookup_lt_Some in Hl.
  by rewrite decide_True.
Qed.

Lemma grid_wf_lookup (g : list (list Cell)) (p : Z * Z) :
  grid_wf g → in_bounds p →
  ∃ line cell, g !! Z.to_nat p.1 = Some line
               ∧ Z.of_nat (length line) = COLS
               ∧ line !! Z.to_nat p.2 = Some cell
               ∧ cell_at g p = Some cell.
Proof.
  intros [Hlen Hall] Hp. pose proof Hp as [Hr Hc].
  destruct (lookup_lt_is_Some_2 g (Z.to_nat p.1)) as [line Hline]; [lia|].
  assert (Hcols : Z.of_nat (length line) = COLS).
  { rewrite Forall_lookup in Hall. by eapply Hall. }
  destruct (lookup_lt_is_Some_2 line (Z.to_nat p.2)) as [cell Hcell]; [lia|].
  exists line, cell. repeat split; try done.
  unfold cell_at. rewrite decide_True by done. by rewrite Hline.
Qed.

(** Reading the grid inside its bounds returns the cell and leaves the
    state alone. *)
Lemma grid_at_in_bounds (s : BombermanGame) (r c : Z) :
  grid_wf (grid s) → in_bounds (r, c) →
  ∃ cell, cell_at (grid s) (r, c) = Some cell ∧ grid_at r c s = Ok (cell, s).
Proof.
  intros Hwf Hp.
  destruct (grid_wf_lookup _ _ Hwf Hp) as (line & cell & Hline & _ & Hcell & Hat).
  exists cell. split; [done|].
  destruct Hp as [Hr Hc]. simpl in *.
  unfold grid_at, bind, get, lift.
  rewrite (py_index_in_range _ _ line) by (done || lia). simpl.
  by rewrite (py_index_in_range _ _ cell) by (done || lia).
Qed.

Lemma free_cell_guarded (s : BombermanGame) (r c : Z) :
  grid_wf (grid s) → in_bounds (r, c) →
  free_cell true r c s
  = Ok (bool_decide (cell_at (grid s) (r, c) = Some EMPTY), s).
Proof.
  intros Hwf Hp.
  destruct (grid_at_in_bounds s r c Hwf Hp) as (cell & Hat & Hrun).
  unfold free_cell, bind, ret. rewrite Hrun, Hat.
  do 2 f_equal. apply bool_decide_ext. split; congruence.
Qed.

Lemma move_to_ok (s : BombermanGame) (i : nat) (p q : Z * Z) :
  agent_positions s !! i = Some q →
  move_to i p s = Ok (5, set_agent_positions (<[i := p]> (agent_positions s)) s).
Proof.
  intros Hq. unfold move_to, bind, get, lift, modify, ret.
  by rewrite (list_set_in_range _ _ _ q).
Qed.

Lemma ROWS_eq : ROWS = 15.
Proof. reflexivity. Qed.

Lemma COLS_eq : COLS = 20.
Proof. reflexivity. Qed.

Ltac bounds := unfold in_bounds in *; rewrite ?ROWS_eq, ?COLS_eq in *; simpl in *; lia.

(** ** Movement (lines 105-127) *)

(** What [perform_action] computes for a live agent standing inside the grid
    and a movement action. *)
Lemma perform_action_move_eq (s : BombermanGame) (i : nat) (action : Z) (p : Z * Z) :
  grid_wf (grid s) →
  game_over s !! i = Some false →
  agent_positions s !! i = Some p →
  in_bounds p →
  0 ≤ action ≤ 3 →
  perform_action i action s
  = if bool_decide (in_bounds (destination action p))
       && bool_decide (cell_at (grid s) (destination action p) = Some EMPTY)
    then Ok (5, set_agent_positions
                  (<[i := destination action p]> (agent_positions s)) s)
    else Ok (-1, s).
Proof.
  intros Hwf Hlive Hpos Hp Hact. destruct p as [row col].
  unfold perform_action. unfold bind at 1, get.
  unfold bind at 1, lift, list_get. rewrite Hlive.
  unfold bind at 1. rewrite Hpos. cbn [fst snd].
  assert (Hcases : action = 0 ∨ action = 1 ∨ action = 2 ∨ action = 3) by lia.
  destruct Hcases as [-> | [-> | [-> | ->]]]; unfold destination; cbn [Z.eqb Pos.eqb andb fst snd].
  - (* UP *)
    unfold bind at 1.
    destruct (Z.gtb_spec row 0) as [Hrow | Hrow].
    + rewrite free_cell_guarded by (done || bounds).
      rewrite (bool_decide_eq_true_2 (in_bounds _)) by bounds. cbn [andb].
      case_bool_decide; [by erewrite move_to_ok | reflexivity].
    + rewrite (bool_decide_eq_false_2 (in_bounds _)) by bounds. reflexivity.
  - (* DOWN *)
    unfold bind at 1. cbn [free_cell ret]. unfold bind at 1.
    destruct (Z.ltb_spec row (ROWS - 1)) as [Hrow | Hrow].
    + rewrite free_cell_guarded by (done || bounds).
      rewrite (bool_decide_eq_true_2 (in_bounds _)) by bounds. cbn [andb].
      case_bool_decide; [by erewrite move_to_ok | reflexivity].
    + rewrite (bool_decide_eq_false_2 (in_bounds _)) by bounds. reflexivity.
  - (* LEFT *)
    unfold bind at 1. cbn [free_cell ret]. unfold bind at 1. cbn [free_cell ret].
    unfold bind at 1.
    destruct (Z.gtb_spec col 0) as [Hcol | Hcol].
    + rewrite free_cell_guarded by (done || bounds).
      rewrite (bool_decide_eq_true_2 (in_bounds _)) by bounds. cbn [andb].
      case_bool_decide; [by erewrite move_to_ok | reflexivity].
    + rewrite (bool_decide_eq_false_2 (in_bounds _)) by bounds. reflexivity.
  - (* RIGHT *)
    unfold bind at 1. cbn [free_cell ret]. unfold bind at 1. cbn [free_cell ret].
    unfold bind at 1. cbn [free_cell ret]. unfold bind at 1.
    destruct (Z.ltb_spec col (COLS - 1)) as [Hcol | Hcol].
    + rewrite free_cell_guarded by (done || bounds).
      rewrite (bool_decide_eq_true_2 (in_bounds _)) by bounds. cbn [andb].
      case_bool_decide; [by erewrite move_to_ok | reflexivity].
    + rewrite (bool_decide_eq_false_2 (in_bounds _)) by bounds. reflexivity.
Qed.

(** The movement rule for an agent inside the grid.  For a live agent
    standing inside the grid and a movement action
    (0 = Up, 1 = Down, 2 = Left, 3 = Right): when the destination cell is
    inside the grid and Empty, [perform_action] returns 5 and the only change
    of the state is that the agent's position becomes the destination; when
    the destination is outside the grid, Destructible or Indestructible, it
    returns -1 and the state, the position included, is unchanged. *)
Theorem perform_action_move (s : BombermanGame) (i : nat) (action : Z) (p : Z * Z) :
  grid_wf (grid s) →
  game_over s !! i = Some false →
  agent_positions s !! i = Some p →
  in_bounds p →
  0 ≤ action ≤ 3 →
  (in_bounds (destination action p)
   ∧ cell_at (grid s) (destination action p) = Some EMPTY →
   perform_action i action s
   = Ok (5, set_agent_positions
              (<[i := destination action p]> (agent_positions s)) s)
   ∧ <[i := destination action p]> (agent_positions s) !! i
     = Some (destination action p))
  ∧ (¬ in_bounds (destination action p)
     ∨ cell_at (grid s) (destination action p) = Some DESTRUCTIBLE
     ∨ cell_at (grid s) (destination action p) = Some INDESTRUCTIBLE →
     perform_action i action s = Ok (-1, s)).
Proof.
  intros Hwf Hlive Hpos Hp Hact.
  rewrite (perform_action_move_eq s i action p) by done.
  split.
  - intros [Hd Hcell].
    rewrite !bool_decide_eq_true_2 by done. split; [done|].
    apply list_lookup_insert_eq. by eapply lookup_lt_Some.
  - intros [Hd | [Hcell | Hcell]].
    + by rewrite (bool_decide_eq_false_2 (in_bounds _)).
    + rewrite (bool_decide_eq_false_2 (cell_at _ _ = _)) by congruence.
      by rewrite andb_false_r.
    + rewrite (bool_decide_eq_false_2 (cell_at _ _ = _)) by congruence.
      by rewrite andb_false_r.
Qed.

(** ** Acting while eliminated (lines 107-108) *)

(** C9. For an agent whose [game_over] flag is set, [perform_action] returns
    -100 for every action and returns the state it was given: positions,
    grid, bombs, lives and flags are all unchanged. *)
Theorem perform_action_eliminated (s : BombermanGame) (i : nat) (action : Z) :
  game_over s !! i = Some true →
  perform_action i action s = Ok (-100, s).
Proof.
  intros Hdead. unfold perform_action, bind, get, lift, list_get.
  by rewrite Hdead.
Qed.

(** ** Placing a bomb (lines 124-126) *)

Lemma perform_action_place_bomb (s : BombermanGame) (i : nat) (p : Z * Z) :
  game_over s !! i = Some false →
  agent_positions s !! i = Some p →
  perform_action i 4 s
  = Ok (0, set_bombs (bombs s ++ [mkBomb p.1 p.2 3 i]) s).
Proof.
  intros Hlive Hpos. unfold perform_action, bind, get, lift, list_get.
  by rewrite Hlive, Hpos.
Qed.

(** ** The order of binary64 values

    [np.max] is modelled by comparisons; these lemmas show that, on a row
    without NaN, what it returns is an entry of the row that no entry
    exceeds.  They go through the specification of the primitive floats. *)

Ltac sf_cases :=
  repeat match goal with
  | |- context [Z.compare ?a ?b] => destruct (Z.compare_spec a b)
  | H : context [Z.compare ?a ?b] |- _ => destruct (Z.compare_spec a b)
  | |- context [PosDef.Pos.compare_cont Eq ?a ?b] =>
      change (PosDef.Pos.compare_cont Eq a b) with (Pos.compare a b);
      destruct (Pos.compare_spec a b)
  | H : context [PosDef.Pos.compare_cont Eq ?a ?b] |- _ =>
      change (PosDef.Pos.compare_cont Eq a b) with (Pos.compare a b) in H;
      destruct (Pos.compare_spec a b)
  end; cbn in *; try done; try lia.

Lemma SFleb_ltb_trans (a b c : spec_float) :
  SFleb a b = true → SFltb b c = true → SFleb a c = true.
Proof.
  unfold SFleb, SFltb.
  destruct a as [sa | sa | | sa ma ea], b as [sb | sb | | sb mb eb],
           c as [sc | sc | | sc mc ec]; cbn [SFcompare]; try done;
    repeat match goal with s : bool |- _ => destruct s end; try done; sf_cases.
Qed.

Lemma SFleb_refl (a : spec_float) : a ≠ S754_nan → SFleb a a = true.
Proof.
  unfold SFleb. destruct a as [sa | sa | | sa ma ea]; cbn [SFcompare]; try done;
    repeat match goal with s : bool |- _ => destruct s end; try done; sf_cases.
Qed.

Lemma SFleb_total (a b : spec_float) :
  a ≠ S754_nan → b ≠ S754_nan → SFltb a b = false → SFleb b a = true.
Proof.
  unfold SFleb, SFltb.
  destruct a as [sa | sa | | sa ma ea], b as [sb | sb | | sb mb eb];
    cbn [SFcompare]; try done;
    repeat match goal with s : bool |- _ => destruct s end; try done; sf_cases.
Qed.

Lemma not_nan_Prim2SF (x : float) :
  PrimFloat.is_nan x = false → Prim2SF x ≠ S754_nan.
Proof.
  unfold PrimFloat.is_nan. rewrite FloatAxioms.eqb_spec. intros H Hnan.
  rewrite Hnan in H. discriminate.
Qed.

Lemma float_leb_refl (x : float) :
  PrimFloat.is_nan x = false → PrimFloat.leb x x = true.
Proof.
  intros H. rewrite FloatAxioms.leb_spec. by apply SFleb_refl, not_nan_Prim2SF.
Qed.

Lemma float_leb_ltb_trans (x y z : float) :
  PrimFloat.leb x y = true → PrimFloat.ltb y z = true → PrimFloat.leb x z = true.
Proof.
  rewrite !FloatAxioms.leb_spec, FloatAxioms.ltb_spec. apply SFleb_ltb_trans.
Qed.

Lemma float_leb_total (x y : float) :
  PrimFloat.is_nan x = false → PrimFloat.is_nan y = false →
  PrimFloat.ltb x y = false → PrimFloat.leb y x = true.
Proof.
  intros Hx Hy. rewrite FloatAxioms.leb_spec, FloatAxioms.ltb_spec.
  apply SFleb_total; by apply not_nan_Prim2SF.
Qed.

Lemma fold_np_maximum (xs : list float) :
  ∀ acc seen,
    PrimFloat.is_nan acc = false →
    Forall (λ x, PrimFloat.is_nan x = false) xs →
    acc ∈ seen →
    Forall (λ x, PrimFloat.leb x acc = true) seen →
    fold_left np_maximum xs acc ∈ seen ++ xs
    ∧ Forall (λ x, PrimFloat.leb x (fold_left np_maximum xs acc) = true)
        (seen ++ xs).
Proof.
  induction xs as [|b xs IH]; intros acc seen Hacc Hxs Hin Hle.
  - rewrite app_nil_r. done.
  - apply Forall_cons in Hxs as [Hb Hxs]. cbn [fold_left].
    replace (seen ++ b :: xs) with ((seen ++ [b]) ++ xs)
      by (by rewrite <- app_assoc).
    unfold np_maximum at 2 4. rewrite Hacc, Hb.
    destruct (PrimFloat.ltb acc b) eqn:Hlt.
    + apply IH; try done.
      * apply elem_of_app. right. by apply list_elem_of_singleton.
      * apply Forall_app. split.
        -- eapply Forall_impl; [exact Hle|]. intros x Hx.
           by apply (float_leb_ltb_trans x acc b).
        -- apply Forall_singleton. by apply float_leb_refl.
    + apply IH; try done.
      * apply elem_of_app. by left.
      * apply Forall_app. split; [done|].
        apply Forall_singleton. by apply float_leb_total.
Qed.

(** On a row without NaN, [np.max] returns an entry of the row, and every
    entry is less than or equal to it. *)
Lemma np_max_spec (row : list float) (m : float) :
  Forall (λ x, PrimFloat.is_nan x = false) row →
  np_max row = Ok m →
  m ∈ row ∧ Forall (λ x, PrimFloat.leb x m = true) row.
Proof.
  destruct row as [|x xs]; [done|]. intros Hrow [= <-].
  apply Forall_cons in Hrow as [Hx Hxs].
  apply (fold_np_maximum xs x [x]); try done.
  - by apply list_elem_of_singleton.
  - apply Forall_singleton. by apply float_leb_refl.
Qed.

(** ** The Q-learning update (lines 35-40) *)

(** C2. When [state], [action] and [next_state] index the table and the
    reward is an integer with a finite nearest double [r] (as -100, -1, 0
    and 5 are), [update] succeeds; the entry [Q[state, action]] becomes
    [Q[s,a] + α · (r + γ · max Q[s',·] − Q[s,a])], where the maximum [m] is
    [np.max] of the row of [next_state] in the table before the update (on a
    row without NaN: an entry of that row that no entry exceeds); every
    other entry of the table and every other attribute of the agent is
    unchanged.  With α = 0.1, γ = 0.9, Q[s,a] = 0, r = 5 and a maximum of 0
    the new entry is 0.5. *)
Theorem update_bellman (a : QLearningAgent) (state action reward next_state : Z)
    (row next_row : list float) (q m : float) :
  0 ≤ state → 0 ≤ action → 0 ≤ next_state →
  q_table a !! Z.to_nat state = Some row →
  row !! Z.to_nat action = Some q →
  q_table a !! Z.to_nat next_state = Some next_row →
  np_max next_row = Ok m →
  PrimFloat.is_infinity (float_of_Z reward) = false →
  ∃ a',
    update a state action reward next_state = Ok a'
    ∧ q_entry (q_table a') (Z.to_nat state) (Z.to_nat action)
      = Some (bellman_spec (alpha a) (gamma a) q (float_of_Z reward) m)
    ∧ (∀ i j, (i, j) ≠ (Z.to_nat state, Z.to_nat action) →
              q_entry (q_table a') i j = q_entry (q_table a) i j)
    ∧ a' = set_q_table (q_table a') a
    ∧ (Forall (λ x, PrimFloat.is_nan x = false) next_row →
       m ∈ next_row ∧ Forall (λ x, PrimFloat.leb x m = true) next_row)
    ∧ (alpha a = f_0_1 → gamma a = f_0_9 → q = 0%float → reward = 5 →
       m = 0%float →
       q_entry (q_table a') (Z.to_nat state) (Z.to_nat action) = Some 0.5%float).
Proof.
  intros Hs Ha Hn Hrow Hq Hnext Hmax Hfinite.
  pose proof (lookup_lt_Some _ _ _ Hrow) as Hlen.
  pose proof (lookup_lt_Some _ _ _ Hq) as Hlenrow.
  eexists. split.
  { unfold update.
    rewrite (py_index_in_range _ _ next_row) by done. cbn [bindR].
    rewrite Hmax. cbn [bindR].
    rewrite (py_index_in_range _ _ row) by done. cbn [bindR].
    rewrite (py_index_in_range _ _ q) by done. cbn [bindR].
    unfold float_of_int. rewrite Hfinite. cbn [bindR].
    rewrite py_setitem_in_range by lia. cbn [bindR].
    rewrite py_setitem_in_range by lia. cbn [bindR]. reflexivity. }
  cbn [q_table set_q_table].
  assert (Hnew :
    q_entry (<[Z.to_nat state := <[Z.to_nat action :=
        bellman_spec (alpha a) (gamma a) q (float_of_Z reward) m]> row]> (q_table a))
      (Z.to_nat state) (Z.to_nat action)
    = Some (bellman_spec (alpha a) (gamma a) q (float_of_Z reward) m)).
  { unfold q_entry. rewrite list_lookup_insert_eq by done.
    by rewrite list_lookup_insert_eq. }
  split; [exact Hnew|]. split; [|split; [|split]].
  - intros i j Hij. unfold q_entry.
    destruct (decide (i = Z.to_nat state)) as [-> | Hi].
    + rewrite list_lookup_insert_eq by done. rewrite Hrow.
      rewrite list_lookup_insert_ne; [done | congruence].
    + by rewrite list_lookup_insert_ne.
  - reflexivity.
  - intros Hnan. by apply np_max_spec.
  - intros Hα Hγ Hq0 Hr Hm. etrans; [exact Hnew|].
    rewrite Hα, Hγ, Hq0, Hr, Hm. reflexivity.
Qed.

(** The conversion of the reward rounds to the nearest double, at any size;
    a reward without a finite nearest double makes [update] raise once the
    entry has been read. *)
Example float_of_Z_rewards :
  float_of_Z 5 = 5%float ∧ float_of_Z 0 = 0%float
  ∧ float_of_Z (-1) = (-1)%float ∧ float_of_Z (-100) = (-100)%float
  ∧ float_of_Z (2 ^ 63) = 0x1p63%float
  ∧ float_of_Z (2 ^ 53 + 1) = 0x1p53%float
  ∧ float_of_Z (2 ^ 1024) = infinity.
Proof. repeat split. Qed.

Lemma update_reward_overflow (a : QLearningAgent)
    (state action reward next_state : Z) (row next_row : list float) (q m : float) :
  0 ≤ state → 0 ≤ action → 0 ≤ next_state →
  q_table a !! Z.to_nat state = Some row →
  row !! Z.to_nat action = Some q →
  q_table a !! Z.to_nat next_state = Some next_row →
  np_max next_row = Ok m →
  PrimFloat.is_infinity (float_of_Z reward) = true →
  update a state action reward next_state = Raise OverflowError.
Proof.
  intros Hs Ha Hn Hrow Hq Hnext Hmax Hinf. unfold update.
  rewrite (py_index_in_range _ _ next_row) by done. cbn [bindR].
  rewrite Hmax. cbn [bindR].
  rewrite (py_index_in_range _ _ row) by done. cbn [bindR].
  rewrite (py_index_in_range _ _ q) by done. cbn [bindR].
  unfold float_of_int. by rewrite Hinf.
Qed.

(** ** Explosions: the blast (lines 129-143) *)

Lemma set_grid_same (s : BombermanGame) : set_grid (grid s) s = s.
Proof. by destruct s. Qed.

Lemma grid_wf_grid_set (g : list (list Cell)) (p : Z * Z) (v : Cell) :
  grid_wf g → grid_wf (grid_set g p v).
Proof.
  intros [Hlen Hall]. unfold grid_set.
  destruct (g !! Z.to_nat p.1) as [line|] eqn:Hline; [|done].
  split.
  - by rewrite length_insert.
  - apply Forall_insert; [done|]. rewrite length_insert.
    rewrite Forall_lookup in Hall. by eapply Hall.
Qed.

Lemma grid_wf_destroy_all (ps : list (Z * Z)) (g : list (list Cell)) :
  grid_wf g → grid_wf (destroy_all ps g).
Proof.
  revert g. induction ps as [|p ps IH]; intros g Hwf; [done|].
  apply IH. by apply grid_wf_grid_set.
Qed.

Lemma cell_at_grid_set (g : list (list Cell)) (p q : Z * Z) (v : Cell) :
  grid_wf g → in_bounds p →
  cell_at (grid_set g p v) q = if decide (q = p) then Some v else cell_at g q.
Proof.
  intros Hwf Hp.
  destruct (grid_wf_lookup g p Hwf Hp) as (line & cell & Hline & Hcols & Hcell & _).
  unfold grid_set. rewrite Hline. unfold cell_at.
  destruct (decide (q = p)) as [-> | Hne].
  - rewrite decide_True by done.
    rewrite list_lookup_insert_eq by (by eapply lookup_lt_Some).
    rewrite list_lookup_insert_eq by (by eapply lookup_lt_Some). done.
  - destruct (decide (in_bounds q)) as [Hq|]; [|done].
    destruct (decide (Z.to_nat q.1 = Z.to_nat p.1)) as [Heq | Hrow].
    + rewrite Heq, list_lookup_insert_eq by (by eapply lookup_lt_Some).
      rewrite Hline. apply list_lookup_insert_ne.
      intros Hcol. apply Hne. destruct p, q, Hp, Hq. simpl in *.
      f_equal; lia.
    + by rewrite list_lookup_insert_ne.
Qed.

Lemma cell_at_destroy_all (ps : list (Z * Z)) (g : list (list Cell)) (q : Z * Z) :
  grid_wf g → Forall in_bounds ps →
  cell_at (destroy_all ps g) q
  = if decide (q ∈ ps) then Some EMPTY else cell_at g q.
Proof.
  revert g. induction ps as [|p ps IH]; intros g Hwf Hps.
  - by rewrite decide_False by apply not_elem_of_nil.
  - apply Forall_cons in Hps as [Hp Hps]. cbn [destroy_all foldl].
    change (foldl _ ?g0 ps) with (destroy_all ps g0).
    rewrite IH by (done || by apply grid_wf_grid_set).
    rewrite cell_at_grid_set by done.
    destruct (decide (q ∈ ps)) as [Hin | Hnin].
    + rewrite decide_True by (apply elem_of_cons; auto). done.
    + destruct (decide (q = p)) as [-> | Hne].
      * by rewrite decide_True by (apply elem_of_cons; auto).
      * rewrite decide_False; [done|]. by intros [? | ?]%elem_of_cons.
Qed.

Lemma grid_put_in_bounds (s : BombermanGame) (r c : Z) (v : Cell) :
  grid_wf (grid s) → in_bounds (r, c) →
  grid_put r c v s = Ok (tt, set_grid (grid_set (grid s) (r, c) v) s).
Proof.
  intros Hwf Hp.
  destruct (grid_wf_lookup _ _ Hwf Hp) as (line & cell & Hline & Hcols & Hcell & _).
  destruct Hp as [Hr Hc]. simpl in *.
  unfold grid_put, bind, get, lift, modify.
  rewrite (py_index_in_range _ _ line) by (done || lia). cbn [bindR].
  rewrite py_setitem_in_range by lia. cbn [bindR].
  rewrite py_setitem_in_range by (apply lookup_lt_Some in Hline; lia).
  unfold grid_set. simpl. by rewrite Hline.
Qed.

Lemma walk_spec_in_bounds (g : list (list Cell)) (cells : list (Z * Z)) :
  Forall in_bounds (walk_spec g cells).1 ∧ Forall in_bounds (walk_spec g cells).2.
Proof.
  induction cells as [|p rest [IH1 IH2]]; cbn [walk_spec]; [by split|].
  destruct (cell_at g p) as [[]|] eqn:Hcell; cbn [fst snd]; try done.
  - split; [|done]. apply Forall_cons. split; [|done].
    unfold cell_at in Hcell. by destruct (decide (in_bounds p)).
  - assert (in_bounds p).
    { unfold cell_at in Hcell. by destruct (decide (in_bounds p)). }
    split; by apply Forall_singleton.
Qed.

(** The inner loop of the program computes the walk of the specification. *)
Lemma scan_direction_walk (row col dr dc : Z) (ds : list Z)
    (acc : list (Z * Z)) (s : BombermanGame) :
  grid_wf (grid s) →
  scan_direction row col dr dc ds acc s
  = Ok (acc ++ (walk_spec (grid s) (ray row col (dr, dc) ds)).1,
        set_grid (destroy_all (walk_spec (grid s) (ray row col (dr, dc) ds)).2
                    (grid s)) s).
Proof.
  intros Hwf. revert acc.
  induction ds as [|i ds IH]; intros acc.
  - cbn. by rewrite app_nil_r, set_grid_same.
  - cbn [scan_direction ray fmap list_fmap walk_spec fst snd].
    change (cell_ahead row col (dr, dc) i) with (row + dr * i, col + dc * i).
    change (cell_ahead row col (dr, dc) <$> ds) with (ray row col (dr, dc) ds).
    set (r := row + dr * i). set (c := col + dc * i).
    destruct ((0 <=? r) && (r <? ROWS) && (0 <=? c) && (c <? COLS)) eqn:Hb.
    + assert (Hp : in_bounds (r, c)).
      { unfold in_bounds. cbn [fst snd].
        repeat (apply andb_prop in Hb as [Hb ?]). lia. }
      destruct (grid_at_in_bounds s r c Hwf Hp) as (cell & Hat & Hrun).
      unfold bind at 1. rewrite Hrun, Hat.
      destruct cell; cbn [bool_decide decide_rel Cell_eq_dec fst snd].
      * rewrite !bool_decide_eq_false_2 by done.
        rewrite IH. by rewrite <- app_assoc.
      * rewrite (bool_decide_eq_false_2 (_ = INDESTRUCTIBLE)) by done.
        rewrite (bool_decide_eq_true_2 (_ = DESTRUCTIBLE)) by done.
        unfold bind. by rewrite grid_put_in_bounds.
      * rewrite (bool_decide_eq_true_2 (_ = INDESTRUCTIBLE)) by done.
        cbn. by rewrite app_nil_r, set_grid_same.
    + assert (Hout : cell_at (grid s) (r, c) = None).
      { unfold cell_at. rewrite decide_False; [done|].
        unfold in_bounds. cbn [fst snd]. intros [? ?].
        apply not_true_iff_false in Hb. apply Hb.
        repeat (apply andb_true_intro; split); lia. }
      rewrite Hout. apply IH.
Qed.

Lemma scan_directions_blast (row col : Z) (dirs : list (Z * Z))
    (acc : list (Z * Z)) (s : BombermanGame) :
  grid_wf (grid s) →
  scan_directions row col dirs acc s
  = Ok ((blast_spec (grid s) row col dirs acc).1,
        set_grid (blast_spec (grid s) row col dirs acc).2 s).
Proof.
  revert acc s. induction dirs as [|[dr dc] dirs IH]; intros acc s Hwf.
  - cbn. by rewrite set_grid_same.
  - cbn [scan_directions blast_spec fst snd]. unfold bind.
    rewrite scan_direction_walk by done.
    rewrite IH by (by apply grid_wf_destroy_all).
    by destruct s.
Qed.

Lemma walk_spec_subset (g : list (list Cell)) (cells : list (Z * Z)) (p : Z * Z) :
  p ∈ (walk_spec g cells).1 ∨ p ∈ (walk_spec g cells).2 → p ∈ cells.
Proof.
  induction cells as [|q rest IH]; cbn [walk_spec].
  - intros [H | H]; inversion H.
  - rewrite elem_of_cons.
    destruct (cell_at g q) as [[]|]; cbn [fst snd].
    + rewrite elem_of_cons. intros [[-> | H] | H]; auto.
    + rewrite list_elem_of_singleton. intros [-> | ->]; auto.
    + intros [H | H]; inversion H.
    + auto.
Qed.

Lemma walk_spec_ext (g g' : list (list Cell)) (cells : list (Z * Z)) :
  (∀ p, p ∈ cells → cell_at g' p = cell_at g p) →
  walk_spec g' cells = walk_spec g cells.
Proof.
  induction cells as [|q rest IH]; intros Hagree; [done|].
  cbn [walk_spec]. rewrite Hagree by (apply elem_of_cons; auto).
  rewrite IH; [done|]. intros p Hp. apply Hagree, elem_of_cons. auto.
Qed.

(** Two of the four directions never reach the same cell, and none reaches
    the bomb's own cell. *)
Lemma ray_inj (row col : Z) (d d' : Z * Z) (p : Z * Z) :
  d ∈ DIRECTIONS → d' ∈ DIRECTIONS →
  p ∈ ray row col d [1; 2] → p ∈ ray row col d' [1; 2] → d = d'.
Proof.
  unfold DIRECTIONS, ray, cell_ahead. cbn [fmap list_fmap].
  rewrite !elem_of_cons, !elem_of_nil.
  intros Hd Hd' Hp Hp'.
  destruct Hd as [-> | [-> | [-> | [-> | []]]]];
    destruct Hd' as [-> | [-> | [-> | [-> | []]]]]; try reflexivity;
    cbn [fst snd] in *;
    destruct Hp as [-> | [-> | []]];
    destruct Hp' as [Hp' | [Hp' | []]]; injection Hp'; intros; lia.
Qed.

Lemma ray_not_center (row col : Z) (d : Z * Z) :
  d ∈ DIRECTIONS → (row, col) ∉ ray row col d [1; 2].
Proof.
  unfold DIRECTIONS, ray, cell_ahead. cbn [fmap list_fmap].
  rewrite !elem_of_cons, !elem_of_nil.
  intros Hd Hp.
  destruct Hd as [-> | [-> | [-> | [-> | []]]]]; cbn [fst snd] in *;
    destruct Hp as [Hp | [Hp | []]]; injection Hp; intros; lia.
Qed.

(** The walks do not disturb one another: each can be taken on the grid
    the explosion started from. *)
Lemma blast_spec_walks (g : list (list Cell)) (row col : Z)
    (dirs : list (Z * Z)) (acc : list (Z * Z)) :
  grid_wf g → NoDup dirs → dirs ⊆ DIRECTIONS →
  blast_spec g row col dirs acc
  = (acc ++ concat (fst <$> walks g row col dirs),
     destroy_all (concat (snd <$> walks g row col dirs)) g).
Proof.
  revert g acc. induction dirs as [|d dirs IH]; intros g acc Hwf Hnd Hsub.
  - cbn. by rewrite app_nil_r.
  - apply NoDup_cons in Hnd as [Hd Hnd].
    assert (Hdin : d ∈ DIRECTIONS) by (apply Hsub, elem_of_cons; auto).
    assert (Hsub' : dirs ⊆ DIRECTIONS).
    { intros x Hx. apply Hsub, elem_of_cons. auto. }
    cbn [blast_spec].
    rewrite IH by (done || by apply grid_wf_destroy_all).
    assert (Hsame : walks (destroy_all (walk_spec g (ray row col d [1; 2])).2 g)
                      row col dirs = walks g row col dirs).
    { unfold walks. apply list_fmap_ext. intros k d' Hd'.
      apply list_elem_of_lookup_2 in Hd'.
      apply walk_spec_ext. intros p Hp.
      rewrite cell_at_destroy_all by (done || apply walk_spec_in_bounds).
      rewrite decide_False; [done|]. intros Hin.
      assert (d = d'); [|by subst].
      eapply (ray_inj row col d d' p); [done | by apply Hsub' | | done].
      apply (walk_spec_subset g). by right. }
    rewrite Hsame. cbn [walks fmap list_fmap concat fst snd].
    f_equal.
    + by rewrite <- app_assoc.
    + unfold destroy_all. by rewrite foldl_app.
Qed.

Lemma elem_of_concat {A : Type} (x : A) (ls : list (list A)) :
  x ∈ concat ls ↔ ∃ l, x ∈ l ∧ l ∈ ls.
Proof.
  induction ls as [|l ls IH]; cbn [concat].
  - split; [intros H; inversion H | intros (l & _ & H); inversion H].
  - rewrite elem_of_app, IH. split.
    + intros [H | (l' & H1 & H2)].
      * exists l. split; [done | apply elem_of_cons; auto].
      * exists l'. split; [done | apply elem_of_cons; auto].
    + intros (l' & H1 & H2). apply elem_of_cons in H2 as [-> | H2]; eauto.
Qed.

(** On the ray of a direction, only the walk of that direction decides what
    is affected and what is destroyed. *)
Lemma walks_on_ray (g : list (list Cell)) (row col : Z) (d p : Z * Z) :
  d ∈ DIRECTIONS → p ∈ ray row col d [1; 2] →
  (p ∈ (row, col) :: concat (fst <$> walks g row col DIRECTIONS)
   ↔ p ∈ (walk_spec g (ray row col d [1; 2])).1)
  ∧ (p ∈ concat (snd <$> walks g row col DIRECTIONS)
     ↔ p ∈ (walk_spec g (ray row col d [1; 2])).2).
Proof.
  intros Hd Hp.
  assert (Hother : ∀ d', d' ∈ DIRECTIONS →
            p ∈ (walk_spec g (ray row col d' [1; 2])).1
            ∨ p ∈ (walk_spec g (ray row col d' [1; 2])).2 → d' = d).
  { intros d' Hd' Hin. apply walk_spec_subset in Hin.
    by apply (ray_inj row col d' d p). }
  split.
  - rewrite elem_of_cons, elem_of_concat. split.
    + intros [-> | (l & Hl & Hin)]; [by apply ray_not_center in Hp|].
      unfold walks in Hin. rewrite <- list_fmap_compose in Hin.
      apply list_elem_of_fmap in Hin as (d' & -> & Hd'). cbn in Hl.
      by rewrite <- (Hother d') by auto.
    + intros Hin. right. eexists. split; [exact Hin|].
      unfold walks. rewrite <- list_fmap_compose.
      apply list_elem_of_fmap. by exists d.
  - rewrite elem_of_concat. split.
    + intros (l & Hl & Hin).
      unfold walks in Hin. rewrite <- list_fmap_compose in Hin.
      apply list_elem_of_fmap in Hin as (d' & -> & Hd'). cbn in Hl.
      by rewrite <- (Hother d') by auto.
    + intros Hin. eexists. split; [exact Hin|].
      unfold walks. rewrite <- list_fmap_compose.
      apply list_elem_of_fmap. by exists d.
Qed.

Lemma DIRECTIONS_NoDup : NoDup DIRECTIONS.
Proof. compute_done. Qed.

(** The first loop of [explode_bomb], in closed form. *)
Lemma blast_eq (s : BombermanGame) (bomb : Bomb) :
  grid_wf (grid s) →
  blast bomb s
  = Ok ((bomb_row bomb, bomb_col bomb)
          :: concat (fst <$> walks (grid s) (bomb_row bomb) (bomb_col bomb) DIRECTIONS),
        set_grid
          (destroy_all
             (concat (snd <$> walks (grid s) (bomb_row bomb) (bomb_col bomb) DIRECTIONS))
             (grid s)) s).
Proof.
  intros Hwf. unfold blast.
  rewrite scan_directions_blast by done.
  by rewrite blast_spec_walks by (done || apply DIRECTIONS_NoDup).
Qed.

Lemma walk_spec_destroyed (g : list (list Cell)) (cells : list (Z * Z)) (p : Z * Z) :
  p ∈ (walk_spec g cells).2 →
  cell_at g p = Some DESTRUCTIBLE ∧ p ∈ (walk_spec g cells).1.
Proof.
  induction cells as [|q rest IH]; cbn [walk_spec].
  - intros H. inversion H.
  - destruct (cell_at g q) as [[]|] eqn:Hq; cbn [fst snd].
    + intros H. destruct (IH H). split; [done | apply elem_of_cons; auto].
    + intros H. apply list_elem_of_singleton in H as ->.
      split; [done | apply elem_of_cons; auto].
    + intros H. inversion H.
    + done.
Qed.

Lemma walks_in_bounds (g : list (list Cell)) (row col : Z) (dirs : list (Z * Z)) :
  Forall in_bounds (concat (fst <$> walks g row col dirs))
  ∧ Forall in_bounds (concat (snd <$> walks g row col dirs)).
Proof.
  induction dirs as [|d dirs [IH1 IH2]]; [by split|].
  cbn [walks fmap list_fmap concat].
  split; apply Forall_app; (split; [apply walk_spec_in_bounds | done]).
Qed.

(** C3. In an explosion on a well-formed grid the first loop of
    [explode_bomb] succeeds and only changes the grid.  The affected
    positions contain the bomb's own cell; every other affected position is
    a cell of the grid at distance 1 or 2 from the bomb along one of the four
    axis directions; a cell of the grid changes only from Destructible to
    Empty, and only if it is affected.  In each direction, with [c1] and [c2]
    the cells at distance 1 and 2: if [c1] is Indestructible, neither [c1]
    nor [c2] is affected; if [c1] is Destructible, [c1] is affected and
    becomes Empty and [c2] is not affected; if [c1] is Empty, [c1] is
    affected and [c2] is not affected when Indestructible, affected and
    turned Empty when Destructible, affected when Empty. *)
Theorem explosion_blast (s : BombermanGame) (bomb : Bomb) :
  grid_wf (grid s) →
  ∃ affected g',
    blast bomb s = Ok (affected, set_grid g' s)
    ∧ explode_bomb bomb s
      = damage_agents affected 0 (agent_positions s) (set_grid g' s)
    ∧ grid_wf g'
    ∧ (bomb_row bomb, bomb_col bomb) ∈ affected
    ∧ (∀ p, p ∈ affected →
            p = (bomb_row bomb, bomb_col bomb)
            ∨ (in_bounds p
               ∧ ∃ d, d ∈ DIRECTIONS
                      ∧ p ∈ ray (bomb_row bomb) (bomb_col bomb) d [1; 2]))
    ∧ (∀ p, cell_at g' p = cell_at (grid s) p
            ∨ (cell_at (grid s) p = Some DESTRUCTIBLE
               ∧ cell_at g' p = Some EMPTY ∧ p ∈ affected))
    ∧ (∀ d, d ∈ DIRECTIONS →
         let c1 := cell_ahead (bomb_row bomb) (bomb_col bomb) d 1 in
         let c2 := cell_ahead (bomb_row bomb) (bomb_col bomb) d 2 in
         (cell_at (grid s) c1 = Some INDESTRUCTIBLE →
          (c1 ∉ affected) ∧ (c2 ∉ affected))
         ∧ (cell_at (grid s) c1 = Some DESTRUCTIBLE →
            c1 ∈ affected ∧ cell_at g' c1 = Some EMPTY ∧ (c2 ∉ affected))
         ∧ (cell_at (grid s) c1 = Some EMPTY →
            c1 ∈ affected
            ∧ (cell_at (grid s) c2 = Some INDESTRUCTIBLE → c2 ∉ affected)
            ∧ (cell_at (grid s) c2 = Some DESTRUCTIBLE →
               c2 ∈ affected ∧ cell_at g' c2 = Some EMPTY)
            ∧ (cell_at (grid s) c2 = Some EMPTY → c2 ∈ affected))).
Proof.
  intros Hwf.
  destruct bomb as [row col fuse who]. cbn [bomb_row bomb_col].
  pose proof (walks_in_bounds (grid s) row col DIRECTIONS) as [Hin1 Hin2].
  eexists _, _. split; [by apply blast_eq|]. cbn [bomb_row bomb_col].
  split; [|split; [|split; [|split; [|split]]]].
  - unfold explode_bomb, bind. by rewrite blast_eq.
  - by apply grid_wf_destroy_all.
  - apply elem_of_cons. by left.
  - intros p Hp. apply elem_of_cons in Hp as [-> | Hp]; [by left | right].
    split; [by eapply Forall_forall in Hin1|].
    apply elem_of_concat in Hp as (l & Hl & Hp).
    unfold walks in Hp. rewrite <- list_fmap_compose in Hp.
    apply list_elem_of_fmap in Hp as (d & -> & Hd).
    exists d. split; [done|]. apply (walk_spec_subset (grid s)). by left.
  - intros p. rewrite cell_at_destroy_all by done.
    destruct (decide (p ∈ _)) as [Hp | Hp]; [right | by left].
    pose proof Hp as Hp'.
    apply elem_of_concat in Hp as (l & Hl & Hp).
    unfold walks in Hp. rewrite <- list_fmap_compose in Hp.
    apply list_elem_of_fmap in Hp as (d & -> & Hd).
    unfold compose in Hl. apply walk_spec_destroyed in Hl as [Hcell Hl].
    split; [done|]. split; [done|].
    apply elem_of_cons. right. apply elem_of_concat.
    eexists. split; [exact Hl|].
    unfold walks. rewrite <- list_fmap_compose.
    apply list_elem_of_fmap. by exists d.
  - intros d Hd.
    set (c1 := cell_ahead row col d 1). set (c2 := cell_ahead row col d 2).
    assert (Hc1 : c1 ∈ ray row col d [1; 2]) by (apply elem_of_cons; by left).
    assert (Hc2 : c2 ∈ ray row col d [1; 2]).
    { apply elem_of_cons. right. apply elem_of_cons. by left. }
    assert (Hne : c1 ≠ c2).
    { subst c1 c2. unfold cell_ahead. revert Hd. unfold DIRECTIONS.
      rewrite !elem_of_cons, elem_of_nil.
      intros [-> | [-> | [-> | [-> | []]]]] Heq; cbn [fst snd] in Heq;
        injection Heq; intros; lia. }
    destruct (walks_on_ray (grid s) row col d c1 Hd Hc1) as [Ha1 Hd1].
    destruct (walks_on_ray (grid s) row col d c2 Hd Hc2) as [Ha2 Hd2].
    rewrite !cell_at_destroy_all by done.
    rewrite Ha1, Ha2.
    rewrite (decide_ext _ _ _ _ Hd1), (decide_ext _ _ _ _ Hd2).
    change (ray row col d [1; 2]) with [c1; c2].
    cbn [walk_spec]. clear Ha1 Ha2 Hd1 Hd2.
    split; [|split].
    + intros ->. cbn [fst snd]. split; apply not_elem_of_nil.
    + intros ->. cbn [fst snd]. split; [|split].
      * by apply list_elem_of_singleton.
      * rewrite decide_True; [done | by apply list_elem_of_singleton].
      * by intros ?%list_elem_of_singleton.
    + intros ->. cbn [fst snd]. split; [apply elem_of_cons; by left|].
      split; [|split]; intros ->; cbn [fst snd].
      * intros [? | H]%elem_of_cons; [done | by inversion H].
      * split.
        -- apply elem_of_cons. right. by apply list_elem_of_singleton.
        -- rewrite decide_True; [done | by apply list_elem_of_singleton].
      * apply elem_of_cons. right. apply elem_of_cons. by left.
Qed.

(** ** Explosions: the damage (lines 145-149) *)

Lemma damage_agent_eq (affected : list (Z * Z)) (i : nat) (p : Z * Z)
    (s : BombermanGame) (l : Z) (dead : bool) :
  lives s !! i = Some l → game_over s !! i = Some dead →
  damage_agent affected i p s
  = Ok (tt, set_game_over
              (<[i := game_over_after (hit affected p dead) l dead]> (game_over s))
              (set_lives (<[i := lives_after (hit affected p dead) l]> (lives s)) s)).
Proof.
  intros Hl Hd.
  assert (Hid : s = set_game_over (<[i := dead]> (game_over s))
                      (set_lives (<[i := l]> (lives s)) s)).
  { rewrite !list_insert_id by done. by destruct s. }
  unfold damage_agent, hit, lives_after, game_over_after, bind, get, lift, modify, ret.
  case_bool_decide; cbn [andb]; [|exact (f_equal (λ x, Ok (tt, x)) Hid)].
  unfold list_get. rewrite Hd.
  destruct dead; cbn [negb]; [exact (f_equal (λ x, Ok (tt, x)) Hid)|].
  rewrite Hl. rewrite (list_set_in_range _ _ _ l) by done.
  destruct (l - 1 <=? 0) eqn:Hle.
  - cbn [game_over set_lives]. by rewrite (list_set_in_range _ _ _ false).
  - rewrite (list_insert_id (game_over s)) by done. by destruct s.
Qed.

(** The damage loop, agent by agent: the agents in front of the loop keep
    their lives and flags, each agent the loop visits gets the lives and
    flag [lives_after] and [game_over_after] give, nothing else changes. *)
Lemma damage_agents_spec (affected : list (Z * Z)) (ps : list (Z * Z)) :
  ∀ (i : nat) (s : BombermanGame),
    (i + length ps ≤ length (lives s))%nat →
    (i + length ps ≤ length (game_over s))%nat →
    ∃ ls gos,
      damage_agents affected i ps s = Ok (tt, set_game_over gos (set_lives ls s))
      ∧ length ls = length (lives s)
      ∧ length gos = length (game_over s)
      ∧ (∀ j, (j < i)%nat →
              ls !! j = lives s !! j ∧ gos !! j = game_over s !! j)
      ∧ (∀ k p l dead,
           ps !! k = Some p → lives s !! (i + k)%nat = Some l →
           game_over s !! (i + k)%nat = Some dead →
           ls !! (i + k)%nat = Some (lives_after (hit affected p dead) l)
           ∧ gos !! (i + k)%nat
             = Some (game_over_after (hit affected p dead) l dead)).
Proof.
  induction ps as [|p ps IH]; intros i s Hlen1 Hlen2.
  - exists (lives s), (game_over s). cbn [damage_agents ret].
    split; [by destruct s|]. repeat split; done.
  - cbn [length] in Hlen1, Hlen2.
    destruct (lookup_lt_is_Some_2 (lives s) i) as [l Hl]; [lia|].
    destruct (lookup_lt_is_Some_2 (game_over s) i) as [dead Hd]; [lia|].
    cbn [damage_agents]. unfold bind at 1.
    rewrite (damage_agent_eq affected i p s l dead) by done.
    set (s1 := set_game_over _ _).
    destruct (IH (S i) s1) as (ls & gos & Hrun & Hls & Hgos & Hbefore & Hvisit).
    { subst s1. cbn. rewrite length_insert. lia. }
    { subst s1. cbn. rewrite length_insert. lia. }
    exists ls, gos. split; [rewrite Hrun; by destruct s|].
    subst s1. cbn [lives game_over set_game_over set_lives] in *.
    rewrite length_insert in Hls. rewrite length_insert in Hgos.
    split; [done|]. split; [done|]. split.
    + intros j Hj. destruct (Hbefore j) as [-> ->]; [lia|].
      rewrite !list_lookup_insert_ne by lia. done.
    + intros k q l' dead' Hk Hl' Hd'. destruct k as [|k].
      * rewrite Nat.add_0_r in *. cbn in Hk.
        assert (q = p) as -> by congruence.
        assert (l' = l) as -> by congruence.
        assert (dead' = dead) as -> by congruence.
        destruct (Hbefore i) as [-> ->]; [lia|].
        rewrite !list_lookup_insert_eq by lia. done.
      * cbn in Hk. replace (i + S k)%nat with (S i + k)%nat in * by lia.
        apply (Hvisit k q l' dead' Hk).
        -- rewrite list_lookup_insert_ne by lia. done.
        -- rewrite list_lookup_insert_ne by lia. done.
Qed.

(** The first loop always runs through on a well-formed grid, and leaves a
    well-formed grid to the damage loop. *)
Lemma blast_run (s : BombermanGame) (bomb : Bomb) :
  grid_wf (grid s) →
  ∃ affected g',
    blast bomb s = Ok (affected, set_grid g' s)
    ∧ explode_bomb bomb s
      = damage_agents affected 0 (agent_positions s) (set_grid g' s)
    ∧ grid_wf g'.
Proof.
  intros Hwf. eexists _, _. split; [by apply blast_eq|]. split.
  - unfold explode_bomb, bind. by rewrite blast_eq.
  - by apply grid_wf_destroy_all.
Qed.

Lemma explode_bomb_spec (s : BombermanGame) (bomb : Bomb) :
  grid_wf (grid s) → vitals_wf s →
  ∃ affected g' ls gos,
    blast bomb s = Ok (affected, set_grid g' s)
    ∧ explode_bomb bomb s
      = Ok (tt, set_game_over gos (set_lives ls (set_grid g' s)))
    ∧ grid_wf g'
    ∧ length ls = length (lives s)
    ∧ length gos = length (game_over s)
    ∧ (∀ i p l dead,
         agent_positions s !! i = Some p → lives s !! i = Some l →
         game_over s !! i = Some dead →
         ls !! i = Some (lives_after (hit affected p dead) l)
         ∧ gos !! i = Some (game_over_after (hit affected p dead) l dead)).
Proof.
  intros Hwf [Hlen1 Hlen2].
  destruct (blast_run s bomb Hwf) as (affected & g' & Hblast & Hrun & Hwf').
  destruct (damage_agents_spec affected (agent_positions s) 0 (set_grid g' s))
    as (ls & gos & Hdmg & Hls & Hgos & _ & Hvisit).
  { cbn. lia. }
  { cbn. lia. }
  exists affected, g', ls, gos.
  split; [done|]. split; [by rewrite Hrun|].
  split; [done|]. split; [done|]. split; [done|].
  intros i p l dead Hp Hl Hd. by apply (Hvisit i p l dead).
Qed.

(** ** The agents' turns (lines 195-202) *)

(** Whatever [perform_action] does, it only touches the positions and the
    bombs. *)
Lemma perform_action_frame (i : nat) (action : Z) (s s' : BombermanGame) (r : Z) :
  perform_action i action s = Ok (r, s') →
  s' = set_bombs (bombs s') (set_agent_positions (agent_positions s') s).
Proof.
  unfold perform_action, free_cell, move_to, grid_at, bind, get, lift,
    modify, ret, list_get, list_set.
  intros H. destruct s.
  repeat (case_match; simplify_eq; try done).
Qed.

(** The turn of an eliminated agent does nothing at all. *)
Lemma agent_turn_eliminated (i : nat) (s : BombermanGame) :
  game_over s !! i = Some true → agent_turn i s = Ok (tt, s).
Proof.
  intros Hdead. unfold agent_turn, bind, get, lift, list_get.
  by rewrite Hdead.
Qed.

Lemma bind_ok_inv {A B : Type} (m : M A) (k : A → M B)
    (s s' : BombermanGame) (b : B) :
  bind m k s = Ok (b, s') → ∃ a s1, m s = Ok (a, s1) ∧ k a s1 = Ok (b, s').
Proof.
  unfold bind. destruct (m s) as [[a s1]|]; [|done]. eauto.
Qed.

Lemma lift_ok_inv {A : Type} (r : result A) (s s' : BombermanGame) (a : A) :
  lift r s = Ok (a, s') → r = Ok a ∧ s' = s.
Proof. unfold lift. destruct r; [|done]. by intros [= -> ->]. Qed.

Lemma get_state_ok_inv (i : nat) (s s' : BombermanGame) (x : Z) :
  get_state i s = Ok (x, s') → s' = s.
Proof.
  unfold get_state, bind, get, lift, ret.
  destruct (list_get _ _); [|done]. by intros [= _ ->].
Qed.

(** Peels the next call off a run that is known to succeed. *)
Ltac step_in H :=
  let a := fresh "a" in
  let s1 := fresh "s" in
  let H1 := fresh "Hcall" in
  apply bind_ok_inv in H as (a & s1 & H1 & H).

(** A turn never changes a flag, a life counter or the grid, and only the
    table of the agent whose turn it is. *)
Lemma agent_turn_frame (j : nat) (s s' : BombermanGame) :
  agent_turn j s = Ok (tt, s') →
  game_over s' = game_over s ∧ lives s' = lives s ∧ grid s' = grid s
  ∧ ∀ i, i ≠ j → agents s' !! i = agents s !! i.
Proof.
  intros H. unfold agent_turn in H.
  step_in H. injection Hcall as <- <-.
  step_in H. apply lift_ok_inv in Hcall as [Hdead ->].
  destruct a; [by injection H as <-|].
  step_in H. apply get_state_ok_inv in Hcall as ->.
  step_in H. apply lift_ok_inv in Hcall as [_ ->].
  step_in H. apply lift_ok_inv in Hcall as [_ ->].
  step_in H. injection Hcall as _ <-.
  step_in H. apply perform_action_frame in Hcall.
  step_in H. apply get_state_ok_inv in Hcall0 as ->.
  step_in H. injection Hcall0 as <- <-.
  step_in H. apply lift_ok_inv in Hcall0 as [_ ->].
  step_in H. apply lift_ok_inv in Hcall0 as [_ ->].
  injection H as <-. rewrite Hcall. cbn.
  repeat split; try done.
  intros i Hi. by rewrite list_lookup_insert_ne.
Qed.

Lemma agents_loop_frame (ids : list nat) (s s' : BombermanGame) :
  agents_loop ids s = Ok (tt, s') →
  game_over s' = game_over s ∧ lives s' = lives s ∧ grid s' = grid s
  ∧ ∀ i, game_over s !! i = Some true → agents s' !! i = agents s !! i.
Proof.
  revert s. induction ids as [|j ids IH]; intros s H.
  - by injection H as <-.
  - cbn [agents_loop] in H. step_in H. destruct a.
    destruct (IH _ H) as (Hgo & Hl & Hg & Hag).
    destruct (decide (game_over s !! j = Some true)) as [Hj | Hj].
    + rewrite agent_turn_eliminated in Hcall by done.
      injection Hcall as <-. done.
    + apply agent_turn_frame in Hcall as (Hgo1 & Hl1 & Hg1 & Hag1).
      rewrite Hgo, Hl, Hg, Hgo1, Hl1, Hg1. repeat split; try done.
      intros i Hi. rewrite Hag by (by rewrite Hgo1).
      apply Hag1. by intros ->.
Qed.

(** C5. In an explosion (on a well-formed grid, every agent having a life
    counter and a flag) positions are untouched, an agent that stands on an
    affected position and is not yet eliminated loses exactly one life and is
    flagged eliminated exactly when its lives are then 0 or less, and every
    other agent keeps its lives and its flag.  The turn of an eliminated
    agent in the tick loop leaves the whole state as it is (no draw from the
    generator, no table update), and over the whole loop of turns no flag
    changes and the table of an eliminated agent stays the same. *)
Theorem explosion_damage_and_eliminated :
  (∀ (s : BombermanGame) (bomb : Bomb),
     grid_wf (grid s) → vitals_wf s →
     ∃ affected s',
       blast bomb s = Ok (affected, set_grid (grid s') s)
       ∧ explode_bomb bomb s = Ok (tt, s')
       ∧ agent_positions s' = agent_positions s
       ∧ ∀ i p l dead,
           agent_positions s !! i = Some p → lives s !! i = Some l →
           game_over s !! i = Some dead →
           (p ∈ affected → dead = false →
            lives s' !! i = Some (l - 1)
            ∧ game_over s' !! i = Some (bool_decide (l - 1 ≤ 0)))
           ∧ (p ∉ affected ∨ dead = true →
              lives s' !! i = Some l ∧ game_over s' !! i = Some dead))
  ∧ (∀ (s : BombermanGame) (i : nat),
       game_over s !! i = Some true → agent_turn i s = Ok (tt, s))
  ∧ (∀ (s s' : BombermanGame) (ids : list nat) (i : nat),
       game_over s !! i = Some true →
       agents_loop ids s = Ok (tt, s') →
       game_over s' = game_over s ∧ agents s' !! i = agents s !! i).
Proof.
  split; [|split].
  - intros s bomb Hwf Hv.
    destruct (explode_bomb_spec s bomb Hwf Hv)
      as (affected & g' & ls & gos & Hblast & Hrun & _ & _ & _ & Hvit).
    exists affected, (set_game_over gos (set_lives ls (set_grid g' s))).
    split; [done|]. split; [done|]. split; [done|].
    intros i p l dead Hp Hl Hd.
    destruct (Hvit i p l dead Hp Hl Hd) as [Hls Hgos]. cbn.
    rewrite Hls, Hgos. unfold hit, lives_after, game_over_after. split.
    + intros Hin ->. rewrite bool_decide_eq_true_2 by done. cbn [andb negb].
      split; [done|]. f_equal.
      destruct (Z.leb_spec (l - 1) 0).
      * by rewrite bool_decide_eq_true_2.
      * rewrite bool_decide_eq_false_2; [done | lia].
    + intros [Hout | ->].
      * by rewrite bool_decide_eq_false_2.
      * rewrite andb_false_r. done.
  - intros s i. apply agent_turn_eliminated.
  - intros s s' ids i Hdead Hrun.
    apply agents_loop_frame in Hrun as (Hgo & _ & _ & Hag). auto.
Qed.

(** ** The time gate of [on_update] (lines 184-187) *)

(** Below the interval [on_update] only accumulates the elapsed time; from
    the interval on it resets the accumulator and runs one tick. *)
Lemma on_update_gate (delta_time : float) (s : BombermanGame) :
  on_update delta_time s
  = let acc := PrimFloat.add (time_accumulator s) delta_time in
    if PrimFloat.ltb acc (update_interval s)
    then Ok (tt, set_time_accumulator acc s)
    else tick (set_time_accumulator 0 s).
Proof.
  unfold on_update, bind, modify, get. cbn.
  destruct (PrimFloat.ltb _ _); by destruct s.
Qed.

(** ** The countdown of the bombs (lines 189-193) *)

(** Two floats that compare equal are on the same side of 0. *)
Lemma float_eqb_leb_zero (x y : float) :
  PrimFloat.eqb x y = true → PrimFloat.leb x 0 = PrimFloat.leb y 0.
Proof.
  rewrite FloatAxioms.eqb_spec, !FloatAxioms.leb_spec.
  change (Prim2SF 0) with (S754_zero false).
  unfold SFeqb, SFleb.
  destruct (Prim2SF x) as [sx | sx | | sx mx ex],
           (Prim2SF y) as [sy | sy | | sy my ey];
    cbn [SFcompare]; try done;
    destruct sx, sy; try done.
Qed.

Lemma bomb_eq_exploding (a b : Bomb) :
  bomb_eq a b = true → exploding a = exploding b.
Proof.
  unfold bomb_eq, exploding. intros H.
  apply andb_prop in H as [H _]. apply andb_prop in H as [_ H].
  by apply float_eqb_leb_zero.
Qed.

Lemma explode_bomb_wf (s : BombermanGame) (bomb : Bomb) :
  state_wf s →
  ∃ s', explode_bomb bomb s = Ok (tt, s')
        ∧ state_wf s'
        ∧ bombs s' = bombs s
        ∧ update_interval s' = update_interval s.
Proof.
  intros [Hwf Hv].
  destruct (explode_bomb_spec s bomb Hwf Hv)
    as (affected & g' & ls & gos & _ & Hrun & Hwf' & Hls & Hgos & _).
  eexists. split; [exact Hrun|]. split; [|done].
  split; [done|]. destruct Hv as [Hv1 Hv2]. split; cbn; congruence.
Qed.

Lemma remove_first_skip {A : Type} (matches : A → bool) (kept rest : list A) (x : A) :
  Forall (λ e, matches e = false) kept → matches x = true →
  remove_first matches (kept ++ x :: rest) = Ok (kept ++ rest).
Proof.
  intros Hkept Hx. induction Hkept as [|e kept He _ IH]; cbn [remove_first app].
  - by rewrite Hx.
  - by rewrite He, IH.
Qed.

(** Writing to the dict named [k] changes that entry of the list only. *)
Lemma update_object (k : nat) (b b' : Bomb) (kept rest : list (nat * Bomb)) :
  Forall (λ e, (e.1 < k)%nat) kept →
  Forall (λ e, (k < e.1)%nat) rest →
  (λ e, if same_object k e then (k, b') else e) <$> (kept ++ (k, b) :: rest)
  = kept ++ (k, b') :: rest.
Proof.
  intros Hkept Hrest. rewrite fmap_app, fmap_cons.
  unfold same_object at 2. cbn [fst]. rewrite Nat.eqb_refl.
  f_equal; [|f_equal].
  - induction Hkept as [|e kept He _ IH]; [done|]. rewrite fmap_cons, IH.
    unfold same_object. by rewrite (proj2 (Nat.eqb_neq _ _)) by lia.
  - induction Hrest as [|e rest He _ IH]; [done|]. rewrite fmap_cons, IH.
    unfold same_object. by rewrite (proj2 (Nat.eqb_neq _ _)) by lia.
Qed.

Lemma tags_after (k0 : nat) (rest : list (nat * Bomb)) :
  fst <$> rest = seq (S k0) (length rest) → Forall (λ e, (k0 < e.1)%nat) rest.
Proof.
  intros Htags. apply Forall_forall. intros e He.
  apply (list_elem_of_fmap_2 fst) in He. rewrite Htags in He.
  apply elem_of_seq in He. lia.
Qed.

(** The loop over the bombs: every bomb burns by one interval, the bombs
    whose fuse is then 0 or less explode and leave the list, the others stay
    in their order.  [kept] are the dicts the loop has passed and kept. *)
Lemma bombs_loop_spec (snapshot : list (nat * Bomb)) :
  ∀ (kept : list (nat * Bomb)) (k0 : nat) (s : BombermanGame),
    state_wf s →
    fst <$> snapshot = seq k0 (length snapshot) →
    Forall (λ e, (e.1 < k0)%nat ∧ exploding e.2 = false) kept →
    bombs s = snd <$> (kept ++ snapshot) →
    ∃ s', bombs_loop snapshot (kept ++ snapshot) s = Ok (tt, s')
          ∧ bombs s'
            = (snd <$> kept)
              ++ filter (λ b, exploding b = false)
                   (burn (update_interval s) <$> (snd <$> snapshot))
          ∧ state_wf s'
          ∧ update_interval s' = update_interval s.
Proof.
  induction snapshot as [|[k b] rest IH]; intros kept k0 s Hwf Htags Hkept Hbombs.
  - exists s. cbn [bombs_loop ret fmap list_fmap filter list_filter].
    rewrite app_nil_r in *. done.
  - cbn [length seq fmap list_fmap fst] in Htags.
    injection Htags as -> Htags.
    assert (Hlt : Forall (λ e : nat * Bomb, (e.1 < k0)%nat) kept).
    { eapply Forall_impl; [exact Hkept|]. by intros e [? _]. }
    pose proof (tags_after _ _ Htags) as Hgt.
    cbn [bombs_loop]. unfold bind at 1, get. cbn [fst snd].
    rewrite (update_object k0 b _ kept rest) by done.
    fold (burn (update_interval s) b).
    set (b' := burn (update_interval s) b).
    unfold bind at 1, modify.
    set (s1 := set_bombs _ s).
    assert (Hwf1 : state_wf s1) by (by destruct s).
    cbn [fmap list_fmap snd].
    rewrite filter_cons. fold (exploding b').
    destruct (exploding b') eqn:Hex.
    + destruct (explode_bomb_wf s1 b' Hwf1) as (s2 & Hrun & Hwf2 & Hb2 & Hdt2).
      unfold bind at 1. rewrite Hrun.
      unfold bind at 1. rewrite remove_first_skip; first last.
      { unfold same_object. cbn [fst]. by rewrite Nat.eqb_refl. }
      { eapply Forall_impl; [exact Hkept|]. intros e [Hlt' Hex'].
        unfold same_object. rewrite (proj2 (Nat.eqb_neq _ _)) by lia.
        cbn [orb]. apply not_true_is_false. intros Heq.
        apply bomb_eq_exploding in Heq. congruence. }
      cbn [lift]. unfold bind at 1, modify.
      assert (Hwf3 : state_wf (set_bombs (snd <$> kept ++ rest) s2))
        by (by destruct s2).
      assert (Hkept3 : Forall (λ e : nat * Bomb,
                                 (e.1 < S k0)%nat ∧ exploding e.2 = false) kept).
      { eapply Forall_impl; [exact Hkept|]. intros e [? ?]. split; [lia|done]. }
      destruct (IH kept (S k0) (set_bombs (snd <$> kept ++ rest) s2)
                  Hwf3 Htags Hkept3 eq_refl)
        as (s' & Hloop & Hbs & Hwf' & Hdt').
      exists s'. rewrite Hloop. split; [done|].
      rewrite decide_False by (fold b'; congruence).
      split; [|split; [done|]].
      * rewrite Hbs. cbn. by rewrite Hdt2.
      * rewrite Hdt'. cbn. by rewrite Hdt2.
    + assert (Hkept3 : Forall (λ e : nat * Bomb,
                                 (e.1 < S k0)%nat ∧ exploding e.2 = false)
                         (kept ++ [(k0, b')])).
      { apply Forall_app. split.
        - eapply Forall_impl; [exact Hkept|]. intros e [? ?]. split; [lia|done].
        - apply Forall_singleton. split; [cbn; lia | done]. }
      assert (Hbombs3 : bombs s1 = snd <$> ((kept ++ [(k0, b')]) ++ rest)).
      { subst s1. cbn. by rewrite <- app_assoc. }
      destruct (IH (kept ++ [(k0, b')]) (S k0) s1 Hwf1 Htags Hkept3 Hbombs3)
        as (s' & Hloop & Hbs & Hwf' & Hdt').
      rewrite <- app_assoc in Hloop. cbn [app] in Hloop.
      exists s'. rewrite Hloop. split; [done|].
      rewrite decide_True by (fold b'; congruence).
      split; [|split; [done|]].
      * rewrite Hbs. rewrite fmap_app, <- app_assoc. done.
      * by rewrite Hdt'.
Qed.

Lemma tick_bombs_spec (s : BombermanGame) :
  state_wf s →
  ∃ s', tick_bombs s = Ok (tt, s')
        ∧ bombs s' = bombs_after_tick (update_interval s) (bombs s)
        ∧ state_wf s'
        ∧ update_interval s' = update_interval s.
Proof.
  intros Hwf. unfold tick_bombs, bind, get.
  set (objects := zip _ _).
  assert (Hfst : fst <$> objects = seq 0 (length (bombs s))).
  { apply fst_zip. by rewrite length_seq. }
  assert (Hsnd : snd <$> objects = bombs s).
  { apply snd_zip. by rewrite length_seq. }
  destruct (bombs_loop_spec objects [] 0%nat s) as (s' & Hrun & Hbs & Hwf' & Hdt).
  - done.
  - rewrite Hfst. f_equal. subst objects.
    rewrite length_zip, length_seq. lia.
  - done.
  - cbn [app]. by rewrite Hsnd.
  - exists s'. cbn [app] in Hrun, Hbs. rewrite Hsnd in Hbs. done.
Qed.

Lemma countdown_spec (n : nat) (s : BombermanGame) :
  state_wf s →
  ∃ s', countdown n s = Ok (tt, s')
        ∧ bombs s' = bombs_after_ticks n (update_interval s) (bombs s)
        ∧ state_wf s'.
Proof.
  revert s. induction n as [|n IH]; intros s Hwf.
  - by exists s.
  - destruct (tick_bombs_spec s Hwf) as (s1 & Hrun & Hbs & Hwf1 & Hdt).
    destruct (IH s1 Hwf1) as (s' & Hrun' & Hbs' & Hwf').
    exists s'. cbn [countdown bombs_after_ticks]. unfold bind.
    rewrite Hrun, Hrun', Hbs', Hbs, Hdt. done.
Qed.

(** ** What the countdown does to the game (lines 129-149, 189-193) *)








(** ** [setup] and the end of an episode (lines 82-98, 204-209) *)

Lemma gen_cell_spec (s : BombermanGame) :
  ∃ c g, gen_cell s = Ok (c, set_random_state g s).
Proof.
  unfold gen_cell, bind, random_random, ret. cbn.
  destruct (PrimFloat.ltb _ f_0_2); cbn; eauto.
Qed.

Lemma gen_row_spec (n : nat) :
  ∀ (row_data : list Cell) (s : BombermanGame),
    ∃ cells g, gen_row n row_data s = Ok (row_data ++ cells, set_random_state g s)
               ∧ length cells = n.
Proof.
  induction n as [|n IH]; intros row_data s.
  - exists [], (random_state s). cbn. rewrite app_nil_r. by destruct s.
  - destruct (gen_cell_spec s) as (c & g & Hc).
    destruct (IH (row_data ++ [c]) (set_random_state g s)) as (cells & g' & Hrun & Hlen).
    exists (c :: cells), g'. cbn [gen_row]. unfold bind. rewrite Hc, Hrun.
    rewrite <- app_assoc. cbn. by rewrite Hlen.
Qed.

Lemma gen_rows_spec (n : nat) :
  ∀ s : BombermanGame,
    ∃ rows g,
      gen_rows n s = Ok (tt, set_random_state g (set_grid (grid s ++ rows) s))
      ∧ length rows = n
      ∧ Forall (λ line, Z.of_nat (length line) = COLS) rows.
Proof.
  induction n as [|n IH]; intros s.
  - exists [], (random_state s). cbn. rewrite app_nil_r. by destruct s.
  - destruct (gen_row_spec (Z.to_nat COLS) [] s) as (cells & g & Hrow & Hlen).
    set (s1 := set_grid (grid (set_random_state g s) ++ [cells])
                 (set_random_state g s)).
    destruct (IH s1) as (rows & g' & Hrun & Hn & Hall).
    exists (cells :: rows), g'. cbn [gen_rows]. unfold bind, modify.
    rewrite Hrow. cbn [app]. fold s1. rewrite Hrun.
    split; [|split].
    + subst s1. cbn. by rewrite <- app_assoc.
    + cbn. by rewrite Hn.
    + apply Forall_cons. split; [|done]. rewrite Hlen. by rewrite COLS_eq.
Qed.

(** [setup] always succeeds.  It draws a new grid of [ROWS] x [COLS] cells
    from the generator, puts agent [i] at [(1, 1 + 3 i)], resets scores,
    lives, bombs and flags, and leaves everything else, the agents and their
    tables included, as it was. *)
Lemma setup_spec (s : BombermanGame) :
  ∃ g' rng',
    setup s
    = Ok (tt, mkGame (num_agents s) g' (spawn_positions (num_agents s)) []
                (replicate (num_agents s) 0) (replicate (num_agents s) 3)
                (replicate (num_agents s) false) (current_episode s)
                (max_episodes s) (time_accumulator s) (update_interval s)
                (agents s) rng' (np_random_state s) (files s) (save_calls s))
    ∧ grid_wf g'.
Proof.
  destruct (gen_rows_spec (Z.to_nat ROWS) (set_grid [] s)) as (rows & g & Hrun & Hn & Hall).
  exists rows, g. unfold setup, bind, modify. rewrite Hrun. cbn.
  split; [done|]. split; [|done]. rewrite Hn. by rewrite ROWS_eq.
Qed.

Lemma string_length_app (s t : string) :
  String.length (s +:+ t) = (String.length s + String.length t)%nat.
Proof.
  induction s as [|a s IH]; [done|].
  change (String a s +:+ t) with (String a (s +:+ t)).
  cbn [String.length]. by rewrite IH.
Qed.

Lemma substring_app_skip (a t : string) (k m : nat) :
  String.substring (String.length a + k) m (a +:+ t) = String.substring k m t.
Proof.
  induction a as [|c a IH]; [done|].
  change (String c a +:+ t) with (String c (a +:+ t)). exact IH.
Qed.

Lemma endswith_app (a t suffix : string) :
  endswith t suffix = true → endswith (a +:+ t) suffix = true.
Proof.
  unfold endswith. intros H.
  apply andb_true_iff in H as [Hlen Heq]. apply Nat.leb_le in Hlen.
  rewrite string_length_app. apply andb_true_iff. split.
  - apply Nat.leb_le. lia.
  - replace (String.length a + String.length t - String.length suffix)%nat
      with (String.length a + (String.length t - String.length suffix))%nat
      by lia.
    by rewrite substring_app_skip.
Qed.

(** The names the program saves to carry the suffix already. *)
Lemma endswith_qtable_filename (i : nat) :
  endswith (qtable_filename i) ".npy" = true.
Proof.
  unfold qtable_filename.
  apply endswith_app; (reflexivity || (apply endswith_app; reflexivity)).
Qed.

Lemma npy_name_qtable_filename (i : nat) :
  npy_name (qtable_filename i) = qtable_filename i.
Proof. unfold npy_name. by rewrite endswith_qtable_filename. Qed.

Lemma npy_name_without_suffix (filename : string) :
  endswith filename ".npy" = false → npy_name filename ≠ filename.
Proof.
  unfold npy_name. intros -> H.
  apply (f_equal String.length) in H. rewrite string_length_app in H.
  cbn [String.length] in H. lia.
Qed.

Lemma save_all_spec (ags : list QLearningAgent) :
  ∀ (i : nat) (s : BombermanGame),
    save_all i ags s
    = Ok (tt, set_files (saved_files i ags (files s))
                (save_calls s ++ save_log i ags) s).
Proof.
  induction ags as [|a ags IH]; intros i s.
  - cbn. rewrite app_nil_r. by destruct s.
  - cbn [save_all saved_files save_log]. unfold bind, modify.
    rewrite IH. unfold save_q_table. rewrite npy_name_qtable_filename.
    cbn. rewrite <- app_assoc. done.
Qed.

Lemma string_app_inj_r (t s1 s2 : string) : s1 +:+ t = s2 +:+ t → s1 = s2.
Proof.
  revert s2. induction s1 as [|a s1 IH]; intros [|b s2] H.
  - done.
  - apply (f_equal String.length) in H. rewrite !string_length_app in H.
    cbn [String.length] in H. lia.
  - apply (f_equal String.length) in H. rewrite !string_length_app in H.
    cbn [String.length] in H. lia.
  - change (String a (s1 +:+ t) = String b (s2 +:+ t)) in H.
    injection H as -> H. f_equal. by apply IH.
Qed.

(** Two agents never share a file. *)
Lemma qtable_filename_inj (i j : nat) :
  qtable_filename i = qtable_filename j → i = j.
Proof.
  unfold qtable_filename. intros H.
  apply String.app_inj, string_app_inj_r, pretty_nat_inj in H. lia.
Qed.

Lemma saved_files_lookup_before (ags : list QLearningAgent) :
  ∀ (i j : nat) (fs : gmap string NpyFile),
    (j < i)%nat →
    saved_files i ags fs !! qtable_filename j = fs !! qtable_filename j.
Proof.
  induction ags as [|a ags IH]; intros i j fs Hj; [done|].
  cbn [saved_files]. rewrite IH by lia.
  apply lookup_insert_ne. intros Heq%qtable_filename_inj. lia.
Qed.

(** After the saves, the file of each agent holds its table. *)
Lemma saved_files_lookup (ags : list QLearningAgent) :
  ∀ (i k : nat) (a : QLearningAgent) (fs : gmap string NpyFile),
    ags !! k = Some a →
    saved_files i ags fs !! qtable_filename (i + k) = Some (NpyArray (q_table a)).
Proof.
  induction ags as [|a0 ags IH]; intros i k a fs Hk; [done|].
  cbn [saved_files]. rewrite lookup_cons in Hk.
  destruct k as [|k].
  - injection Hk as ->. rewrite Nat.add_0_r.
    rewrite saved_files_lookup_before by lia. apply lookup_insert_eq.
  - replace (i + S k)%nat with (S i + k)%nat by lia. by apply IH.
Qed.

Lemma save_log_lookup (ags : list QLearningAgent) :
  ∀ (i k : nat) (a : QLearningAgent),
    ags !! k = Some a →
    save_log i ags !! k = Some (qtable_filename (i + k), q_table a).
Proof.
  induction ags as [|a0 ags IH]; intros i k a Hk; [done|].
  cbn [save_log]. rewrite lookup_cons in Hk. rewrite lookup_cons.
  destruct k as [|k].
  - injection Hk as ->. by rewrite Nat.add_0_r.
  - rewrite (IH (S i) k a Hk). do 3 f_equal. lia.
Qed.

Lemma save_log_length (ags : list QLearningAgent) (i : nat) :
  length (save_log i ags) = length ags.
Proof. revert i. induction ags as [|a ags IH]; intros i; cbn; [done | by rewrite IH]. Qed.

Lemma end_episode_reset (s : BombermanGame) :
  forallb id (game_over s) = true →
  ∃ g' rng',
    end_episode s
    = Ok (tt, mkGame (num_agents s) g' (spawn_positions (num_agents s)) []
                (replicate (num_agents s) 0) (replicate (num_agents s) 3)
                (replicate (num_agents s) false) (current_episode s + 1)
                (max_episodes s) (time_accumulator s) (update_interval s)
                (agents s) rng' (np_random_state s)
                (saved_files 0 (agents s) (files s))
                (save_calls s ++ save_log 0 (agents s)))
    ∧ grid_wf g'.
Proof.
  intros Hall. unfold end_episode. unfold bind at 1, get. rewrite Hall.
  unfold bind at 1, modify. unfold bind at 1. rewrite save_all_spec.
  match goal with |- context [setup ?s0] =>
    destruct (setup_spec s0) as (g' & rng' & Hrun & Hwf) end.
  exists g', rng'. by rewrite Hrun.
Qed.

Lemma end_episode_continue (s : BombermanGame) :
  forallb id (game_over s) = false → end_episode s = Ok (tt, s).
Proof.
  intros Hsome. unfold end_episode, bind, get. by rewrite Hsome.
Qed.

(** C6. When every agent is eliminated after the countdown and the turns
    of a tick, the tick succeeds and ends in a state where: the episode
    counter is one more; exactly one [np.save] call per agent was added, in
    the order of the agents, each with the agent's file name and its table,
    and the files hold these tables; the grid is a new well-formed grid
    drawn from the generator; positions are the spawn positions, scores 0,
    lives 3, no bomb, no flag set; the agents, with their Q-tables, are the
    ones from before the reset. *)
Theorem episode_reset (s s0 s1 : BombermanGame) :
  tick_bombs s = Ok (tt, s0) →
  agents_loop (seq 0 (num_agents s0)) s0 = Ok (tt, s1) →
  forallb id (game_over s1) = true →
  ∃ g' rng' s',
    tick s = Ok (tt, s')
    ∧ s' = mkGame (num_agents s1) g' (spawn_positions (num_agents s1)) []
             (replicate (num_agents s1) 0) (replicate (num_agents s1) 3)
             (replicate (num_agents s1) false) (current_episode s1 + 1)
             (max_episodes s1) (time_accumulator s1) (update_interval s1)
             (agents s1) rng' (np_random_state s1)
             (saved_files 0 (agents s1) (files s1))
             (save_calls s1 ++ save_log 0 (agents s1))
    ∧ grid_wf g'
    ∧ current_episode s' = current_episode s1 + 1
    ∧ agents s' = agents s1
    ∧ length (save_log 0 (agents s1)) = length (agents s1)
    ∧ (∀ i a, agents s1 !! i = Some a →
              save_log 0 (agents s1) !! i = Some (qtable_filename i, q_table a)
              ∧ files s' !! qtable_filename i = Some (NpyArray (q_table a))).
Proof.
  intros Hbombs Hturns Hall.
  destruct (end_episode_reset s1 Hall) as (g' & rng' & Hend & Hwf).
  exists g', rng'. eexists. split.
  { unfold tick. unfold bind at 1. rewrite Hbombs.
    unfold bind at 1, get. unfold bind at 1. rewrite Hturns. exact Hend. }
  split; [reflexivity|]. split; [done|]. split; [done|]. split; [done|].
  split; [apply save_log_length|].
  intros i a Hi. split.
  - by rewrite (save_log_lookup _ 0 i a).
  - cbn [files]. by apply (saved_files_lookup _ 0 i a).
Qed.

(** ** Loading a table (lines 46-52) *)

(** C7, as the code has it.  [load_q_table] treats three cases: a missing
    file leaves the agent, and so its table, as it is and raises nothing; a
    stored array becomes the agent's table whatever its shape; a file that
    [np.load] cannot read makes the call raise.  The table a fresh agent of
    the game keeps when the file is missing is [ROWS * COLS] rows of 5
    zeros. *)
Theorem load_q_table_cases (a : QLearningAgent) (filename : string)
    (fs : gmap string NpyFile) :
  match fs !! filename with
  | None => load_q_table a filename fs = Ok a
  | Some (NpyArray t) => load_q_table a filename fs = Ok (set_q_table t a)
  | Some NotNpy => load_q_table a filename fs = Raise ValueError
  end
  ∧ ∀ i, q_table (QLearningAgent_init (ROWS * COLS) (Z.of_nat (length ACTIONS)) i)
         = replicate 300 (replicate 5 0%float).
Proof.
  split; [|done].
  unfold load_q_table, np_load. by destruct (fs !! filename) as [[t|]|].
Qed.

(** C7 as stated fails: a stored table of the wrong shape is not treated
    like a missing one (it replaces the zero table), and an unreadable file
    raises. *)
Lemma load_q_table_malformed_counterexample :
  let a := QLearningAgent_init (ROWS * COLS) 5 0 in
  let f := qtable_filename 0 in
  load_q_table a f ∅ = Ok a
  ∧ load_q_table a f {[ f := NpyArray [[1%float]] ]} = Ok (set_q_table [[1%float]] a)
  ∧ q_table (set_q_table [[1%float]] a) ≠ q_table a
  ∧ load_q_table a f {[ f := NotNpy ]} = Raise ValueError.
Proof.
  cbv zeta. split; [|split; [|split]].
  - reflexivity.
  - unfold load_q_table, np_load. by rewrite lookup_singleton_eq.
  - discriminate.
  - unfold load_q_table, np_load. by rewrite lookup_singleton_eq.
Qed.

(** ** Positions and the grid (lines 94, 110-123) *)

(** What holds of C8: with at most 7 agents the spawn positions are inside
    the grid, a successful [perform_action] keeps positions inside the grid,
    and explosions do not move agents. *)
Lemma spawn_positions_in_bounds (n : nat) :
  (n ≤ 7)%nat → Forall in_bounds (spawn_positions n).
Proof.
  intros Hn. unfold spawn_positions. apply Forall_fmap, Forall_forall.
  intros i Hi. apply elem_of_seq in Hi. bounds.
Qed.

Lemma perform_action_in_bounds (i : nat) (action : Z) (s s' : BombermanGame) (r : Z) :
  Forall in_bounds (agent_positions s) →
  perform_action i action s = Ok (r, s') →
  Forall in_bounds (agent_positions s').
Proof.
  intros Hall Hrun.
  assert (Hkeep : ∀ p q, agent_positions s !! i = Some p → in_bounds q →
            Forall in_bounds (<[i := q]> (agent_positions s))).
  { intros p q _ Hq. by apply Forall_insert. }
  unfold perform_action in Hrun.
  step_in Hrun. injection Hcall as <- <-.
  step_in Hrun. apply lift_ok_inv in Hcall as [_ ->].
  destruct a; [by injection Hrun as _ <-|].
  step_in Hrun. apply lift_ok_inv in Hcall as [Hp ->].
  unfold list_get in Hp. destruct (agent_positions s !! i) as [p|] eqn:Hpos; [|done].
  injection Hp as <-.
  assert (Hin : in_bounds p) by (eapply Forall_lookup_1; eauto).
  destruct p as [row col].
  unfold free_cell, move_to, grid_at, bind, get, lift, modify, ret, list_set in Hrun.
  cbn [fst snd] in Hrun.
  repeat (case_match; simplify_eq; cbn [agent_positions set_agent_positions set_bombs];
          try done);
    apply (Hkeep (row, col)); try done;
    repeat match goal with
           | H : _ && _ = true |- _ => apply andb_prop in H as [? ?]
           end; bounds.
Qed.

Lemma perform_action_length (i : nat) (action : Z) (s s' : BombermanGame) (r : Z) :
  perform_action i action s = Ok (r, s') →
  length (agent_positions s') = length (agent_positions s).
Proof.
  unfold perform_action, free_cell, move_to, grid_at, bind, get, lift,
    modify, ret, list_get, list_set.
  intros H.
  repeat (case_match; simplify_eq;
          cbn [agent_positions set_agent_positions set_bombs];
          rewrite ?length_insert; try done).
Qed.

(** With at most 7 agents every reachable state is well formed and has all
    its agents inside the grid. *)
Lemma reachable_in_bounds (n : nat) (s : BombermanGame) :
  (n ≤ 7)%nat → reachable n s →
  state_wf s ∧ Forall in_bounds (agent_positions s).
Proof.
  intros Hn Hreach.
  induction Hreach as [s s' Hnum Hrun | i action r s s' _ [[Hg [Hl Hgo]] Hin] Hrun
                      | bomb s s' _ [[Hg Hv] Hin] Hrun].
  - destruct (setup_spec s) as (g' & rng' & Hrun' & Hwf).
    rewrite Hrun' in Hrun. injection Hrun as <-. cbn. subst n.
    split; [split; [done|]|].
    + split; cbn; unfold spawn_positions;
        by rewrite length_fmap, length_seq, length_replicate.
    + by apply spawn_positions_in_bounds.
  - pose proof (perform_action_length _ _ _ _ _ Hrun) as Hlen.
    pose proof (perform_action_in_bounds _ _ _ _ _ Hin Hrun) as Hin'.
    apply perform_action_frame in Hrun.
    split; [|done]. rewrite Hrun. unfold state_wf, vitals_wf. cbn.
    split; [done|]. split; congruence.
  - destruct (explode_bomb_spec s bomb Hg Hv)
      as (affected & g' & ls & gos & _ & Hrun' & Hwf' & Hls & Hgos & _).
    rewrite Hrun' in Hrun. injection Hrun as <-. cbn.
    destruct Hv as [Hl Hgo].
    split; [split; [done|]|done]. split; cbn; congruence.
Qed.

(** C8 fails for 8 agents: [setup] puts the eighth agent at column 22 of a
    grid of 20 columns, and its next move to the left reads the grid
    outside its bounds. *)
Theorem spawn_out_of_bounds :
  ∃ s s',
    BombermanGame_init 8 1000 (rng_const 0.5 0) (rng_const 0.5 0) ∅ = Ok s
    ∧ setup s = Ok (tt, s')
    ∧ agent_positions s' !! 7%nat = Some (1, 22)
    ∧ ¬ in_bounds (1, 22)
    ∧ perform_action 7 ACTION_LEFT s' = Raise IndexError.
Proof.
  eexists _, _. split; [vm_compute; reflexivity|].
  split; [vm_compute; reflexivity|].
  split; [reflexivity|]. split; [bounds|]. vm_compute. reflexivity.
Qed.

(** ** Spawning on an obstacle (lines 82-98, 110-123) *)

(** C10. [setup] always assigns the positions [(1, 1 + 3 i)], whatever grid
    it has drawn.  For a live agent inside the grid, the outcome of a
    movement action does not depend on the cell the agent stands on:
    replacing that cell by any other changes nothing but that cell.  There
    are draws of the generator for which the agent of a one-agent game starts
    on a Destructible cell, and draws for which it starts on an
    Indestructible one; from both states the next tick of [on_update]
    succeeds, the agent moving up to (0, 1). *)
Theorem spawn_on_obstacle :
  (∀ s : BombermanGame,
     ∃ s', setup s = Ok (tt, s')
           ∧ agent_positions s' = spawn_positions (num_agents s))
  ∧ (∀ (s : BombermanGame) (i : nat) (action : Z) (p : Z * Z) (v : Cell),
       grid_wf (grid s) →
       game_over s !! i = Some false →
       agent_positions s !! i = Some p →
       in_bounds p →
       0 ≤ action ≤ 3 →
       perform_action i action (set_grid (grid_set (grid s) p v) s)
       = match perform_action i action s with
         | Ok (r, s') => Ok (r, set_grid (grid_set (grid s') p v) s')
         | Raise e => Raise e
         end)
  ∧ (∃ s s',
       obstacle_start f_0_1 = Ok s
       ∧ agent_positions s !! 0%nat = Some (1, 1)
       ∧ cell_at (grid s) (1, 1) = Some DESTRUCTIBLE
       ∧ on_update 0.5 s = Ok (tt, s')
       ∧ agent_positions s' !! 0%nat = Some (0, 1))
  ∧ (∃ s s',
       obstacle_start f_0_9 = Ok s
       ∧ agent_positions s !! 0%nat = Some (1, 1)
       ∧ cell_at (grid s) (1, 1) = Some INDESTRUCTIBLE
       ∧ on_update 0.5 s = Ok (tt, s')
       ∧ agent_positions s' !! 0%nat = Some (0, 1)).
Proof.
  split; [|split; [|split]].
  - intros s. destruct (setup_spec s) as (g' & rng' & Hrun & _).
    eexists. split; [exact Hrun | reflexivity].
  - intros s i action p v Hwf Hlive Hpos Hp Hact.
    assert (Hne : destination action p ≠ p).
    { unfold destination. destruct p as [row col]. cbn [fst snd].
      repeat case_match; try lia; intros [=]; lia. }
    rewrite (perform_action_move_eq _ i action p);
      [| by apply grid_wf_grid_set | done | done | done | done].
    rewrite (perform_action_move_eq s i action p) by done.
    cbn [grid set_grid agent_positions].
    rewrite cell_at_grid_set by done. rewrite decide_False by done.
    by destruct (_ && _).
  - eexists _, _. split; [vm_compute; reflexivity|].
    split; [reflexivity|]. split; [reflexivity|].
    split; [vm_compute; reflexivity | reflexivity].
  - eexists _, _. split; [vm_compute; reflexivity|].
    split; [reflexivity|]. split; [reflexivity|].
    split; [vm_compute; reflexivity | reflexivity].
Qed.

(** ** Concrete runs *)

Ltac concrete_wf := split; [reflexivity | repeat constructor].

(** The movement rule on the runs of the specification: Up from (2, 2) on
    an empty grid leads to (1, 2) with reward 5; Left at column 0 is refused
    with -1. *)
Lemma perform_action_move_witness :
  perform_action 0 ACTION_UP (scenario EMPTY_GRID [(2, 2)] [] [3])
  = Ok (5, set_agent_positions [(1, 2)] (scenario EMPTY_GRID [(2, 2)] [] [3]))
  ∧ perform_action 0 ACTION_LEFT (scenario EMPTY_GRID [(2, 0)] [] [3])
    = Ok (-1, scenario EMPTY_GRID [(2, 0)] [] [3]).
Proof.
  split.
  - refine (proj1 (proj1 (perform_action_move
             (scenario EMPTY_GRID [(2, 2)] [] [3]) 0 ACTION_UP (2, 2)
             _ _ _ _ _) _));
      [concrete_wf | reflexivity | reflexivity | bounds | by vm_compute |].
    split; [bounds | reflexivity].
  - refine (proj2 (perform_action_move
             (scenario EMPTY_GRID [(2, 0)] [] [3]) 0 ACTION_LEFT (2, 0)
             _ _ _ _ _) _);
      [concrete_wf | reflexivity | reflexivity | bounds | by vm_compute |].
    left. bounds.
Defined.

(** C9 on an agent without lives: placing a bomb is answered by -100. *)
Lemma perform_action_eliminated_witness :
  perform_action 0 ACTION_PLACE_BOMB (scenario EMPTY_GRID [(2, 2)] [] [0])
  = Ok (-100, scenario EMPTY_GRID [(2, 2)] [] [0]).
Proof.
  apply (perform_action_eliminated (scenario EMPTY_GRID [(2, 2)] [] [0]) 0).
  reflexivity.
Defined.

(** C2 on the fixture of the specification. *)
Lemma update_bellman_witness :
  ∃ a', update (mkAgent 2 2 [[0; 0]; [0; 0]]%float f_0_1 f_0_9 f_0_1 0) 0 1 5 1
        = Ok a'
        ∧ q_entry (q_table a') 0 1 = Some 0.5%float
        ∧ q_entry (q_table a') 1 1 = Some 0%float.
Proof.
  destruct (update_bellman
              (mkAgent 2 2 [[0; 0]; [0; 0]]%float f_0_1 f_0_9 f_0_1 0) 0 1 5 1
              [0; 0]%float [0; 0]%float 0%float 0%float)
    as (a' & Hrun & _ & Hother & _ & _ & Hfix);
    [lia | lia | lia | reflexivity | reflexivity | reflexivity | reflexivity
    | reflexivity |].
  exists a'. split; [exact Hrun|]. split.
  - apply Hfix; reflexivity.
  - rewrite (Hother 1%nat 1%nat); [reflexivity | discriminate].
Defined.

(** C3 on a bomb at (2, 2) with a wall to its right, a crate below and an
    open corridor to its left. *)
Lemma explosion_blast_witness :
  ∃ affected g',
    blast (mkBomb 2 2 0 0) (scenario WALLED_GRID [(2, 2)] [] [3])
    = Ok (affected, set_grid g' (scenario WALLED_GRID [(2, 2)] [] [3]))
    ∧ (2, 2) ∈ affected
    ∧ ((2, 3) ∉ affected) ∧ ((2, 4) ∉ affected)
    ∧ (3, 2) ∈ affected ∧ cell_at g' (3, 2) = Some EMPTY ∧ ((4, 2) ∉ affected)
    ∧ (2, 1) ∈ affected ∧ (2, 0) ∈ affected.
Proof.
  destruct (explosion_blast (scenario WALLED_GRID [(2, 2)] [] [3]) (mkBomb 2 2 0 0))
    as (affected & g' & Hrun & _ & _ & Hcenter & _ & _ & Hdirs);
    [concrete_wf|].
  exists affected, g'. split; [exact Hrun|]. split; [exact Hcenter|].
  destruct (Hdirs (0, 1)) as ([Hr1 Hr2] & _); [by left | reflexivity |].
  destruct (Hdirs (1, 0)) as (_ & (Hd1 & Hd2 & Hd3) & _);
    [by do 2 right; left | reflexivity |].
  destruct (Hdirs (0, -1)) as (_ & _ & (Hl1 & _ & _ & Hl2));
    [by right; left | reflexivity |].
  repeat split; try done. by apply Hl2.
Defined.


(** C5 on two agents, the first next to the bomb with one life left. *)
Lemma explosion_damage_and_eliminated_witness :
  (∃ s', explode_bomb (mkBomb 2 3 0 0)
           (scenario EMPTY_GRID [(2, 2); (5, 5)] [] [1; 3]) = Ok (tt, s')
         ∧ lives s' !! 0%nat = Some 0 ∧ game_over s' !! 0%nat = Some true
         ∧ lives s' !! 1%nat = Some 3 ∧ game_over s' !! 1%nat = Some false)
  ∧ agent_turn 0 (scenario EMPTY_GRID [(2, 2); (5, 5)] [] [0; 3])
    = Ok (tt, scenario EMPTY_GRID [(2, 2); (5, 5)] [] [0; 3])
  ∧ (∃ s', agents_loop [0; 1]%nat (scenario EMPTY_GRID [(2, 2); (5, 5)] [] [0; 3])
           = Ok (tt, s')
           ∧ agents s' !! 0%nat
             = agents (scenario EMPTY_GRID [(2, 2); (5, 5)] [] [0; 3]) !! 0%nat).
Proof.
  destruct explosion_damage_and_eliminated as (Hboom & Hturn & Hloop).
  split; [|split].
  - destruct (Hboom (scenario EMPTY_GRID [(2, 2); (5, 5)] [] [1; 3]) (mkBomb 2 3 0 0))
      as (affected & s' & Hblast & Hrun & _ & Hvit);
      [concrete_wf | split; reflexivity |].
    assert (Haff : affected = [(2, 3); (2, 4); (2, 5); (2, 2); (2, 1); (3, 3);
                               (4, 3); (1, 3); (0, 3)]).
    { vm_compute in Hblast. by injection Hblast as <- _. }
    exists s'. split; [exact Hrun|].
    destruct (Hvit 0%nat (2, 2) 1 false eq_refl eq_refl eq_refl) as [Hhit _].
    destruct (Hvit 1%nat (5, 5) 3 false eq_refl eq_refl eq_refl) as [_ Hmiss].
    destruct Hhit as [Hl0 Hg0];
      [rewrite Haff; compute_done | reflexivity |].
    destruct Hmiss as [Hl1 Hg1];
      [left; rewrite Haff; compute_done |].
    repeat split; done.
  - apply Hturn. reflexivity.
  - eexists. split; [vm_compute; reflexivity|].
    refine (proj2 (Hloop (scenario EMPTY_GRID [(2, 2); (5, 5)] [] [0; 3]) _
                         [0; 1]%nat 0%nat _ _)); [reflexivity|].
    vm_compute. reflexivity.
Defined.

(** C6 on a one-agent game whose agent stands on a bomb about to explode. *)
Lemma episode_reset_witness :
  ∃ s', tick (scenario EMPTY_GRID [(2, 2)] [mkBomb 2 2 0.5 0] [1]) = Ok (tt, s')
        ∧ current_episode s' = 1
        ∧ agents s' = agents (scenario EMPTY_GRID [(2, 2)] [mkBomb 2 2 0.5 0] [1])
        ∧ lives s' = [3] ∧ game_over s' = [false] ∧ bombs s' = []
        ∧ agent_positions s' = [(1, 1)]
        ∧ fst <$> save_calls s' = ["agent_1_qtable.npy"].
Proof.
  edestruct (episode_reset (scenario EMPTY_GRID [(2, 2)] [mkBomb 2 2 0.5 0] [1]))
    as (g' & rng' & s' & Htick & Hs' & _ & Hep & Hag & _);
    [vm_compute; reflexivity | vm_compute; reflexivity | reflexivity |].
  exists s'. split; [exact Htick|]. rewrite Hs'. repeat split; reflexivity.
Defined.

(** C10 on an agent at (1, 1): putting a crate under it does not change its
    move down. *)
Lemma spawn_on_obstacle_witness :
  perform_action 0 ACTION_DOWN
    (set_grid (grid_set EMPTY_GRID (1, 1) DESTRUCTIBLE)
       (scenario EMPTY_GRID [(1, 1)] [] [3]))
  = match perform_action 0 ACTION_DOWN (scenario EMPTY_GRID [(1, 1)] [] [3]) with
    | Ok (r, s') => Ok (r, set_grid (grid_set (grid s') (1, 1) DESTRUCTIBLE) s')
    | Raise e => Raise e
    end.
Proof.
  refine (proj1 (proj2 spawn_on_obstacle)
            (scenario EMPTY_GRID [(1, 1)] [] [3]) 0%nat ACTION_DOWN (1, 1)
            DESTRUCTIBLE _ _ _ _ _);
    [concrete_wf | reflexivity | reflexivity | bounds | by vm_compute].
Defined.

(** * Further properties of the code *)

(** ** [get_state] (lines 100-103) *)

(** X1. [get_state] raises [IndexError] for an index without a position and
    otherwise returns [row * COLS + col] without touching the state.  For a
    position inside the grid the code lies in [[0, ROWS * COLS)] and gives
    the position back as its quotient and remainder by [COLS], so two agents
    inside the grid have the same code only on the same cell. *)
Theorem get_state_encoding (s : BombermanGame) (i : nat) :
  (agent_positions s !! i = None → get_state i s = Raise IndexError)
  ∧ (∀ p, agent_positions s !! i = Some p →
          get_state i s = Ok (p.1 * COLS + p.2, s))
  ∧ (∀ p, in_bounds p →
          0 ≤ p.1 * COLS + p.2 < ROWS * COLS
          ∧ (p.1 * COLS + p.2) `div` COLS = p.1
          ∧ (p.1 * COLS + p.2) `mod` COLS = p.2)
  ∧ (∀ p q, in_bounds p → in_bounds q →
            p.1 * COLS + p.2 = q.1 * COLS + q.2 → p = q).
Proof.
  split; [|split; [|split]].
  - intros Hnone. unfold get_state, bind, get, lift, list_get. by rewrite Hnone.
  - intros p Hp. unfold get_state, bind, get, lift, list_get, ret. by rewrite Hp.
  - intros [row col] [Hr Hc]. rewrite ?ROWS_eq, ?COLS_eq in *. cbn [fst snd] in *.
    split; [lia|]. split.
    + symmetry. apply (Z.div_unique _ 20 row col); lia.
    + symmetry. apply (Z.mod_unique _ 20 row col); lia.
  - intros [r1 c1] [r2 c2] [Hr1 Hc1] [Hr2 Hc2].
    rewrite ?ROWS_eq, ?COLS_eq in *. cbn [fst snd] in *.
    intros Heq. f_equal; lia.
Qed.

(** X1 on the agent of a one-agent game at (2, 2): its state is 42. *)
Lemma get_state_encoding_witness :
  get_state 0 (scenario EMPTY_GRID [(2, 2)] [] [3])
  = Ok (42, scenario EMPTY_GRID [(2, 2)] [] [3])
  ∧ get_state 1 (scenario EMPTY_GRID [(2, 2)] [] [3]) = Raise IndexError
  ∧ 42 `div` COLS = 2 ∧ 42 `mod` COLS = 2.
Proof.
  destruct (get_state_encoding (scenario EMPTY_GRID [(2, 2)] [] [3]) 0)
    as (_ & Hok & Hdec & _).
  destruct (get_state_encoding (scenario EMPTY_GRID [(2, 2)] [] [3]) 1)
    as (Hnone & _).
  split; [apply (Hok (2, 2)); reflexivity|].
  split; [apply Hnone; reflexivity|].
  destruct (Hdec (2, 2)) as (_ & Hdiv & Hmod); [bounds|]. split; assumption.
Defined.

(** ** [perform_action]: what the reward tells (lines 105-127) *)

(** X2. An action outside 0..4 is not refused: for a live agent it is
    answered like a blocked move, with -1 and the unchanged state, and the
    grid is not read (no condition on the grid or the position is needed). *)
Theorem perform_action_unknown_action (s : BombermanGame) (i : nat)
    (action : Z) (p : Z * Z) :
  game_over s !! i = Some false →
  agent_positions s !! i = Some p →
  action < 0 ∨ 4 < action →
  perform_action i action s = Ok (-1, s).
Proof.
  intros Hlive Hpos Hact.
  unfold perform_action, bind, get, lift, list_get. rewrite Hlive, Hpos.
  rewrite !(proj2 (Z.eqb_neq action _)) by lia. reflexivity.
Qed.

(** X2 on the action 7, on a grid that is not even there. *)
Lemma perform_action_unknown_action_witness :
  perform_action 0 7 (scenario [] [(2, 2)] [] [3])
  = Ok (-1, scenario [] [(2, 2)] [] [3]).
Proof.
  apply (perform_action_unknown_action _ 0 7 (2, 2)); [reflexivity | reflexivity | lia].
Defined.

(** X3. Whenever [perform_action] returns for a live agent, the reward
    tells what happened: 5 means a movement action was taken and the only
    change is the agent's position, now the destination; 0 means the action
    was PlaceBomb and the only change is one bomb more; -1 means nothing
    changed.  The penalty -100 is never returned for a live agent. *)
Theorem perform_action_reward (s s' : BombermanGame) (i : nat) (action r : Z) :
  game_over s !! i = Some false →
  perform_action i action s = Ok (r, s') →
  ∃ p,
    agent_positions s !! i = Some p
    ∧ ((r = 5 ∧ 0 ≤ action ≤ 3
        ∧ s' = set_agent_positions
                 (<[i := destination action p]> (agent_positions s)) s)
       ∨ (r = 0 ∧ action = 4
          ∧ s' = set_bombs (bombs s ++ [mkBomb p.1 p.2 3 i]) s)
       ∨ (r = -1 ∧ s' = s)).
Proof.
  intros Hlive Hrun. unfold perform_action in Hrun.
  step_in Hrun. injection Hcall as <- <-.
  step_in Hrun. apply lift_ok_inv in Hcall as [Hdead ->].
  unfold list_get in Hdead. rewrite Hlive in Hdead. injection Hdead as <-.
  step_in Hrun. apply lift_ok_inv in Hcall as [Hp ->].
  unfold list_get in Hp. destruct (agent_positions s !! i) as [p|] eqn:Hpos; [|done].
  injection Hp as <-. exists p. split; [done|].
  unfold free_cell, move_to, grid_at, bind, get, lift, modify, ret, list_set in Hrun.
  unfold destination.
  repeat (case_match; simplify_eq; try done);
    repeat match goal with
           | H : _ && _ = true |- _ => apply andb_prop in H as [? ?]
           | H : (_ =? _) = true |- _ => apply Z.eqb_eq in H; subst
           end;
    cbn [Z.eqb Pos.eqb]; try (by right; right);
    try (left; repeat split; (lia || by destruct s));
    try (right; left; repeat split; by destruct s).
Qed.

(** X3 on a move up from (2, 2) on an empty grid. *)
Lemma perform_action_reward_witness :
  ∃ p, agent_positions (scenario EMPTY_GRID [(2, 2)] [] [3]) !! 0%nat = Some p
       ∧ p = (2, 2).
Proof.
  destruct (perform_action_reward
              (scenario EMPTY_GRID [(2, 2)] [] [3])
              (set_agent_positions [(1, 2)] (scenario EMPTY_GRID [(2, 2)] [] [3]))
              0 ACTION_UP 5)
    as (p & Hp & _); [reflexivity | vm_compute; reflexivity |].
  exists p. split; [exact Hp|]. by injection Hp as <-.
Defined.

(** ** [explode_bomb]: lives and flags (lines 129-149) *)

Lemma explode_bomb_vitals_facts (s : BombermanGame) (bomb : Bomb) :
  state_wf s → vitals_consistent s →
  ∃ g' ls gos,
    explode_bomb bomb s = Ok (tt, set_game_over gos (set_lives ls (set_grid g' s)))
    ∧ grid_wf g'
    ∧ length ls = length (lives s)
    ∧ length gos = length (game_over s)
    ∧ vitals_consistent (set_game_over gos (set_lives ls (set_grid g' s)))
    ∧ (∀ i l l' dead,
         lives s !! i = Some l → ls !! i = Some l' →
         game_over s !! i = Some dead →
         l - 1 ≤ l' ≤ l
         ∧ (dead = true → l' = l ∧ gos !! i = Some true)).
Proof.
  intros [Hwf Hv] Hcons.
  destruct (explode_bomb_spec s bomb Hwf Hv)
    as (affected & g' & ls & gos & _ & Hrun & Hwf' & Hls & Hgos & Hvit).
  destruct Hv as [Hv1 Hv2].
  assert (Hget : ∀ i l dead, lives s !! i = Some l → game_over s !! i = Some dead →
            ∃ p, ls !! i = Some (lives_after (hit affected p dead) l)
                 ∧ gos !! i = Some (game_over_after (hit affected p dead) l dead)).
  { intros i l dead Hl Hd.
    destruct (lookup_lt_is_Some_2 (agent_positions s) i) as [p Hp].
    { apply lookup_lt_Some in Hl. lia. }
    exists p. by apply Hvit. }
  exists g', ls, gos. split; [done|]. split; [done|]. split; [done|].
  split; [done|]. split.
  - intros i l' dead' Hl' Hd'. cbn in Hl', Hd'.
    destruct (lookup_lt_is_Some_2 (lives s) i) as [l Hl].
    { apply lookup_lt_Some in Hl'. lia. }
    destruct (lookup_lt_is_Some_2 (game_over s) i) as [dead Hd].
    { apply lookup_lt_Some in Hd'. lia. }
    destruct (Hcons i l dead Hl Hd) as [Hrange ->].
    destruct (Hget i l _ Hl Hd) as (p & Hls' & Hgos').
    rewrite Hls' in Hl'. rewrite Hgos' in Hd'.
    injection Hl' as <-. injection Hd' as <-.
    unfold lives_after, game_over_after, hit.
    destruct (bool_decide (p ∈ affected)); cbn [andb].
    + case_bool_decide; cbn [negb andb].
      * split; [lia|]. rewrite bool_decide_eq_true_2; [done | lia].
      * destruct (Z.leb_spec (l - 1) 0).
        -- split; [lia|]. rewrite bool_decide_eq_true_2; [done | lia].
        -- split; [lia|]. rewrite bool_decide_eq_false_2; [done | lia].
    + split; [lia|]. done.
  - intros i l l' dead Hl Hl' Hd.
    destruct (Hget i l dead Hl Hd) as (p & Hls' & Hgos').
    rewrite Hls' in Hl'. injection Hl' as <-.
    unfold lives_after, game_over_after, hit in *.
    split.
    + destruct (_ && _); lia.
    + intros ->. rewrite andb_false_r in *. done.
Qed.

(** X4. On a well-formed state with consistent lives and flags an
    explosion succeeds and keeps them consistent: lives stay between 0 and
    3 and an agent is flagged exactly when it has no life left.  No agent
    loses more than one life, an eliminated agent loses none and stays
    eliminated, and the explosion touches neither the other bombs (there is
    no chain reaction) nor positions, scores and tables. *)
Theorem explode_bomb_keeps_vitals (s : BombermanGame) (bomb : Bomb) :
  state_wf s → vitals_consistent s →
  ∃ s',
    explode_bomb bomb s = Ok (tt, s')
    ∧ state_wf s' ∧ vitals_consistent s'
    ∧ bombs s' = bombs s
    ∧ agent_positions s' = agent_positions s
    ∧ scores s' = scores s
    ∧ agents s' = agents s
    ∧ (∀ i l l' dead,
         lives s !! i = Some l → lives s' !! i = Some l' →
         game_over s !! i = Some dead →
         l - 1 ≤ l' ≤ l
         ∧ (dead = true → l' = l ∧ game_over s' !! i = Some true)).
Proof.
  intros Hwf Hcons.
  destruct (explode_bomb_vitals_facts s bomb Hwf Hcons)
    as (g' & ls & gos & Hrun & Hwf' & Hls & Hgos & Hcons' & Hmono).
  eexists. split; [exact Hrun|].
  destruct Hwf as [_ [Hv1 Hv2]].
  split; [|split; [done|]].
  - split; [done|]. split; cbn; congruence.
  - split; [done|]. split; [done|]. split; [done|]. split; [done|].
    intros i l l' dead Hl Hl' Hd. by apply (Hmono i l l' dead).
Qed.

(** X4 on an agent with one life left standing next to the bomb. *)
Lemma explode_bomb_keeps_vitals_witness :
  ∃ s', explode_bomb (mkBomb 2 3 0 0)
          (scenario EMPTY_GRID [(2, 2); (5, 5)] [mkBomb 9 9 3 1] [1; 3])
        = Ok (tt, s')
        ∧ vitals_consistent s'
        ∧ bombs s' = [mkBomb 9 9 3 1].
Proof.
  destruct (explode_bomb_keeps_vitals
              (scenario EMPTY_GRID [(2, 2); (5, 5)] [mkBomb 9 9 3 1] [1; 3])
              (mkBomb 2 3 0 0))
    as (s' & Hrun & _ & Hcons & Hbombs & _).
  - split; [concrete_wf | split; reflexivity].
  - intros i l dead Hl Hd.
    destruct i as [|[|i]]; cbn in Hl, Hd; try discriminate;
      injection Hl as <-; injection Hd as <-; split; (lia || reflexivity).
  - exists s'. split; [exact Hrun|]. split; [exact Hcons | exact Hbombs].
Defined.

(** ** Saving and loading tables (lines 42-52, 72-80, 207-208) *)

Lemma load_all_from (fresh : list QLearningAgent) :
  ∀ (ags : list QLearningAgent) (i : nat) (m : gmap string NpyFile),
    length fresh = length ags →
    (∀ k a, ags !! k = Some a →
            m !! qtable_filename (i + k) = Some (NpyArray (q_table a))) →
    load_all i fresh m
    = Ok (zip_with (λ f a, set_q_table (q_table a) f) fresh ags).
Proof.
  induction fresh as [|f fresh IH]; intros [|a ags] i m Hlen Hm; try done.
  cbn [load_all zip_with]. unfold load_q_table, np_load.
  rewrite <- (Nat.add_0_r i) at 1. rewrite (Hm 0%nat a) by done. cbn [bindR].
  rewrite (IH ags (S i) m); [done | by injection Hlen|].
  intros k b Hk. replace (S i + k)%nat with (i + S k)%nat by lia. by apply Hm.
Qed.

Lemma zip_with_tables (fresh ags : list QLearningAgent) :
  length fresh = length ags →
  q_table <$> zip_with (λ f a, set_q_table (q_table a) f) fresh ags
  = q_table <$> ags.
Proof.
  revert ags. induction fresh as [|f fresh IH]; intros [|a ags] Hlen; try done.
  cbn. f_equal. apply IH. by injection Hlen.
Qed.

(** X5. Saving and loading are inverse to each other under a name that
    ends with [.npy]: the table saved is the table a load of that name
    installs, whatever its shape.  Under a name without the suffix the save
    goes to the name with [.npy] appended, from where it can be loaded, and
    a load of the name as given sees what it saw before the save.  The
    names of the program end with [.npy]; so, for the whole game: after the
    tables of the agents have been saved (as at the end of an episode),
    constructing a new game of as many agents on the resulting files
    succeeds, and its agents hold exactly the saved tables, in order. *)
Theorem tables_survive_restart :
  (∀ (a b : QLearningAgent) (filename : string) (fs : gmap string NpyFile),
     (endswith filename ".npy" = true →
      load_q_table b filename (save_q_table a filename fs)
      = Ok (set_q_table (q_table a) b))
     ∧ (endswith filename ".npy" = false →
        load_q_table b filename (save_q_table a filename fs)
        = load_q_table b filename fs
        ∧ load_q_table b (filename +:+ ".npy") (save_q_table a filename fs)
          = Ok (set_q_table (q_table a) b)))
  ∧ (∀ i : nat, endswith (qtable_filename i) ".npy" = true)
  ∧ (∀ (ags : list QLearningAgent) (s : BombermanGame) (max_episodes : Z)
       (r1 r2 : Rng),
       ∃ s1 g,
         save_all 0 ags s = Ok (tt, s1)
         ∧ BombermanGame_init (length ags) max_episodes r1 r2 (files s1) = Ok g
         ∧ q_table <$> agents g = q_table <$> ags).
Proof.
  split; [|split].
  - intros a b filename fs. split.
    + intros Hsuffix. unfold load_q_table, np_load, save_q_table, npy_name.
      by rewrite Hsuffix, lookup_insert_eq.
    + intros Hsuffix. split.
      * unfold load_q_table, np_load, save_q_table.
        by rewrite lookup_insert_ne by (by apply npy_name_without_suffix).
      * unfold load_q_table, np_load, save_q_table, npy_name.
        by rewrite Hsuffix, lookup_insert_eq.
  - apply endswith_qtable_filename.
  - intros ags s max_episodes r1 r2.
    eexists _, _. split; [apply save_all_spec|].
    unfold BombermanGame_init. cbn [files set_files].
    rewrite (load_all_from _ ags 0).
    + cbn [bindR]. split; [reflexivity|]. cbn [agents].
      apply zip_with_tables. by rewrite length_fmap, length_seq.
    + by rewrite length_fmap, length_seq.
    + intros k a Hk. by apply saved_files_lookup.
Qed.

(** X5 on the names [table.npy] and [table]: a load sees the first save
    and not the second. *)
Lemma tables_survive_restart_witness :
  load_q_table (QLearningAgent_init 300 5 0) "table.npy"
    (save_q_table (set_q_table [[1%float]] (QLearningAgent_init 300 5 0))
       "table.npy" ∅)
  = Ok (set_q_table [[1%float]] (QLearningAgent_init 300 5 0))
  ∧ load_q_table (QLearningAgent_init 300 5 0) "table"
      (save_q_table (set_q_table [[1%float]] (QLearningAgent_init 300 5 0))
         "table" ∅)
    = Ok (QLearningAgent_init 300 5 0).
Proof.
  destruct tables_survive_restart as (Hround & _ & _).
  split.
  - apply (proj1 (Hround (set_q_table [[1%float]] (QLearningAgent_init 300 5 0))
                     (QLearningAgent_init 300 5 0) "table.npy" ∅)).
    reflexivity.
  - destruct (proj2 (Hround (set_q_table [[1%float]] (QLearningAgent_init 300 5 0))
                       (QLearningAgent_init 300 5 0) "table" ∅) eq_refl)
      as [Hsame _].
    rewrite Hsame. reflexivity.
Defined.

(** ** [BombermanGame.__init__] (lines 56-80) *)

Lemma load_all_outcome (fresh : list QLearningAgent) :
  ∀ (i : nat) (fs : gmap string NpyFile),
    ((∀ k, (k < length fresh)%nat → fs !! qtable_filename (i + k) ≠ Some NotNpy) →
     ∃ loaded,
       load_all i fresh fs = Ok loaded
       ∧ length loaded = length fresh
       ∧ ∀ k f, fresh !! k = Some f →
                loaded !! k
                = Some match fs !! qtable_filename (i + k) with
                       | Some (NpyArray t) => set_q_table t f
                       | _ => f
                       end)
    ∧ (∀ k, (k < length fresh)%nat →
            fs !! qtable_filename (i + k) = Some NotNpy →
            load_all i fresh fs = Raise ValueError).
Proof.
  induction fresh as [|f fresh IH]; intros i fs.
  - split; [|intros k Hk; cbn in Hk; lia].
    intros _. exists []. by repeat split.
  - destruct (IH (S i) fs) as [IHok IHbad]. split.
    + intros Hgood.
      destruct IHok as (loaded & Hrun & Hlen & Hent).
      { intros k Hk. replace (S i + k)%nat with (i + S k)%nat by lia.
        apply Hgood. cbn. lia. }
      pose proof (Hgood 0%nat ltac:(cbn; lia)) as H0. rewrite Nat.add_0_r in H0.
      cbn [load_all]. unfold load_q_table, np_load.
      destruct (fs !! qtable_filename i) as [[t|]|] eqn:Hfile; [| done |].
      * cbn [bindR]. rewrite Hrun. cbn [bindR]. eexists. split; [done|].
        split; [cbn; by rewrite Hlen|].
        intros [|k] f' Hk; cbn in Hk.
        -- injection Hk as <-. by rewrite Nat.add_0_r, Hfile.
        -- replace (i + S k)%nat with (S i + k)%nat by lia. cbn. by apply Hent.
      * cbn [bindR]. rewrite Hrun. cbn [bindR]. eexists. split; [done|].
        split; [cbn; by rewrite Hlen|].
        intros [|k] f' Hk; cbn in Hk.
        -- injection Hk as <-. by rewrite Nat.add_0_r, Hfile.
        -- replace (i + S k)%nat with (S i + k)%nat by lia. cbn. by apply Hent.
    + intros [|k] Hk Hbad.
      * rewrite Nat.add_0_r in Hbad. cbn [load_all].
        unfold load_q_table, np_load. by rewrite Hbad.
      * replace (i + S k)%nat with (S i + k)%nat in Hbad by lia.
        cbn [load_all]. rewrite (IHbad k) by (done || cbn in Hk; lia).
        unfold load_q_table, np_load.
        by destruct (fs !! qtable_filename i) as [[t|]|].
Qed.

(** X6. The constructor raises exactly when one of the files
    [agent_1_qtable.npy], ..., [agent_n_qtable.npy] exists and cannot be
    read.  Otherwise it succeeds with [n] agents, 3 lives each, no flag
    set, and an empty grid and no positions (these come with [setup]);
    agent [i] has 5 actions and holds the table of its file if there is one,
    of whatever shape, and [ROWS * COLS] rows of 5 zeros if there is none. *)
Theorem BombermanGame_init_outcome (n : nat) (max_episodes : Z) (r1 r2 : Rng)
    (fs : gmap string NpyFile) :
  ((∀ i, (i < n)%nat → fs !! qtable_filename i ≠ Some NotNpy) →
   ∃ g,
     BombermanGame_init n max_episodes r1 r2 fs = Ok g
     ∧ num_agents g = n ∧ grid g = [] ∧ agent_positions g = [] ∧ bombs g = []
     ∧ lives g = replicate n 3 ∧ game_over g = replicate n false
     ∧ current_episode g = 0
     ∧ length (agents g) = n
     ∧ ∀ i a, agents g !! i = Some a →
              action_size a = 5 ∧ agent_id a = i
              ∧ q_table a = match fs !! qtable_filename i with
                            | Some (NpyArray t) => t
                            | _ => replicate 300 (replicate 5 0%float)
                            end)
  ∧ (∀ i, (i < n)%nat → fs !! qtable_filename i = Some NotNpy →
          BombermanGame_init n max_episodes r1 r2 fs = Raise ValueError).
Proof.
  set (fresh := (λ i, QLearningAgent_init (ROWS * COLS) (Z.of_nat (length ACTIONS)) i)
                  <$> seq 0 n).
  assert (Hlen : length fresh = n) by (subst fresh; by rewrite length_fmap, length_seq).
  destruct (load_all_outcome fresh 0 fs) as [Hok Hbad]. split.
  - intros Hgood.
    destruct Hok as (loaded & Hrun & Hlen' & Hent).
    { intros k Hk. apply Hgood. lia. }
    unfold BombermanGame_init. fold fresh. rewrite Hrun. cbn [bindR].
    eexists. split; [reflexivity|]. cbn.
    repeat (split; [done || congruence|]).
    intros i a Ha.
    assert (Hi : (i < n)%nat) by (apply lookup_lt_Some in Ha; lia).
    assert (Hf : fresh !! i
                 = Some (QLearningAgent_init (ROWS * COLS) (Z.of_nat (length ACTIONS)) i)).
    { subst fresh. rewrite list_lookup_fmap, lookup_seq_lt by done. done. }
    rewrite (Hent i _ Hf) in Ha. injection Ha as <-. cbn [Nat.add].
    by destruct (fs !! qtable_filename i) as [[t|]|].
  - intros i Hi Hfile. unfold BombermanGame_init. fold fresh.
    by rewrite (Hbad i) by (done || lia).
Qed.

(** X6 on the game of the program, 3 agents, started without any file and
    started on an unreadable file for the second agent. *)
Lemma BombermanGame_init_outcome_witness :
  (∃ g, BombermanGame_init 3 1000 (rng_const 0.5 0) (rng_const 0.5 0) ∅ = Ok g
        ∧ lives g = [3; 3; 3] ∧ grid g = [])
  ∧ BombermanGame_init 3 1000 (rng_const 0.5 0) (rng_const 0.5 0)
      {[ qtable_filename 1 := NotNpy ]} = Raise ValueError.
Proof.
  split.
  - destruct (BombermanGame_init_outcome 3 1000 (rng_const 0.5 0)
                (rng_const 0.5 0) ∅) as [Hok _].
    destruct Hok as (g & Hrun & _ & Hgrid & _ & _ & Hlives & _).
    { intros i _. by rewrite lookup_empty. }
    exists g. split; [exact Hrun|]. split; [exact Hlives | exact Hgrid].
  - refine (proj2 (BombermanGame_init_outcome 3 1000 _ _ _) 1%nat _ _);
      [lia | apply lookup_singleton_eq].
Defined.

(** X7. [on_update] needs [setup]: on the game the constructor returns,
    with at least one agent, the first call of [on_update] that passes the
    time gate raises [IndexError], the agents having no position yet. *)
Theorem on_update_before_setup (n : nat) (max_episodes : Z) (r1 r2 : Rng)
    (fs : gmap string NpyFile) (g : BombermanGame) (delta_time : float) :
  (1 ≤ n)%nat →
  BombermanGame_init n max_episodes r1 r2 fs = Ok g →
  PrimFloat.ltb (PrimFloat.add 0 delta_time) f_0_5 = false →
  on_update delta_time g = Raise IndexError.
Proof.
  intros Hn Hinit Hgate. unfold BombermanGame_init in Hinit.
  destruct (load_all _ _ _) as [loaded|]; [|done].
  injection Hinit as <-.
  rewrite on_update_gate. cbn [time_accumulator update_interval].
  rewrite Hgate. cbv zeta.
  destruct n as [|n]; [lia|]. reflexivity.
Qed.

(** X7 on the game of the program and a frame of one second. *)
Lemma on_update_before_setup_witness :
  ∃ g, BombermanGame_init 3 1000 (rng_const 0.5 0) (rng_const 0.5 0) ∅ = Ok g
       ∧ on_update 1 g = Raise IndexError.
Proof.
  eexists. split; [vm_compute; reflexivity|].
  eapply (on_update_before_setup 3 1000 (rng_const 0.5 0) (rng_const 0.5 0) ∅);
    [lia | vm_compute; reflexivity | reflexivity].
Defined.

(** ** [choose_action] (lines 29-33) *)

Lemma SFltb_trans (a b c : spec_float) :
  SFltb a b = true → SFltb b c = true → SFltb a c = true.
Proof.
  unfold SFltb.
  destruct a as [sa | sa | | sa ma ea], b as [sb | sb | | sb mb eb],
           c as [sc | sc | | sc mc ec]; cbn [SFcompare]; try done;
    repeat match goal with s : bool |- _ => destruct s end; try done; sf_cases.
Qed.

Lemma SFleb_ltb_ltb (a b c : spec_float) :
  SFleb a b = true → SFltb b c = true → SFltb a c = true.
Proof.
  unfold SFleb, SFltb.
  destruct a as [sa | sa | | sa ma ea], b as [sb | sb | | sb mb eb],
           c as [sc | sc | | sc mc ec]; cbn [SFcompare]; try done;
    repeat match goal with s : bool |- _ => destruct s end; try done; sf_cases.
Qed.

Lemma float_ltb_trans (x y z : float) :
  PrimFloat.ltb x y = true → PrimFloat.ltb y z = true → PrimFloat.ltb x z = true.
Proof. rewrite !FloatAxioms.ltb_spec. apply SFltb_trans. Qed.

Lemma float_leb_ltb_ltb (x y z : float) :
  PrimFloat.leb x y = true → PrimFloat.ltb y z = true → PrimFloat.ltb x z = true.
Proof.
  rewrite FloatAxioms.leb_spec, !FloatAxioms.ltb_spec. apply SFleb_ltb_ltb.
Qed.

(** The scan of [np.argmax]: [pre] are the entries already seen, [best] the
    entry at [besti] among them that none exceeds and none before it
    equals. *)
Lemma argmax_from_spec (xs : list float) :
  ∀ (pre : list float) (best : float) (besti : nat),
    Forall (λ x, PrimFloat.is_nan x = false) (pre ++ xs) →
    pre !! besti = Some best →
    Forall (λ y, PrimFloat.leb y best = true) pre →
    (∀ j y, (j < besti)%nat → pre !! j = Some y → PrimFloat.ltb y best = true) →
    ∃ k x,
      argmax_from best (Z.of_nat besti) (Z.of_nat (length pre)) xs = Z.of_nat k
      ∧ (pre ++ xs) !! k = Some x
      ∧ Forall (λ y, PrimFloat.leb y x = true) (pre ++ xs)
      ∧ (∀ j y, (j < k)%nat → (pre ++ xs) !! j = Some y →
                PrimFloat.ltb y x = true).
Proof.
  induction xs as [|x xs IH]; intros pre best besti Hnan Hbest Hle Hfirst.
  - exists besti, best. rewrite app_nil_r. by repeat split.
  - assert (Hnb : PrimFloat.is_nan best = false).
    { eapply Forall_forall in Hnan; [exact Hnan|].
      apply elem_of_app. left. by eapply list_elem_of_lookup_2. }
    assert (Hnx : PrimFloat.is_nan x = false).
    { eapply Forall_forall in Hnan; [exact Hnan|].
      apply elem_of_app. right. apply elem_of_cons. by left. }
    cbn [argmax_from]. rewrite Hnb, Hnx. cbn [negb andb orb].
    replace (Z.of_nat (length pre) + 1) with (Z.of_nat (length (pre ++ [x])))
      by (rewrite length_app; cbn; lia).
    replace (pre ++ x :: xs) with ((pre ++ [x]) ++ xs) in *
      by (by rewrite <- app_assoc).
    destruct (PrimFloat.ltb best x) eqn:Hlt.
    + apply (IH (pre ++ [x]) x (length pre)); [done | | |].
      * rewrite lookup_app_r by lia. by rewrite Nat.sub_diag.
      * apply Forall_app. split.
        -- eapply Forall_impl; [exact Hle|]. intros y Hy.
           by apply (float_leb_ltb_trans y best x).
        -- apply Forall_singleton. by apply float_leb_refl.
      * intros j y Hj Hy. rewrite lookup_app_l in Hy by done.
        apply (float_leb_ltb_ltb y best x); [|done].
        eapply Forall_forall in Hle; [exact Hle|]. by eapply list_elem_of_lookup_2.
    + apply (IH (pre ++ [x]) best besti); [done | | |].
      * rewrite lookup_app_l; [done|]. by eapply lookup_lt_Some.
      * apply Forall_app. split; [done|].
        apply Forall_singleton. by apply float_leb_total.
      * intros j y Hj Hy. apply (Hfirst j y Hj).
        rewrite lookup_app_l in Hy; [done|].
        apply lookup_lt_Some in Hbest. lia.
Qed.

(** X8. The greedy branch.  When the draw is not below [epsilon] and
    [state] indexes a row without NaN, [choose_action] consumes that one
    draw and returns the index of the first maximum of the row: no entry of
    the row exceeds the entry at that index, and every entry before it is
    strictly smaller.  Ties are broken towards the lowest action. *)
Theorem choose_action_greedy (a : QLearningAgent) (state : Z) (g : Rng)
    (row : list float) :
  PrimFloat.ltb (draws g (cursor g)) (epsilon a) = false →
  0 ≤ state →
  q_table a !! Z.to_nat state = Some row →
  row ≠ [] →
  Forall (λ x, PrimFloat.is_nan x = false) row →
  ∃ k x,
    choose_action a state g = Ok (Z.of_nat k, rng_advance 1 g)
    ∧ row !! k = Some x
    ∧ Forall (λ y, PrimFloat.leb y x = true) row
    ∧ (∀ j y, (j < k)%nat → row !! j = Some y → PrimFloat.ltb y x = true).
Proof.
  intros Hdraw Hstate Hrow Hne Hnan.
  destruct row as [|x0 xs]; [done|].
  destruct (argmax_from_spec xs [x0] x0 0) as (k & x & Hk & Hx & Hle & Hfirst).
  - done.
  - done.
  - apply Forall_singleton, float_leb_refl.
    by apply Forall_cons in Hnan as [? _].
  - intros j y Hj. lia.
  - exists k, x. split; [|done].
    unfold choose_action, rng_random. rewrite Hdraw.
    rewrite (py_index_in_range _ _ (x0 :: xs)) by done.
    cbn [bindR np_argmax].
    change (argmax_from x0 0 1 xs = Z.of_nat k) in Hk. by rewrite Hk.
Qed.

(** X8 on a row with its maximum 2 at the actions 1 and 3. *)
Lemma choose_action_greedy_witness :
  ∃ k, choose_action (mkAgent 1 5 [[1; 2; 0; 2; 1]]%float f_0_1 f_0_9 f_0_1 0) 0
         (rng_const 0.5 0) = Ok (Z.of_nat k, rng_advance 1 (rng_const 0.5 0))
       ∧ k = 1%nat.
Proof.
  destruct (choose_action_greedy
              (mkAgent 1 5 [[1; 2; 0; 2; 1]]%float f_0_1 f_0_9 f_0_1 0) 0
              (rng_const 0.5 0) [1; 2; 0; 2; 1]%float)
    as (k & x & Hrun & _);
    [reflexivity | lia | reflexivity | discriminate | repeat constructor |].
  exists k. split; [exact Hrun|].
  assert (Hone : choose_action
                   (mkAgent 1 5 [[1; 2; 0; 2; 1]]%float f_0_1 f_0_9 f_0_1 0) 0
                   (rng_const 0.5 0) = Ok (1, rng_advance 1 (rng_const 0.5 0)))
    by reflexivity.
  rewrite Hone in Hrun. injection Hrun as Hk. lia.
Defined.

(** X9. The exploring branch.  When the draw is below [epsilon] and the
    agent has at least one action, [choose_action] consumes two draws and
    returns an action in [[0, action_size)]; the table is not read, so this
    holds for every state.  With no action ([action_size <= 0]) the branch
    raises [ValueError]. *)
Theorem choose_action_explore (a : QLearningAgent) (state : Z) (g : Rng) :
  PrimFloat.ltb (draws g (cursor g)) (epsilon a) = true →
  (0 < action_size a →
   ∃ action,
     choose_action a state g = Ok (action, rng_advance 2 g)
     ∧ 0 ≤ action < action_size a)
  ∧ (action_size a ≤ 0 → choose_action a state g = Raise ValueError).
Proof.
  intros Hdraw. unfold choose_action, rng_random, rng_randint. rewrite Hdraw.
  cbn [cursor draws ints]. split.
  - intros Hpos. rewrite (proj2 (Z.leb_gt _ _)) by lia.
    eexists. split; [reflexivity|]. by apply Z.mod_pos_bound.
  - intros Hnone. by rewrite (proj2 (Z.leb_le _ _)).
Qed.

(** X9 on a generator whose draws are all 0.0625 and whose integers are 7. *)
Lemma choose_action_explore_witness :
  ∃ action,
    choose_action (QLearningAgent_init 300 5 0) 9999
      (mkRng (λ _, 0.0625%float) (λ _, 7) 0)
    = Ok (action, rng_advance 2 (mkRng (λ _, 0.0625%float) (λ _, 7) 0))
    ∧ 0 ≤ action < 5.
Proof.
  refine (proj1 (choose_action_explore (QLearningAgent_init 300 5 0) 9999
                   (mkRng (λ _, 0.0625%float) (λ _, 7) 0) _) _);
    [reflexivity | reflexivity].
Defined.

(** ** The simulation never fails (lines 182-209) *)

Lemma same_config_refl (s : BombermanGame) : same_config s s.
Proof. by repeat split. Qed.

Lemma same_config_trans (s1 s2 s3 : BombermanGame) :
  same_config s1 s2 → same_config s2 s3 → same_config s1 s3.
Proof.
  intros (? & ? & ? & ?) (? & ? & ? & ?). repeat split; congruence.
Qed.

Lemma argmax_from_range (xs : list float) :
  ∀ (best : float) (besti i : Z),
    0 ≤ besti < i →
    0 ≤ argmax_from best besti i xs < i + Z.of_nat (length xs).
Proof.
  induction xs as [|x xs IH]; intros best besti i Hi; cbn [argmax_from length].
  - lia.
  - destruct (_ && _).
    + specialize (IH x i (i + 1)). lia.
    + specialize (IH best besti (i + 1)). lia.
Qed.

Lemma table_wf_row (t : QTable) (state : Z) :
  table_wf t → 0 ≤ state < 300 →
  ∃ row, t !! Z.to_nat state = Some row ∧ length row = 5%nat.
Proof.
  intros [Hlen Hall] Hstate. rewrite ROWS_eq, COLS_eq in Hlen.
  destruct (lookup_lt_is_Some_2 t (Z.to_nat state)) as [row Hrow]; [lia|].
  exists row. split; [done|]. by eapply Forall_lookup_1 in Hall.
Qed.

Lemma choose_action_total (a : QLearningAgent) (state : Z) (g : Rng) :
  agent_wf a → 0 ≤ state < 300 →
  ∃ action g', choose_action a state g = Ok (action, g') ∧ 0 ≤ action < 5.
Proof.
  intros [Hsize Htable] Hstate.
  destruct (table_wf_row _ _ Htable Hstate) as (row & Hrow & Hlen).
  unfold choose_action, rng_random, rng_randint.
  destruct (PrimFloat.ltb _ _).
  - rewrite Hsize. cbn. eexists _, _. split; [reflexivity|].
    by apply Z.mod_pos_bound.
  - rewrite (py_index_in_range _ _ row) by (done || lia). cbn [bindR].
    destruct row as [|x xs]; [done|]. cbn [np_argmax bindR].
    eexists _, _. split; [reflexivity|].
    pose proof (argmax_from_range xs x 0 1 ltac:(lia)) as Hr.
    cbn [length] in Hlen. lia.
Qed.

Lemma update_total (a : QLearningAgent) (state action reward next_state : Z) :
  agent_wf a → 0 ≤ state < 300 → 0 ≤ action < 5 → 0 ≤ next_state < 300 →
  PrimFloat.is_infinity (float_of_Z reward) = false →
  ∃ a', update a state action reward next_state = Ok a' ∧ agent_wf a'.
Proof.
  intros [Hsize Htable] Hstate Haction Hnext Hfinite.
  destruct (table_wf_row _ _ Htable Hstate) as (row & Hrow & Hlen).
  destruct (table_wf_row _ _ Htable Hnext) as (next_row & Hnrow & Hnlen).
  destruct (lookup_lt_is_Some_2 row (Z.to_nat action)) as [q Hq]; [lia|].
  unfold update.
  rewrite (py_index_in_range _ _ next_row) by (done || lia). cbn [bindR].
  destruct next_row as [|m0 ms]; [done|]. cbn [np_max bindR].
  rewrite (py_index_in_range _ _ row) by (done || lia). cbn [bindR].
  rewrite (py_index_in_range _ _ q) by (done || lia). cbn [bindR].
  unfold float_of_int. rewrite Hfinite. cbn [bindR].
  rewrite py_setitem_in_range by lia. cbn [bindR].
  rewrite py_setitem_in_range by (apply lookup_lt_Some in Hrow; lia).
  cbn [bindR]. eexists. split; [reflexivity|].
  split; [done|]. destruct Htable as [Hrows Hall]. split; cbn.
  - by rewrite length_insert.
  - apply Forall_insert; [done|]. by rewrite length_insert.
Qed.

Lemma game_inv_get_state (s : BombermanGame) (i : nat) :
  game_inv s → (i < num_agents s)%nat →
  ∃ p, agent_positions s !! i = Some p ∧ in_bounds p
       ∧ get_state i s = Ok (p.1 * COLS + p.2, s)
       ∧ 0 ≤ p.1 * COLS + p.2 < 300.
Proof.
  intros Hinv Hi. destruct Hinv.
  destruct (lookup_lt_is_Some_2 (agent_positions s) i) as [p Hp]; [lia|].
  assert (Hin : in_bounds p) by (by eapply Forall_lookup_1 in inv_in_bounds0).
  exists p. split; [done|]. split; [done|]. split.
  - unfold get_state, bind, get, lift, list_get, ret. by rewrite Hp.
  - destruct Hin as [? ?]. rewrite ROWS_eq, COLS_eq in *. lia.
Qed.

Lemma game_inv_moved (s : BombermanGame) (ps : list (Z * Z)) (bs : list Bomb) :
  game_inv s → length ps = num_agents s → Forall in_bounds ps →
  game_inv (set_bombs bs (set_agent_positions ps s)).
Proof. intros [] Hlen Hin. by constructor. Qed.

Lemma game_inv_perform_action (s : BombermanGame) (i : nat) (action : Z) :
  game_inv s → (i < num_agents s)%nat →
  game_over s !! i = Some false →
  0 ≤ action < 5 →
  ∃ r s', perform_action i action s = Ok (r, s')
          ∧ game_inv s' ∧ same_config s s' ∧ agents s' = agents s
          ∧ (r = 5 ∨ r = 0 ∨ r = -1).
Proof.
  intros Hinv Hi Hlive Haction.
  destruct (game_inv_get_state s i Hinv Hi) as (p & Hp & Hin & _).
  assert (Hrun : ∃ r s', perform_action i action s = Ok (r, s')
                         ∧ (r = 5 ∨ r = 0 ∨ r = -1)).
  { destruct (decide (action = 4)) as [-> | Hne].
    - rewrite (perform_action_place_bomb s i p) by done. eauto 6.
    - rewrite (perform_action_move_eq s i action p);
        [| by destruct Hinv | done | done | done | lia].
      destruct (_ && _); eauto 6. }
  destruct Hrun as (r & s' & Hrun & Hr). exists r, s'. split; [done|].
  pose proof (perform_action_length _ _ _ _ _ Hrun) as Hlen.
  pose proof (perform_action_in_bounds _ _ _ _ _
                ltac:(by destruct Hinv) Hrun) as Hin'.
  apply perform_action_frame in Hrun. rewrite Hrun.
  split; [|split; [by repeat split | by split]].
  apply game_inv_moved; [done | | done]. destruct Hinv. congruence.
Qed.

(** The rewards of [perform_action] convert to finite doubles. *)
Lemma reward_finite (r : Z) :
  r = 5 ∨ r = 0 ∨ r = -1 → PrimFloat.is_infinity (float_of_Z r) = false.
Proof. by intros [-> | [-> | ->]]. Qed.

Lemma agent_turn_safe (s : BombermanGame) (i : nat) :
  game_inv s → (i < num_agents s)%nat →
  ∃ s', agent_turn i s = Ok (tt, s') ∧ game_inv s' ∧ same_config s s'.
Proof.
  intros Hinv Hi.
  destruct (lookup_lt_is_Some_2 (game_over s) i) as [dead Hdead].
  { destruct Hinv. lia. }
  destruct dead.
  { exists s. rewrite agent_turn_eliminated by done.
    split; [done|]. split; [done | apply same_config_refl]. }
  destruct (game_inv_get_state s i Hinv Hi) as (p & Hp & Hin & Hstate & Hrange).
  destruct (lookup_lt_is_Some_2 (agents s) i) as [agent Hagent].
  { destruct Hinv. lia. }
  assert (Hawf : agent_wf agent).
  { destruct Hinv. by eapply Forall_lookup_1 in inv_tables0. }
  destruct (choose_action_total agent _ (np_random_state s) Hawf Hrange)
    as (action & g' & Hchoose & Haction).
  set (s1 := set_np_random_state g' s).
  assert (Hinv1 : game_inv s1) by (by destruct Hinv).
  destruct (game_inv_perform_action s1 i action Hinv1 Hi Hdead Haction)
    as (r & s2 & Hact & Hinv2 & Hcfg2 & Hag2 & Hr).
  assert (Hi2 : (i < num_agents s2)%nat) by (destruct Hcfg2 as [-> _]; done).
  destruct (game_inv_get_state s2 i Hinv2 Hi2) as (p2 & _ & _ & Hstate2 & Hrange2).
  destruct (update_total agent _ action r _ Hawf Hrange Haction Hrange2
              (reward_finite r Hr))
    as (agent' & Hupd & Hawf').
  eexists. split.
  { unfold agent_turn. unfold bind at 1, get. unfold bind at 1, lift, list_get.
    rewrite Hdead. unfold bind at 1. rewrite Hstate.
    unfold bind at 1. rewrite Hagent.
    unfold bind at 1. rewrite Hchoose.
    unfold bind at 1, modify. cbn [fst snd]. fold s1.
    unfold bind at 1. rewrite Hact.
    unfold bind at 1. rewrite Hstate2.
    unfold bind at 1. unfold bind at 1. rewrite Hag2. cbn [agents set_np_random_state s1].
    rewrite Hagent. unfold bind at 1. rewrite Hupd. reflexivity. }
  split.
  - destruct Hinv2. constructor; try done; cbn.
    + by rewrite length_insert.
    + by apply Forall_insert.
  - destruct Hcfg2 as (? & ? & ? & ?). by repeat split.
Qed.

Lemma agents_loop_safe (ids : list nat) :
  ∀ s : BombermanGame,
    game_inv s → Forall (λ i, (i < num_agents s)%nat) ids →
    ∃ s', agents_loop ids s = Ok (tt, s') ∧ game_inv s' ∧ same_config s s'.
Proof.
  induction ids as [|i ids IH]; intros s Hinv Hids.
  - exists s. split; [done|]. split; [done | apply same_config_refl].
  - apply Forall_cons in Hids as [Hi Hids].
    destruct (agent_turn_safe s i Hinv Hi) as (s1 & Hturn & Hinv1 & Hcfg1).
    destruct (IH s1 Hinv1) as (s' & Hloop & Hinv' & Hcfg').
    { destruct Hcfg1 as [-> _]. done. }
    exists s'. cbn [agents_loop]. unfold bind. rewrite Hturn, Hloop.
    split; [done|]. split; [done | by eapply same_config_trans].
Qed.

(** A property that explosions and assignments to [self.bombs] keep is kept
    by the whole loop over the bombs. *)
Lemma bombs_loop_invariant (I : BombermanGame → Prop) :
  (∀ l s, I s → I (set_bombs l s)) →
  (∀ b s s', I s → explode_bomb b s = Ok (tt, s') → I s') →
  ∀ (snapshot live : list (nat * Bomb)) (s s' : BombermanGame),
    I s → bombs_loop snapshot live s = Ok (tt, s') → I s'.
Proof.
  intros Hset Hboom snapshot.
  induction snapshot as [|kb rest IH]; intros live s s' HI Hrun.
  - by injection Hrun as <-.
  - cbn [bombs_loop] in Hrun.
    apply bind_ok_inv in Hrun as (x0 & s0 & H0 & Hrun). injection H0 as <- <-.
    apply bind_ok_inv in Hrun as (x1 & s1 & H1 & Hrun). injection H1 as _ <-.
    destruct (PrimFloat.leb _ _).
    + apply bind_ok_inv in Hrun as ([] & s2 & Hboom2 & Hrun).
      apply bind_ok_inv in Hrun as (live' & s3 & H3 & Hrun).
      apply lift_ok_inv in H3 as [_ ->].
      apply bind_ok_inv in Hrun as (x4 & s4 & H4 & Hrun). injection H4 as _ <-.
      eapply IH; [|exact Hrun]. eapply Hset, Hboom; [|exact Hboom2]. by apply Hset.
    + eapply IH; [|exact Hrun]. by apply Hset.
Qed.

Lemma game_inv_explode_bomb (s0 s s' : BombermanGame) (bomb : Bomb) :
  game_inv s ∧ same_config s0 s →
  explode_bomb bomb s = Ok (tt, s') →
  game_inv s' ∧ same_config s0 s'.
Proof.
  intros [Hinv Hcfg] Hrun.
  assert (Hwf : state_wf s).
  { destruct Hinv. split; [done|]. split; congruence. }
  destruct (explode_bomb_vitals_facts s bomb Hwf ltac:(by destruct Hinv))
    as (g' & ls & gos & Hrun' & Hwf' & Hls & Hgos & Hcons' & _).
  rewrite Hrun' in Hrun. injection Hrun as <-.
  split; [|exact Hcfg].
  destruct Hinv. constructor; try done; cbn; congruence.
Qed.

Lemma tick_bombs_safe (s : BombermanGame) :
  game_inv s →
  ∃ s', tick_bombs s = Ok (tt, s') ∧ game_inv s' ∧ same_config s s'.
Proof.
  intros Hinv.
  assert (Hwf : state_wf s).
  { destruct Hinv. split; [done|]. split; congruence. }
  destruct (tick_bombs_spec s Hwf) as (s' & Hrun & _).
  exists s'. split; [done|].
  unfold tick_bombs, bind, get in Hrun.
  apply (bombs_loop_invariant (λ x, game_inv x ∧ same_config s x)) in Hrun.
  - done.
  - intros l x [Hx Hc]. split; [by destruct Hx | done].
  - intros b x x' Hx. by apply game_inv_explode_bomb.
  - split; [done | apply same_config_refl].
Qed.

Lemma vitals_consistent_fresh (n : nat) (s : BombermanGame) :
  lives s = replicate n 3 → game_over s = replicate n false →
  vitals_consistent s.
Proof.
  intros Hl Hg i l dead Hli Hdi. rewrite Hl in Hli. rewrite Hg in Hdi.
  apply lookup_replicate in Hli as [-> _].
  apply lookup_replicate in Hdi as [-> _]. split; [lia | done].
Qed.

Lemma spawn_positions_length (n : nat) : length (spawn_positions n) = n.
Proof. unfold spawn_positions. by rewrite length_fmap, length_seq. Qed.

Lemma end_episode_safe (s : BombermanGame) :
  game_inv s →
  ∃ s', end_episode s = Ok (tt, s') ∧ game_inv s' ∧ same_config s s'
        ∧ agents s' = agents s.
Proof.
  intros Hinv. destruct (forallb id (game_over s)) eqn:Hall.
  - destruct (end_episode_reset s Hall) as (g' & rng' & Hrun & Hwf).
    eexists. split; [exact Hrun|]. split; [|by repeat split].
    destruct Hinv. constructor; cbn; try done.
    + apply spawn_positions_length.
    + by apply spawn_positions_in_bounds.
    + by rewrite length_replicate.
    + by rewrite length_replicate.
    + by eapply vitals_consistent_fresh.
  - exists s. rewrite end_episode_continue by done.
    split; [done|]. split; [done|]. split; [apply same_config_refl | done].
Qed.

Lemma tick_safe (s : BombermanGame) :
  game_inv s →
  ∃ s', tick s = Ok (tt, s') ∧ game_inv s' ∧ same_config s s'.
Proof.
  intros Hinv.
  destruct (tick_bombs_safe s Hinv) as (s1 & Hbombs & Hinv1 & Hcfg1).
  destruct (agents_loop_safe (seq 0 (num_agents s1)) s1 Hinv1)
    as (s2 & Hturns & Hinv2 & Hcfg2).
  { apply Forall_forall. intros i Hi. apply elem_of_seq in Hi. lia. }
  destruct (end_episode_safe s2 Hinv2) as (s3 & Hend & Hinv3 & Hcfg3 & _).
  exists s3. split.
  - unfold tick. unfold bind at 1. rewrite Hbombs.
    unfold bind at 1, get. unfold bind at 1. by rewrite Hturns.
  - split; [done|]. eapply same_config_trans; [|exact Hcfg3].
    by eapply same_config_trans.
Qed.

Lemma on_update_safe (delta_time : float) (s : BombermanGame) :
  game_inv s →
  ∃ s', on_update delta_time s = Ok (tt, s')
        ∧ game_inv s'
        ∧ num_agents s' = num_agents s
        ∧ max_episodes s' = max_episodes s
        ∧ update_interval s' = update_interval s
        ∧ (time_accumulator s' = 0%float
           ∨ PrimFloat.ltb (time_accumulator s') (update_interval s') = true).
Proof.
  intros Hinv. rewrite on_update_gate. cbv zeta.
  destruct (PrimFloat.ltb _ _) eqn:Hgate.
  - eexists. split; [reflexivity|]. split; [by destruct Hinv|].
    repeat split; try done. by right.
  - destruct (tick_safe (set_time_accumulator 0 s)) as (s' & Hrun & Hinv' & Hcfg).
    { by destruct Hinv. }
    exists s'. split; [done|]. split; [done|].
    destruct Hcfg as (Hn & Hm & Hu & Ht). cbn in Hn, Hm, Hu, Ht.
    repeat split; try done. by left.
Qed.

(** The invariant through any number of frames. *)
Lemma run_frames_inv (frames : list float) :
  ∀ s : BombermanGame,
    game_inv s →
    ∃ s', run_frames frames s = Ok (tt, s')
          ∧ game_inv s'
          ∧ scores s' = replicate (num_agents s) 0
          ∧ num_agents s' = num_agents s
          ∧ max_episodes s' = max_episodes s
          ∧ update_interval s' = update_interval s
          ∧ (frames ≠ [] →
             time_accumulator s' = 0%float
             ∨ PrimFloat.ltb (time_accumulator s') (update_interval s') = true).
Proof.
  induction frames as [|dt frames IH]; intros s Hinv.
  - exists s. split; [done|]. split; [done|].
    split; [by destruct Hinv|]. by repeat split.
  - destruct (on_update_safe dt s Hinv) as (s1 & Hrun & Hinv1 & Hn & Hm & Hu & Ht).
    destruct (IH s1 Hinv1) as (s' & Hrun' & Hinv' & Hsc & Hn' & Hm' & Hu' & Ht').
    exists s'. cbn [run_frames]. unfold bind. rewrite Hrun, Hrun'.
    split; [done|]. split; [done|].
    repeat split; try congruence.
    intros _. destruct frames as [|dt' frames'].
    + injection Hrun' as <-. done.
    + by apply Ht'.
Qed.


(** X10. A game of at most 7 agents never fails.  From a state with a full
    grid, one position inside the grid, one life counter, one flag and one
    table of [ROWS * COLS] x 5 entries per agent, consistent lives and
    flags and scores at 0, every sequence of calls of [on_update], whatever
    the frame times and the draws of the generators, runs through without
    an exception and ends in such a state again.  In particular the scores
    stay at 0 for ever, the number of agents, [max_episodes] and the update
    interval never change, and the accumulated time is left at 0 or below
    the interval. *)
Theorem run_frames_safe (frames : list float) :
  ∀ s : BombermanGame,
    game_inv s →
    ∃ s', run_frames frames s = Ok (tt, s')
          ∧ game_inv s'
          ∧ scores s' = replicate (num_agents s) 0
          ∧ num_agents s' = num_agents s
          ∧ max_episodes s' = max_episodes s
          ∧ update_interval s' = update_interval s
          ∧ (frames ≠ [] →
             time_accumulator s' = 0%float
             ∨ PrimFloat.ltb (time_accumulator s') (update_interval s') = true).
Proof. apply run_frames_inv. Qed.

(** X10 on three frames of 0.25 s on a one-agent game with a bomb about to
    explode under the agent. *)
Lemma run_frames_safe_witness :
  ∃ s', run_frames [0.25; 0.25; 0.25]%float
          (scenario EMPTY_GRID [(2, 2)] [mkBomb 2 2 0.5 0] [1]) = Ok (tt, s')
        ∧ scores s' = [0].
Proof.
  destruct (run_frames_safe [0.25; 0.25; 0.25]%float
              (scenario EMPTY_GRID [(2, 2)] [mkBomb 2 2 0.5 0] [1]))
    as (s' & Hrun & _ & Hscores & _).
  - constructor; try reflexivity.
    + cbn. lia.
    + concrete_wf.
    + repeat constructor; cbn; lia.
    + intros i l dead Hl Hd.
      destruct i as [|i]; cbn in Hl, Hd; try discriminate.
      injection Hl as <-. injection Hd as <-. split; [lia | reflexivity].
    + repeat constructor.
  - exists s'. split; [exact Hrun | exact Hscores].
Defined.

(** ** The program as a whole (lines 56-98, 182-215) *)

Lemma setup_game_inv (s : BombermanGame) :
  (num_agents s ≤ 7)%nat →
  length (agents s) = num_agents s →
  Forall agent_wf (agents s) →
  ∃ s', setup s = Ok (tt, s') ∧ game_inv s' ∧ agents s' = agents s.
Proof.
  intros Hn Hlen Hwf.
  destruct (setup_spec s) as (g' & rng' & Hrun & Hgrid).
  eexists. split; [exact Hrun|]. split; [|done].
  constructor; cbn; try done.
  - apply spawn_positions_length.
  - by apply spawn_positions_in_bounds.
  - by rewrite length_replicate.
  - by rewrite length_replicate.
  - by eapply vitals_consistent_fresh.
Qed.

(** X11. The program runs without an exception.  With at most 7 agents,
    and each file [agent_i_qtable.npy] either missing or holding an array of
    [ROWS * COLS] rows of 5 entries, the constructor succeeds, [setup]
    succeeds, and every sequence of frames that follows runs through, for
    all draws of the two generators. *)
Theorem program_safe (n : nat) (max_episodes : Z) (r1 r2 : Rng)
    (fs : gmap string NpyFile) (frames : list float) :
  (n ≤ 7)%nat →
  (∀ i, (i < n)%nat →
        match fs !! qtable_filename i with
        | None => True
        | Some (NpyArray t) => table_wf t
        | Some NotNpy => False
        end) →
  ∃ g s s',
    BombermanGame_init n max_episodes r1 r2 fs = Ok g
    ∧ setup g = Ok (tt, s)
    ∧ run_frames frames s = Ok (tt, s')
    ∧ game_inv s ∧ game_inv s'.
Proof.
  intros Hn Hfiles.
  set (fresh := (λ i, QLearningAgent_init (ROWS * COLS) (Z.of_nat (length ACTIONS)) i)
                  <$> seq 0 n).
  assert (Hlen : length fresh = n) by (subst fresh; by rewrite length_fmap, length_seq).
  destruct (load_all_outcome fresh 0 fs) as [Hok _].
  destruct Hok as (loaded & Hload & Hlen' & Hent).
  { intros k Hk Hbad. specialize (Hfiles k ltac:(lia)).
    cbn [Nat.add] in Hbad. by rewrite Hbad in Hfiles. }
  assert (Hwf : Forall agent_wf loaded).
  { apply Forall_lookup. intros i a Ha.
    assert (Hi : (i < n)%nat) by (apply lookup_lt_Some in Ha; lia).
    assert (Hf : fresh !! i
                 = Some (QLearningAgent_init (ROWS * COLS) (Z.of_nat (length ACTIONS)) i)).
    { subst fresh. rewrite list_lookup_fmap, lookup_seq_lt by done. done. }
    rewrite (Hent i _ Hf) in Ha. injection Ha as <-. cbn [Nat.add].
    specialize (Hfiles i Hi).
    assert (Hzero : table_wf (np_zeros (ROWS * COLS) (Z.of_nat (length ACTIONS)))).
    { split; [reflexivity|]. apply Forall_replicate. reflexivity. }
    destruct (fs !! qtable_filename i) as [[t|]|]; [| done |]; by split. }
  destruct (setup_game_inv
              (mkGame n [] [] [] (replicate n 0) (replicate n 3)
                 (replicate n false) 0 max_episodes 0 f_0_5 loaded r1 r2 fs []))
    as (s & Hsetup & Hinv & _); [done | cbn; congruence | done |].
  destruct (run_frames_inv frames s Hinv) as (s' & Hrun & Hinv' & _).
  eexists _, s, s'. split; [|done].
  unfold BombermanGame_init. fold fresh. by rewrite Hload.
Qed.

(** X11 on the program as it is started: 3 agents, no file, two frames. *)
Lemma program_safe_witness :
  ∃ g s s',
    BombermanGame_init 3 1000 (rng_const 0.5 0) (rng_const 0.5 0) ∅ = Ok g
    ∧ setup g = Ok (tt, s)
    ∧ run_frames [0.5; 0.5]%float s = Ok (tt, s').
Proof.
  destruct (program_safe 3 1000 (rng_const 0.5 0) (rng_const 0.5 0) ∅
              [0.5; 0.5]%float)
    as (g & s & s' & Hinit & Hsetup & Hrun & _).
  - lia.
  - intros i _. by rewrite lookup_empty.
  - by exists g, s, s'.
Defined.

(** ** [setup]: the draws it takes (lines 82-98) *)

Lemma rng_advance_add (a b : nat) (g : Rng) :
  rng_advance a (rng_advance b g) = rng_advance (a + b) g.
Proof. unfold rng_advance. cbn. f_equal. lia. Qed.

Lemma rng_advance_0 (g : Rng) : rng_advance 0 g = g.
Proof. by destruct g. Qed.

Lemma gen_cell_draws (s : BombermanGame) :
  ∃ c, gen_cell s
       = Ok (c, set_random_state
                  (rng_advance (if decide (c = EMPTY) then 1 else 2)
                     (random_state s)) s).
Proof.
  unfold gen_cell, bind, random_random, ret, rng_random.
  destruct (PrimFloat.ltb _ f_0_2); cbn.
  - destruct (PrimFloat.ltb _ f_0_7);
      [exists DESTRUCTIBLE | exists INDESTRUCTIBLE]; by destruct s.
  - exists EMPTY. by destruct s.
Qed.

Lemma gen_row_draws (n : nat) :
  ∀ (row_data : list Cell) (s : BombermanGame),
    ∃ cells,
      gen_row n row_data s
      = Ok (row_data ++ cells,
            set_random_state
              (rng_advance (n + length (filter (λ c, c ≠ EMPTY) cells))
                 (random_state s)) s)
      ∧ length cells = n.
Proof.
  induction n as [|n IH]; intros row_data s.
  - exists []. cbn. rewrite app_nil_r, rng_advance_0. by destruct s.
  - destruct (gen_cell_draws s) as (c & Hc).
    destruct (IH (row_data ++ [c]) (set_random_state
                (rng_advance (if decide (c = EMPTY) then 1 else 2)
                   (random_state s)) s)) as (cells & Hrun & Hlen).
    exists (c :: cells). cbn [gen_row]. unfold bind. rewrite Hc, Hrun.
    rewrite <- app_assoc. cbn [app length]. split; [|by rewrite Hlen].
    do 2 f_equal. cbn [random_state set_random_state].
    rewrite rng_advance_add, filter_cons.
    assert (Hcount :
      (n + length (filter (λ c0, c0 ≠ EMPTY) cells)
       + (if decide (c = EMPTY) then 1 else 2)
       = S n + length (if decide (c ≠ EMPTY)
                       then c :: filter (λ c0, c0 ≠ EMPTY) cells
                       else filter (λ c0, c0 ≠ EMPTY) cells))%nat).
    { destruct (decide (c = EMPTY)) as [-> | Hne].
      - rewrite decide_False by (by intros H; apply H). lia.
      - rewrite decide_True by done. cbn [length]. lia. }
    rewrite Hcount. by destruct s.
Qed.

Lemma gen_rows_draws (n : nat) :
  ∀ s : BombermanGame,
    ∃ rows,
      gen_rows n s
      = Ok (tt, set_random_state
                  (rng_advance (n * Z.to_nat COLS + count_obstacles rows)
                     (random_state s))
                  (set_grid (grid s ++ rows) s))
      ∧ length rows = n.
Proof.
  induction n as [|n IH]; intros s.
  - exists []. cbn. rewrite app_nil_r. unfold count_obstacles. cbn.
    rewrite rng_advance_0. by destruct s.
  - destruct (gen_row_draws (Z.to_nat COLS) [] s) as (cells & Hrow & Hlen).
    set (k := (Z.to_nat COLS + length (filter (λ c, c ≠ EMPTY) cells))%nat) in *.
    set (s1 := set_grid (grid (set_random_state (rng_advance k (random_state s)) s)
                         ++ [cells])
                 (set_random_state (rng_advance k (random_state s)) s)).
    destruct (IH s1) as (rows & Hrun & Hn).
    exists (cells :: rows). cbn [gen_rows]. unfold bind, modify.
    rewrite Hrow. cbn [app]. fold s1. rewrite Hrun.
    split; [|cbn; by rewrite Hn].
    assert (Hr1 : random_state s1 = rng_advance k (random_state s)) by reflexivity.
    assert (Hg1 : grid s1 = grid s ++ [cells]) by reflexivity.
    rewrite Hr1, Hg1, rng_advance_add, <- app_assoc. cbn [app].
    assert (Hcount : (n * Z.to_nat COLS + count_obstacles rows + k
                      = S n * Z.to_nat COLS + count_obstacles (cells :: rows))%nat).
    { subst k. unfold count_obstacles. cbn [concat].
      rewrite filter_app, length_app. lia. }
    rewrite Hcount. subst s1. by destruct s.
Qed.

(** X12. [setup] can be called in any state and succeeds.  It consumes
    from the generator of [random] one draw per cell and one more per cell
    that is not Empty, 300 plus the number of obstacles of the new grid, and
    none from the generator of [np.random]; it leaves the episode counter,
    the agents with their tables, the files and the time accumulator as they
    were. *)
Theorem setup_draws (s : BombermanGame) :
  ∃ s',
    setup s = Ok (tt, s')
    ∧ grid_wf (grid s')
    ∧ random_state s'
      = rng_advance (300 + count_obstacles (grid s')) (random_state s)
    ∧ (count_obstacles (grid s') ≤ 300)%nat
    ∧ np_random_state s' = np_random_state s
    ∧ current_episode s' = current_episode s
    ∧ agents s' = agents s
    ∧ files s' = files s
    ∧ time_accumulator s' = time_accumulator s.
Proof.
  destruct (gen_rows_draws (Z.to_nat ROWS) (set_grid [] s)) as (rows & Hrun & Hn).
  destruct (setup_spec s) as (g' & rng' & Hspec & Hwf).
  eexists. split; [exact Hspec|].
  assert (Heq : g' = rows ∧ rng' = rng_advance (300 + count_obstacles rows) (random_state s)).
  { unfold setup in Hspec. unfold bind at 1, modify in Hspec.
    unfold bind at 1 in Hspec. rewrite Hrun in Hspec.
    unfold bind, modify in Hspec. cbn in Hspec.
    injection Hspec as <- <-. done. }
  destruct Heq as [-> ->]. cbn.
  split; [done|]. split; [done|]. split; [|done].
  unfold count_obstacles.
  etrans; [apply length_filter|].
  destruct Hwf as [Hrows Hcols].
  assert (Hsum : ∀ l : list (list Cell),
            Forall (λ line, Z.of_nat (length line) = COLS) l →
            length (concat l) = (length l * 20)%nat).
  { induction l as [|x l IHl]; intros Hall; [done|].
    apply Forall_cons in Hall as [Hx Hall]. cbn [concat length].
    rewrite length_app, IHl by done. rewrite COLS_eq in Hx. lia. }
  rewrite Hsum by done. rewrite ROWS_eq in Hrows. lia.
Qed.

(** ** [max_episodes] is never consulted (lines 56-68, 182-209) *)

Lemma ignores_ret {A : Type} (a : A) : ignores_max_episodes (ret a).
Proof. by intros x s. Qed.

Lemma ignores_lift {A : Type} (r : result A) : ignores_max_episodes (lift r).
Proof. intros x s. unfold lift. by destruct r. Qed.

Lemma ignores_bind {A B : Type} (m : M A) (k : A → M B) :
  ignores_max_episodes m → (∀ a, ignores_max_episodes (k a)) →
  ignores_max_episodes (bind m k).
Proof.
  intros Hm Hk x s. unfold bind. rewrite Hm.
  destruct (m s) as [[a s']|]; [apply Hk | done].
Qed.

Lemma ignores_modify (f : BombermanGame → BombermanGame) :
  (∀ x s, f (set_max_episodes x s) = set_max_episodes x (f s)) →
  ignores_max_episodes (modify f).
Proof. intros Hf x s. unfold modify. cbn. by rewrite Hf. Qed.

(** Reading the state is allowed as long as what is then done does not
    depend on the [max_episodes] of the state read. *)
Lemma ignores_get {A : Type} (k : BombermanGame → M A) :
  (∀ s0, ignores_max_episodes (k s0)) →
  (∀ x s, k (set_max_episodes x s) = k s) →
  ignores_max_episodes (bind get k).
Proof. intros Hk Hsame x s. unfold bind, get. rewrite Hsame. apply Hk. Qed.

Create HintDb ignores.

Ltac ignores_step :=
  match goal with
  | |- ignores_max_episodes (ret _) => apply ignores_ret
  | |- ignores_max_episodes (lift _) => apply ignores_lift
  | |- ignores_max_episodes (modify _) =>
      apply ignores_modify; intros; reflexivity
  | |- ignores_max_episodes (bind get _) =>
      apply ignores_get; [intros ? | intros; reflexivity]
  | |- ignores_max_episodes (bind _ _) => apply ignores_bind; [| intros ?]
  | |- ignores_max_episodes (if ?b then _ else _) => destruct b
  | |- ignores_max_episodes _ => solve [auto with ignores]
  end.

Ltac ignores := cbv zeta; repeat (ignores_step; cbv zeta).

Lemma ignores_random_random : ignores_max_episodes random_random.
Proof. by intros x s. Qed.
#[local] Hint Resolve ignores_random_random : ignores.

Lemma ignores_gen_cell : ignores_max_episodes gen_cell.
Proof. unfold gen_cell. ignores. Qed.
#[local] Hint Resolve ignores_gen_cell : ignores.

Lemma ignores_gen_row (n : nat) :
  ∀ row_data, ignores_max_episodes (gen_row n row_data).
Proof. induction n as [|n IH]; intros row_data; cbn [gen_row]; ignores. Qed.
#[local] Hint Resolve ignores_gen_row : ignores.

Lemma ignores_gen_rows (n : nat) : ignores_max_episodes (gen_rows n).
Proof. induction n as [|n IH]; cbn [gen_rows]; ignores. Qed.
#[local] Hint Resolve ignores_gen_rows : ignores.

Lemma ignores_setup : ignores_max_episodes setup.
Proof. unfold setup. ignores. Qed.
#[local] Hint Resolve ignores_setup : ignores.

Lemma ignores_get_state (i : nat) : ignores_max_episodes (get_state i).
Proof. unfold get_state. ignores. Qed.
#[local] Hint Resolve ignores_get_state : ignores.

Lemma ignores_grid_at (r c : Z) : ignores_max_episodes (grid_at r c).
Proof. unfold grid_at. ignores. Qed.
#[local] Hint Resolve ignores_grid_at : ignores.

Lemma ignores_free_cell (guard : bool) (r c : Z) :
  ignores_max_episodes (free_cell guard r c).
Proof. unfold free_cell. ignores. Qed.
#[local] Hint Resolve ignores_free_cell : ignores.

Lemma ignores_move_to (i : nat) (p : Z * Z) : ignores_max_episodes (move_to i p).
Proof. unfold move_to. ignores. Qed.
#[local] Hint Resolve ignores_move_to : ignores.

Lemma ignores_perform_action (i : nat) (action : Z) :
  ignores_max_episodes (perform_action i action).
Proof. unfold perform_action. ignores. Qed.
#[local] Hint Resolve ignores_perform_action : ignores.

Lemma ignores_grid_put (r c : Z) (v : Cell) : ignores_max_episodes (grid_put r c v).
Proof. unfold grid_put. ignores. Qed.
#[local] Hint Resolve ignores_grid_put : ignores.

Lemma ignores_scan_direction (row col dr dc : Z) (ds : list Z) :
  ∀ acc, ignores_max_episodes (scan_direction row col dr dc ds acc).
Proof. induction ds as [|i ds IH]; intros acc; cbn [scan_direction]; ignores. Qed.
#[local] Hint Resolve ignores_scan_direction : ignores.

Lemma ignores_scan_directions (row col : Z) (dirs : list (Z * Z)) :
  ∀ acc, ignores_max_episodes (scan_directions row col dirs acc).
Proof. induction dirs as [|d dirs IH]; intros acc; cbn [scan_directions]; ignores. Qed.
#[local] Hint Resolve ignores_scan_directions : ignores.

Lemma ignores_damage_agent (affected : list (Z * Z)) (i : nat) (p : Z * Z) :
  ignores_max_episodes (damage_agent affected i p).
Proof. unfold damage_agent. ignores. Qed.
#[local] Hint Resolve ignores_damage_agent : ignores.

Lemma ignores_damage_agents (affected : list (Z * Z)) (ps : list (Z * Z)) :
  ∀ i, ignores_max_episodes (damage_agents affected i ps).
Proof. induction ps as [|p ps IH]; intros i; cbn [damage_agents]; ignores. Qed.
#[local] Hint Resolve ignores_damage_agents : ignores.

Lemma ignores_explode_bomb (bomb : Bomb) : ignores_max_episodes (explode_bomb bomb).
Proof. unfold explode_bomb, blast. ignores. Qed.
#[local] Hint Resolve ignores_explode_bomb : ignores.

Lemma ignores_bombs_loop (snapshot : list (nat * Bomb)) :
  ∀ live, ignores_max_episodes (bombs_loop snapshot live).
Proof.
  induction snapshot as [|kb rest IH]; intros live; cbn [bombs_loop]; ignores.
Qed.
#[local] Hint Resolve ignores_bombs_loop : ignores.

Lemma ignores_tick_bombs : ignores_max_episodes tick_bombs.
Proof. unfold tick_bombs. ignores. Qed.
#[local] Hint Resolve ignores_tick_bombs : ignores.

Lemma ignores_agent_turn (i : nat) : ignores_max_episodes (agent_turn i).
Proof. unfold agent_turn. ignores. Qed.
#[local] Hint Resolve ignores_agent_turn : ignores.

Lemma ignores_agents_loop (ids : list nat) : ignores_max_episodes (agents_loop ids).
Proof. induction ids as [|i ids IH]; cbn [agents_loop]; ignores. Qed.
#[local] Hint Resolve ignores_agents_loop : ignores.

Lemma ignores_save_all (ags : list QLearningAgent) :
  ∀ i, ignores_max_episodes (save_all i ags).
Proof. induction ags as [|a ags IH]; intros i; cbn [save_all]; ignores. Qed.
#[local] Hint Resolve ignores_save_all : ignores.

Lemma ignores_end_episode : ignores_max_episodes end_episode.
Proof. unfold end_episode. ignores. Qed.
#[local] Hint Resolve ignores_end_episode : ignores.

Lemma ignores_tick : ignores_max_episodes tick.
Proof. unfold tick. ignores. Qed.
#[local] Hint Resolve ignores_tick : ignores.

Lemma ignores_on_update (delta_time : float) :
  ignores_max_episodes (on_update delta_time).
Proof. unfold on_update. ignores. Qed.
#[local] Hint Resolve ignores_on_update : ignores.

Lemma ignores_run_frames (frames : list float) :
  ignores_max_episodes (run_frames frames).
Proof. induction frames as [|dt frames IH]; cbn [run_frames]; ignores. Qed.

(** X13. [max_episodes] is stored and never read.  Two games constructed
    with different values of [max_episodes] differ in that attribute only,
    and [setup] followed by any sequence of frames has the same outcome on
    both (the same exception, or final states that again differ in
    [max_episodes] only): the simulation does not stop, or change in any
    way, when the episode counter reaches [max_episodes]. *)
Theorem max_episodes_never_consulted :
  (∀ (n : nat) (x y : Z) (r1 r2 : Rng) (fs : gmap string NpyFile),
     BombermanGame_init n x r1 r2 fs
     = match BombermanGame_init n y r1 r2 fs with
       | Ok g => Ok (set_max_episodes x g)
       | Raise e => Raise e
       end)
  ∧ (∀ (frames : list float) (x : Z) (s : BombermanGame),
       (setup ;;; run_frames frames) (set_max_episodes x s)
       = match (setup ;;; run_frames frames) s with
         | Ok (a, s') => Ok (a, set_max_episodes x s')
         | Raise e => Raise e
         end)
  ∧ (∀ (delta_time : float) (x : Z) (s : BombermanGame),
       on_update delta_time (set_max_episodes x s)
       = match on_update delta_time s with
         | Ok (a, s') => Ok (a, set_max_episodes x s')
         | Raise e => Raise e
         end).
Proof.
  split; [|split].
  - intros n x y r1 r2 fs. unfold BombermanGame_init.
    by destruct (load_all _ _ _).
  - intros frames x s.
    apply (ignores_bind setup (λ _, run_frames frames));
      [apply ignores_setup | intros _; apply ignores_run_frames].
  - intros delta_time x s. apply ignores_on_update.
Qed.

(** ** A table that is too short (lines 33, 37-40, 46-52, 195-202) *)

Lemma py_index_out_of_range {A : Type} (l : list A) (i : Z) :
  Z.of_nat (length l) ≤ i → py_index l i = Raise IndexError.
Proof.
  intros Hi. unfold py_index, py_norm.
  destruct (Z.ltb_spec i 0); [lia|].
  destruct (Z.leb_spec 0 i); [|lia].
  destruct (Z.ltb_spec i (Z.of_nat (length l))); [lia | done].
Qed.

Lemma update_out_of_range (a : QLearningAgent) (state action reward next_state : Z) :
  Z.of_nat (length (q_table a)) ≤ state →
  ∃ e, update a state action reward next_state = Raise e
       ∧ (e = IndexError ∨ e = ValueError).
Proof.
  intros Hstate. unfold update.
  destruct (py_index (q_table a) next_state) as [next_row | e] eqn:Hnext.
  - cbn [bindR]. destruct next_row as [|m ms].
    + exists ValueError. by split; [|right].
    + cbn [np_max bindR]. rewrite py_index_out_of_range by done.
      exists IndexError. by split; [|left].
  - cbn [bindR]. exists e. split; [done|].
    unfold py_index in Hnext. repeat case_match; simplify_eq; by left.
Qed.

(** X14. A stored table with too few rows is accepted when the game is
    constructed (C7) but cannot be used: the turn of a live agent standing,
    inside a well-formed grid, on a cell whose state the table does not
    cover raises [IndexError] (or [ValueError], when the update meets an
    empty row first), whatever the generator draws. *)
Theorem short_table_turn_raises (s : BombermanGame) (i : nat) (p : Z * Z)
    (a : QLearningAgent) :
  grid_wf (grid s) →
  game_over s !! i = Some false →
  agent_positions s !! i = Some p →
  in_bounds p →
  agents s !! i = Some a →
  action_size a = 5 →
  Z.of_nat (length (q_table a)) ≤ p.1 * COLS + p.2 →
  ∃ e, agent_turn i s = Raise e ∧ (e = IndexError ∨ e = ValueError).
Proof.
  intros Hwf Hlive Hpos Hin Hagent Hsize Hshort.
  unfold agent_turn. unfold bind at 1, get. unfold bind at 1, lift, list_get.
  rewrite Hlive. unfold bind at 1.
  unfold get_state at 1, bind at 1, get. unfold bind at 1, lift, list_get, ret.
  rewrite Hpos. unfold bind at 1. rewrite Hagent. unfold bind at 1.
  unfold choose_action, rng_random, rng_randint.
  destruct (PrimFloat.ltb _ _).
  - rewrite Hsize. cbn [Z.leb Z.compare]. unfold bind at 1, modify. cbn [fst snd].
    set (action := _ `mod` 5).
    assert (Haction : 0 ≤ action < 5) by (by apply Z.mod_pos_bound).
    set (s1 := set_np_random_state _ s).
    assert (Hrun : ∃ r s2, perform_action i action s1 = Ok (r, s2)).
    { destruct (decide (action = 4)) as [-> | Hne].
      - rewrite (perform_action_place_bomb s1 i p) by done. eauto.
      - rewrite (perform_action_move_eq s1 i action p) by (done || lia).
        destruct (_ && _); eauto. }
    destruct Hrun as (r & s2 & Hrun). unfold bind at 1. rewrite Hrun.
    pose proof (perform_action_length _ _ _ _ _ Hrun) as Hlen.
    pose proof (perform_action_frame _ _ _ _ _ Hrun) as Hframe.
    destruct (lookup_lt_is_Some_2 (agent_positions s2) i) as [p2 Hp2].
    { rewrite Hlen. cbn. by eapply lookup_lt_Some. }
    unfold bind at 1.
    unfold get_state, bind at 1, get. unfold bind at 1, lift, list_get, ret.
    rewrite Hp2. unfold bind at 1. unfold bind at 1.
    assert (Hag2 : agents s2 = agents s) by (by rewrite Hframe).
    rewrite Hag2, Hagent. unfold bind at 1.
    destruct (update_out_of_range a (p.1 * COLS + p.2) action r
                (p2.1 * COLS + p2.2) Hshort) as (e & Hupd & He).
    rewrite Hupd. by exists e.
  - rewrite py_index_out_of_range by done. cbn [bindR].
    exists IndexError. by split; [|left].
Qed.

(** X14 on the 1 x 1 table of the counterexample of C7 and an agent at its
    spawn position (1, 1). *)
Lemma short_table_turn_raises_witness :
  ∃ e, agent_turn 0
         (set_agents [set_q_table [[1%float]] (QLearningAgent_init 300 5 0)]
            (scenario EMPTY_GRID [(1, 1)] [] [3])) = Raise e.
Proof.
  destruct (short_table_turn_raises
              (set_agents [set_q_table [[1%float]] (QLearningAgent_init 300 5 0)]
                 (scenario EMPTY_GRID [(1, 1)] [] [3]))
              0 (1, 1) (set_q_table [[1%float]] (QLearningAgent_init 300 5 0)))
    as (e & Hrun & _);
    [concrete_wf | reflexivity | reflexivity | bounds | reflexivity | reflexivity
    | by vm_compute |].
  by exists e.
Defined.

(** ** The grid within an episode (lines 129-141, 182-209) *)

Lemma erodes_refl (g : list (list Cell)) : erodes g g.
Proof. intros p. by left. Qed.

Lemma erodes_trans (g1 g2 g3 : list (list Cell)) :
  erodes g1 g2 → erodes g2 g3 → erodes g1 g3.
Proof.
  intros H12 H23 p.
  destruct (H12 p) as [E12 | [D12 E12]], (H23 p) as [E23 | [D23 E23]].
  - left. congruence.
  - right. split; congruence.
  - right. split; congruence.
  - congruence.
Qed.

Lemma episode_le_refl (s : BombermanGame) : episode_le s s.
Proof. split; [lia | intros _; apply erodes_refl]. Qed.

Lemma episode_le_trans (s1 s2 s3 : BombermanGame) :
  episode_le s1 s2 → episode_le s2 s3 → episode_le s1 s3.
Proof.
  intros [Hle12 H12] [Hle23 H23]. split; [lia|].
  intros Heq. eapply erodes_trans; [apply H12 | apply H23]; lia.
Qed.

Lemma explode_bomb_erodes (s s' : BombermanGame) (bomb : Bomb) :
  grid_wf (grid s) → vitals_wf s →
  explode_bomb bomb s = Ok (tt, s') →
  current_episode s' = current_episode s ∧ erodes (grid s) (grid s').
Proof.
  intros Hwf Hvit Hrun.
  destruct (explode_bomb_spec s bomb Hwf Hvit)
    as (affected & g' & ls & gos & Hblast & Hrun' & _).
  rewrite Hrun' in Hrun. injection Hrun as <-.
  pose proof (blast_eq s bomb Hwf) as Hgrid. rewrite Hblast in Hgrid.
  apply (f_equal (λ r, match r with Ok (_, x) => grid x | Raise _ => [] end))
    in Hgrid.
  change (g' = destroy_all
                 (concat (snd <$> walks (grid s) (bomb_row bomb) (bomb_col bomb)
                                    DIRECTIONS)) (grid s)) in Hgrid.
  split; [done|]. intros p.
  change (grid (set_game_over gos (set_lives ls (set_grid g' s)))) with g'.
  rewrite Hgrid.
  rewrite cell_at_destroy_all by (done || apply walks_in_bounds).
  destruct (decide (p ∈ _)) as [Hin | _]; [right | by left].
  split; [|done].
  apply elem_of_concat in Hin as (l & Hp & Hl).
  apply list_elem_of_fmap in Hl as (w & -> & Hw).
  apply list_elem_of_fmap in Hw as (d & -> & _).
  by apply walk_spec_destroyed in Hp as [Hp _].
Qed.

Lemma agent_turn_episode (j : nat) (s s' : BombermanGame) :
  agent_turn j s = Ok (tt, s') → current_episode s' = current_episode s.
Proof.
  intros H. unfold agent_turn in H.
  step_in H. injection Hcall as <- <-.
  step_in H. apply lift_ok_inv in Hcall as [Hdead ->].
  destruct a; [by injection H as <-|].
  step_in H. apply get_state_ok_inv in Hcall as ->.
  step_in H. apply lift_ok_inv in Hcall as [_ ->].
  step_in H. apply lift_ok_inv in Hcall as [_ ->].
  step_in H. injection Hcall as _ <-.
  step_in H. apply perform_action_frame in Hcall.
  step_in H. apply get_state_ok_inv in Hcall0 as ->.
  step_in H. injection Hcall0 as <- <-.
  step_in H. apply lift_ok_inv in Hcall0 as [_ ->].
  step_in H. apply lift_ok_inv in Hcall0 as [_ ->].
  injection H as <-. by rewrite Hcall.
Qed.

Lemma agents_loop_episode (ids : list nat) (s s' : BombermanGame) :
  agents_loop ids s = Ok (tt, s') → current_episode s' = current_episode s.
Proof.
  revert s. induction ids as [|j ids IH]; intros s H.
  - by injection H as <-.
  - cbn [agents_loop] in H. step_in H. destruct a.
    apply agent_turn_episode in Hcall. apply IH in H. congruence.
Qed.

Lemma end_episode_episode (s s' : BombermanGame) :
  end_episode s = Ok (tt, s') →
  s' = s ∨ current_episode s' = current_episode s + 1.
Proof.
  intros H. destruct (forallb id (game_over s)) eqn:Hall.
  - destruct (end_episode_reset s Hall) as (g' & rng' & Hrun & _).
    rewrite Hrun in H. injection H as <-. by right.
  - rewrite end_episode_continue in H by done. injection H as <-. by left.
Qed.

Lemma tick_episode (s s' : BombermanGame) :
  game_inv s → tick s = Ok (tt, s') → episode_le s s'.
Proof.
  intros Hinv Hrun.
  destruct (tick_bombs_safe s Hinv) as (s1 & Hbombs & Hinv1 & _).
  assert (H1 : current_episode s1 = current_episode s
               ∧ erodes (grid s) (grid s1)).
  { pose proof Hbombs as Hloop. unfold tick_bombs, bind, get in Hloop.
    apply (bombs_loop_invariant
             (λ x, (game_inv x ∧ same_config s x)
                   ∧ current_episode x = current_episode s
                   ∧ erodes (grid s) (grid x))) in Hloop.
    - by destruct Hloop as [_ ?].
    - intros l x [[Hx Hc] He]. split; [|done]. split; [by destruct Hx | done].
    - intros b x x' [Hx [He Hg]] Hboom. split; [by eapply game_inv_explode_bomb|].
      destruct Hx as [Hx _].
      apply explode_bomb_erodes in Hboom as [He' Hg'].
      + split; [congruence | by eapply erodes_trans].
      + by destruct Hx.
      + destruct Hx. split; congruence.
    - split; [split; [done | apply same_config_refl]|].
      split; [done | apply erodes_refl]. }
  destruct H1 as [He1 Hg1].
  unfold tick in Hrun. unfold bind at 1 in Hrun. rewrite Hbombs in Hrun.
  unfold bind at 1, get in Hrun.
  apply bind_ok_inv in Hrun as ([] & s2 & Hturns & Hend).
  pose proof (agents_loop_episode _ _ _ Hturns) as He2.
  apply agents_loop_frame in Hturns as (_ & _ & Hg2 & _).
  apply end_episode_episode in Hend as [-> | He3].
  - split; [lia|]. intros _. by rewrite Hg2.
  - split; lia.
Qed.

Lemma on_update_episode (delta_time : float) (s s' : BombermanGame) :
  game_inv s → on_update delta_time s = Ok (tt, s') → episode_le s s'.
Proof.
  intros Hinv. rewrite on_update_gate. cbv zeta.
  destruct (PrimFloat.ltb _ _).
  - intros [= <-]. split; [cbn; lia | intros _; apply erodes_refl].
  - intros Hrun. apply tick_episode in Hrun; [exact Hrun|].
    destruct Hinv. by constructor.
Qed.

Lemma run_frames_episode (frames : list float) :
  ∀ s s' : BombermanGame,
    game_inv s → run_frames frames s = Ok (tt, s') → episode_le s s'.
Proof.
  induction frames as [|delta_time frames IH]; intros s s' Hinv Hrun.
  - injection Hrun as <-. apply episode_le_refl.
  - cbn [run_frames] in Hrun.
    destruct (on_update_safe delta_time s Hinv) as (s1 & Hframe & Hinv1 & _).
    unfold bind in Hrun. rewrite Hframe in Hrun.
    eapply episode_le_trans; [by eapply on_update_episode | by eapply IH].
Qed.

(** X15. Within an episode the grid only erodes.  From any state that
    satisfies the invariant, every sequence of frames runs to a state whose
    episode counter is not smaller; and if the counter is the same, every
    cell of the grid is what it was or has gone from Destructible to Empty,
    however many bombs exploded and turns were played in between: no cell
    becomes an obstacle and no Indestructible or Empty cell changes. *)
Theorem grid_erodes_within_episode (frames : list float) (s : BombermanGame) :
  game_inv s →
  ∃ s', run_frames frames s = Ok (tt, s')
        ∧ current_episode s ≤ current_episode s'
        ∧ (current_episode s' = current_episode s →
           ∀ p : Z * Z,
             cell_at (grid s') p = cell_at (grid s) p
             ∨ (cell_at (grid s) p = Some DESTRUCTIBLE
                ∧ cell_at (grid s') p = Some EMPTY)).
Proof.
  intros Hinv.
  destruct (run_frames_inv frames s Hinv) as (s' & Hrun & _).
  exists s'. split; [done|].
  by apply run_frames_episode in Hrun.
Qed.

(** X15 on a bomb about to explode next to a destructible block. *)
Lemma grid_erodes_within_episode_witness :
  ∃ s', run_frames [0.25; 0.25; 0.25]%float
          (scenario WALLED_GRID [(2, 2)] [mkBomb 2 2 0.5 0] [3]) = Ok (tt, s')
        ∧ current_episode s' = 0.
Proof.
  destruct (grid_erodes_within_episode [0.25; 0.25; 0.25]%float
              (scenario WALLED_GRID [(2, 2)] [mkBomb 2 2 0.5 0] [3]))
    as (s' & Hrun & _).
  - constructor; try reflexivity.
    + cbn. lia.
    + concrete_wf.
    + repeat constructor; cbn; lia.
    + intros i l dead Hl Hd.
      destruct i as [|i]; cbn in Hl, Hd; try discriminate.
      injection Hl as <-. injection Hd as <-. split; [lia | reflexivity].
    + repeat constructor.
  - exists s'. split; [exact Hrun|].
    assert (Hone : ∃ x, run_frames [0.25; 0.25; 0.25]%float
                     (scenario WALLED_GRID [(2, 2)] [mkBomb 2 2 0.5 0] [3])
                   = Ok (tt, x) ∧ current_episode x = 0)
      by (eexists; split; vm_compute; reflexivity).
    destruct Hone as (x & Hx & He). rewrite Hx in Hrun. by injection Hrun as <-.
Defined.

(** ** Movement of an agent outside the grid (lines 82-98, 105-123) *)

(** Reading the grid in one of its rows at a column right of the grid. *)
Lemma grid_at_right_of_grid (s : BombermanGame) (r c : Z) :
  grid_wf (grid s) → 0 ≤ r < ROWS → COLS ≤ c →
  grid_at r c s = Raise IndexError.
Proof.
  intros [Hrows Hall] Hr Hc.
  destruct (lookup_lt_is_Some_2 (grid s) (Z.to_nat r)) as [line Hline]; [lia|].
  pose proof (Forall_lookup_1 _ _ _ _ Hall Hline) as Hlen. cbn in Hlen.
  unfold grid_at, bind, get, lift.
  rewrite (py_index_in_range _ _ line) by (done || lia). cbn [bindR].
  by rewrite py_index_out_of_range by lia.
Qed.

(** A live agent in row 1 and right of the grid: the guards of Up, Down and
    Left hold, and the grid is read outside its columns. *)
Lemma perform_action_right_of_grid (s : BombermanGame) (i : nat) (col : Z) :
  grid_wf (grid s) →
  game_over s !! i = Some false →
  agent_positions s !! i = Some (1, col) →
  COLS < col →
  perform_action i ACTION_UP s = Raise IndexError
  ∧ perform_action i ACTION_DOWN s = Raise IndexError
  ∧ perform_action i ACTION_LEFT s = Raise IndexError
  ∧ perform_action i ACTION_RIGHT s = Ok (-1, s).
Proof.
  intros Hwf Hlive Hpos Hcol.
  assert (Hup : grid_at (1 - 1) col s = Raise IndexError)
    by (apply grid_at_right_of_grid; [done | rewrite ROWS_eq; lia | lia]).
  assert (Hdown : grid_at (1 + 1) col s = Raise IndexError)
    by (apply grid_at_right_of_grid; [done | rewrite ROWS_eq; lia | lia]).
  assert (Hleft : grid_at 1 (col - 1) s = Raise IndexError)
    by (apply grid_at_right_of_grid; [done | rewrite ROWS_eq; lia | lia]).
  assert (Hgt : (col >? 0) = true) by (rewrite COLS_eq in Hcol; lia).
  assert (Hlt : (col <? COLS - 1) = false) by lia.
  assert (Hrow : (1 <? ROWS - 1) = true) by (by rewrite ROWS_eq).
  unfold perform_action, ACTION_UP, ACTION_DOWN, ACTION_LEFT, ACTION_RIGHT.
  unfold bind, get, lift, list_get, free_cell, ret.
  rewrite Hlive, Hpos. cbn [fst snd].
  rewrite Hgt, Hlt, Hrow. cbn [Z.eqb Pos.eqb Z.gtb Z.compare andb].
  unfold bind. by rewrite Hup, Hdown, Hleft.
Qed.

(** C1 fails for the eighth agent of a game of 8 agents, whatever the
    generator draws: [setup] puts it, alive, at (1, 22), right of the grid
    (the defect of C8).  The destinations of Up, Down and Left are outside
    the grid, where the claim promises the reward -1 and an unchanged
    position, and [perform_action] raises [IndexError]; Right alone is
    refused with -1. *)
Theorem perform_action_outside_grid (max_episodes : Z) (r1 r2 : Rng) :
  ∃ s s',
    BombermanGame_init 8 max_episodes r1 r2 ∅ = Ok s
    ∧ setup s = Ok (tt, s')
    ∧ game_over s' !! 7%nat = Some false
    ∧ agent_positions s' !! 7%nat = Some (1, 22)
    ∧ (¬ in_bounds (destination ACTION_UP (1, 22)))
    ∧ (¬ in_bounds (destination ACTION_DOWN (1, 22)))
    ∧ (¬ in_bounds (destination ACTION_LEFT (1, 22)))
    ∧ perform_action 7 ACTION_UP s' = Raise IndexError
    ∧ perform_action 7 ACTION_DOWN s' = Raise IndexError
    ∧ perform_action 7 ACTION_LEFT s' = Raise IndexError
    ∧ perform_action 7 ACTION_RIGHT s' = Ok (-1, s').
Proof.
  assert (Hinit : ∃ s, BombermanGame_init 8 max_episodes r1 r2 ∅ = Ok s
                       ∧ num_agents s = 8%nat)
    by (eexists; split; vm_compute; reflexivity).
  destruct Hinit as (s & Hinit & Hn).
  destruct (setup_spec s) as (g' & rng' & Hsetup & Hwf).
  rewrite Hn in Hsetup.
  eexists s, _. split; [exact Hinit|]. split; [exact Hsetup|].
  split; [reflexivity|]. split; [reflexivity|].
  split; [bounds|]. split; [bounds|]. split; [bounds|].
  apply (perform_action_right_of_grid _ 7 22); [done | reflexivity | reflexivity|].
  rewrite COLS_eq. lia.
Qed.
